(** * Weighbridge telemetry: register decoder, register probe and the two
      polling loops

    A shallow embedding of [modbus_probe.py] and of the weighbridge part of
    [camera_viewer.py], with the properties of the telemetry subsystem proved
    about it.

    Python values are modelled as follows: [int] is [Z] (unbounded, with
    [&], [|], [<<] as [Z.land], [Z.lor], [Z.shiftl]); [float] is an IEEE 754
    binary64 value, [spec_float] at precision 53 and maximal exponent 1024;
    [str] is a list of Unicode code points; [bytes] is a list of octets;
    a raised exception is the [Raise] case of [result]. *)

From Stdlib Require Import ZArith Lia SpecFloat Ascii String.
From stdpp Require Import base list numbers gmap strings sorting.

Local Open Scope Z_scope.

(** ** Exceptions and the error monad *)

Inductive exn :=
  | ValueError
  | IndexError
  | TypeError
  | AttributeError
  | ZeroDivisionError
  | OverflowError
  | ModbusException
  | OtherException.

Inductive result (A : Type) :=
  | Ok (a : A)
  | Raise (e : exn).
Arguments Ok {A} a.
Arguments Raise {A} e.

Global Instance result_ret : MRet result := λ A a, Ok a.
Global Instance result_bind : MBind result := λ A B f m,
  match m with
  | Ok a => f a
  | Raise e => Raise e
  end.
Global Instance result_fmap : FMap result := λ A B f m,
  match m with
  | Ok a => Ok (f a)
  | Raise e => Raise e
  end.

(** ** Text

    A [str] is its sequence of code points, a [bytes] value its sequence of
    octets. *)

Definition pystr := list N.
Definition bytes := list N.

Definition ch (a : ascii) : N := N_of_ascii a.
Arguments ch a%_char.

(** A string literal of the source (ASCII only). *)
Definition lit (s : string) : pystr := N_of_ascii <$> list_ascii_of_string s.
Arguments lit s%_string.

(** The part of the Unicode character database that the runtime consults
    for characters outside ASCII: the decimal digit value of a character
    ([Py_UNICODE_TODECIMAL]) and the lowercase form of a string that is not
    pure ASCII. The tables are not part of the repository and stay
    parameters. *)
Class UnicodeData := {
  ucd_decimal : N → option N;
  ucd_lower : pystr → pystr;
}.

Definition between (lo hi c : N) : bool := ((lo <=? c) && (c <=? hi))%N.

Definition is_ascii (c : N) : bool := (c <? 128)%N.

(** [Py_UNICODE_ISSPACE], the characters [str.strip()] removes. *)
Definition is_space (c : N) : bool :=
  between 0x09 0x0D c || between 0x1C 0x20 c || (c =? 0x85)%N || (c =? 0xA0)%N
  || (c =? 0x1680)%N || between 0x2000 0x200A c || between 0x2028 0x2029 c
  || (c =? 0x202F)%N || (c =? 0x205F)%N || (c =? 0x3000)%N.

(** [Py_ISSPACE], the ASCII white space the number parsers skip. *)
Definition is_c_space (c : N) : bool := between 0x09 0x0D c || (c =? 0x20)%N.

Definition is_ascii_digit (c : N) : bool := between 48 57 c.

(** The value of a decimal digit character, ASCII or not. *)
Definition to_decimal `{!UnicodeData} (c : N) : option N :=
  if is_ascii c then (if is_ascii_digit c then Some (c - 48)%N else None)
  else ucd_decimal c.

Fixpoint drop_while {A : Type} (p : A → bool) (l : list A) : list A :=
  match l with
  | [] => []
  | x :: l' => if p x then drop_while p l' else l
  end.

Fixpoint take_while {A : Type} (p : A → bool) (l : list A) : list A :=
  match l with
  | [] => []
  | x :: l' => if p x then x :: take_while p l' else []
  end.

Definition strip_with (p : N → bool) (s : pystr) : pystr :=
  reverse (drop_while p (reverse (drop_while p s))).

(** [s.strip()] *)
Definition py_strip (s : pystr) : pystr := strip_with is_space s.

(** [s.lower()] *)
Definition py_lower `{!UnicodeData} (s : pystr) : pystr :=
  if forallb is_ascii s
  then (λ c, if between 65 90 c then (c + 32)%N else c) <$> s
  else ucd_lower s.

(** [s.split(sep)] for a separator of one character. *)
Fixpoint py_split (sep : N) (s : pystr) : list pystr :=
  match s with
  | [] => [[]]
  | c :: s' =>
      if (c =? sep)%N then [] :: py_split sep s'
      else match py_split sep s' with
           | p :: ps => (c :: p) :: ps
           | [] => [[c]]
           end
  end.

(** [s.split(sep, 1)]: split at the first separator only. *)
Fixpoint py_split1 (sep : N) (s : pystr) : list pystr :=
  match s with
  | [] => [[]]
  | c :: s' =>
      if (c =? sep)%N then [[]; s']
      else match py_split1 sep s' with
           | p :: ps => (c :: p) :: ps
           | [] => [[c]]
           end
  end.

(** [sep in s] *)
Definition py_contains (sep : N) (s : pystr) : bool :=
  existsb (λ c, (c =? sep)%N) s.

(** [a, b = xs] *)
Definition unpack2 {A : Type} (xs : list A) : result (A * A) :=
  match xs with
  | [a; b] => Ok (a, b)
  | _ => Raise ValueError
  end.

(** [sep.join(parts)] *)
Fixpoint py_join (sep : pystr) (parts : list pystr) : pystr :=
  match parts with
  | [] => []
  | [p] => p
  | p :: ps => p ++ sep ++ py_join sep ps
  end.

(** [for x in xs: body], threading the loop-carried variables [s]; an
    exception raised by the body leaves the loop. *)
Fixpoint py_for {X S : Type} (xs : list X) (body : X → S → result S) (s : S)
    : result S :=
  match xs with
  | [] => Ok s
  | x :: xs' => s' ← body x s; py_for xs' body s'
  end.

(** [range(start, stop, step)] for a positive [step]. *)
Definition py_range (start stop step : Z) : list Z :=
  (λ k : nat, start + Z.of_nat k * step)
    <$> seq 0 (Z.to_nat ((stop - start + step - 1) `div` step)).

(** [l[i]] on a list: negative indices count from the end, anything out of
    range raises [IndexError]. *)
Definition py_getitem {A : Type} (l : list A) (i : Z) : result A :=
  let n := Z.of_nat (length l) in
  let j := if i <? 0 then i + n else i in
  if (0 <=? j) && (j <? n) then
    match l !! Z.to_nat j with
    | Some x => Ok x
    | None => Raise IndexError
    end
  else Raise IndexError.

(** ** Numbers: [int] and [float]

    A [float] is a binary64 value. The operations are those of the IEEE 754
    specification in [SpecFloat]; conversions from and to decimal text are
    correctly rounded (to nearest, ties to even), as the runtime's are. *)

Definition float := spec_float.
Definition prec : Z := 53.
Definition emax : Z := 1024.

Definition float_zero : float := S754_zero false.
Definition float_one : float := Eval cbv in binary_normalize prec emax 1 0 false.
Definition float_half : float := Eval cbv in binary_normalize prec emax 1 (-1) false.

(** [x == y] on floats. *)
Definition float_eqb (x y : float) : bool := SFeqb x y.

(** [bool(x)] *)
Definition float_bool (x : float) : bool := negb (float_eqb x float_zero).

(** [float(n)] for an [int]: rounded to nearest; [OverflowError] when the
    integer is too large for a finite float. *)
Definition float_of_int (n : Z) : result float :=
  match binary_normalize prec emax n 0 false with
  | S754_infinity _ => Raise OverflowError
  | x => Ok x
  end.

(** [x / y] on floats. *)
Definition float_truediv (x y : float) : result float :=
  if float_eqb y float_zero then Raise ZeroDivisionError
  else Ok (SFdiv prec emax x y).

(** The float nearest to [(-1)^neg * d * 10^e]. *)
Definition float_of_decimal (neg : bool) (d : Z) (e : Z) : float :=
  if d =? 0 then S754_zero neg
  else if 0 <=? e then
    binary_normalize prec emax (if neg then - (d * 10 ^ e) else d * 10 ^ e) 0 false
  else
    let '(q, e2, l) := SFdiv_core_binary prec emax d 0 (10 ^ (- e)) 0 in
    binary_round_aux prec emax neg q e2 l.

(** [_PyUnicode_TransformDecimalAndSpaceToASCII]: what [int()] and
    [float()] do to their argument before parsing it. Conversion stops at
    the first character that is neither a digit nor white space, which is
    replaced by a question mark. *)
Fixpoint ascii_transform_chars `{!UnicodeData} (s : pystr) : pystr :=
  match s with
  | [] => []
  | c :: s' =>
      if (c <? 127)%N then c :: ascii_transform_chars s'
      else if is_space c then 32%N :: ascii_transform_chars s'
      else match to_decimal c with
           | Some d => (48 + d)%N :: ascii_transform_chars s'
           | None => [63%N]
           end
  end.

Definition ascii_transform `{!UnicodeData} (s : pystr) : pystr :=
  if forallb is_ascii s then s else ascii_transform_chars s.

Definition is_underscore (c : N) : bool := (c =? 95)%N.

(** The value of a run of ASCII digits, underscores skipped. *)
Definition digits_value (run : pystr) : Z :=
  foldl (λ acc c, if is_underscore c then acc else 10 * acc + (Z.of_N c - 48)) 0 run.

(** No two underscores in a row and none at the end, [prev] being the
    character before the run. *)
Fixpoint underscores_ok (prev : N) (run : pystr) : bool :=
  match run with
  | [] => negb (is_underscore prev)
  | c :: run' =>
      if is_underscore c && is_underscore prev then false
      else underscores_ok c run'
  end.

Definition take_sign (s : pystr) : bool * pystr :=
  match s with
  | c :: s' =>
      if (c =? ch "+")%N then (false, s')
      else if (c =? ch "-")%N then (true, s')
      else (false, s)
  | [] => (false, s)
  end.

(** The most digits [int()] converts and [str()] produces: the default of
    [sys.int_max_str_digits], which the program does not change. *)
Definition int_max_str_digits : Z := 4300.

(** The digits of a run, leading zeros included, underscores not. *)
Definition digit_count (run : pystr) : Z :=
  Z.of_nat (length (List.filter (λ c, negb (is_underscore c)) run)).

(** [int(s)] for a [str], base 10. A text of more than
    [int_max_str_digits] digits is refused. *)
Definition py_int `{!UnicodeData} (s : pystr) : result Z :=
  let t := drop_while is_c_space (ascii_transform s) in
  let '(negative, t) := take_sign t in
  let is_digit_or_us c := is_ascii_digit c || is_underscore c in
  let run := take_while is_digit_or_us t in
  let rest := drop_while is_c_space (drop_while is_digit_or_us t) in
  match run with
  | [] => Raise ValueError
  | c :: _ =>
      if is_underscore c then Raise ValueError
      else if negb (underscores_ok 0 run) then Raise ValueError
      else if int_max_str_digits <? digit_count run then Raise ValueError
      else match rest with
           | [] => Ok (if negative then - digits_value run else digits_value run)
           | _ :: _ => Raise ValueError
           end
  end.

(** [_Py_string_to_number_with_underscores]: an underscore is accepted
    only between two digits, and is removed. *)
Fixpoint remove_underscores (prev : N) (s : pystr) : option pystr :=
  match s with
  | [] => if is_underscore prev then None else Some []
  | c :: s' =>
      if is_underscore c then
        if is_ascii_digit prev then remove_underscores c s' else None
      else if is_underscore prev && negb (is_ascii_digit c) then None
      else (c ::.) <$> remove_underscores c s'
  end.

Definition ascii_lower_char (c : N) : N :=
  if between 65 90 c then (c + 32)%N else c.

(** Does [s] start with the lowercase word [w], letter case ignored? *)
Fixpoint starts_with_nocase (w s : pystr) : bool :=
  match w, s with
  | [], _ => true
  | a :: w', c :: s' => (ascii_lower_char c =? a)%N && starts_with_nocase w' s'
  | _ :: _, [] => false
  end.

(** [_Py_parse_inf_or_nan]: the value and the unread rest. *)
Definition parse_inf_or_nan (s : pystr) : option (float * pystr) :=
  let '(negative, t) := take_sign s in
  if starts_with_nocase (lit "inf") t then
    let t := drop 3 t in
    Some (S754_infinity negative,
          if starts_with_nocase (lit "inity") t then drop 5 t else t)
  else if starts_with_nocase (lit "nan") t then Some (S754_nan, drop 3 t)
  else None.

(** The exponent part [e[+-]digits] at the head of [s], if any: its value
    and the unread rest. Without a digit the part is not read at all. *)
Definition parse_exponent (s : pystr) : Z * pystr :=
  match s with
  | c :: s' =>
      if (ascii_lower_char c =? ch "e")%N then
        let '(negative, t) := take_sign s' in
        match take_while is_ascii_digit t with
        | [] => (0, s)
        | ds => (if negative then - digits_value ds else digits_value ds,
                 drop_while is_ascii_digit t)
        end
      else (0, s)
  | [] => (0, s)
  end.

(** The decimal literal the runtime's [strtod] reads at the head of [s]:
    sign, digits with an optional point, optional exponent. At least one
    digit is needed before or after the point. *)
Definition parse_decimal (s : pystr) : option (float * pystr) :=
  let '(negative, t) := take_sign s in
  let int_digits := take_while is_ascii_digit t in
  let t := drop_while is_ascii_digit t in
  let '(frac_digits, t) :=
    match t with
    | c :: t' =>
        if (c =? ch ".")%N
        then (take_while is_ascii_digit t', drop_while is_ascii_digit t')
        else ([], t)
    | [] => ([], t)
    end in
  match int_digits ++ frac_digits with
  | [] => None
  | ds =>
      let '(e, t) := parse_exponent t in
      Some (float_of_decimal negative (digits_value ds)
                             (e - Z.of_nat (length frac_digits)), t)
  end.

(** [float(s)] for a [str]. *)
Definition py_float `{!UnicodeData} (s : pystr) : result float :=
  let t := strip_with is_c_space (ascii_transform s) in
  let t := if existsb is_underscore t then remove_underscores 0 t else Some t in
  match t with
  | None => Raise ValueError
  | Some t =>
      let parsed :=
        match parse_decimal t with
        | Some r => Some r
        | None => parse_inf_or_nan t
        end in
      match parsed with
      | Some (x, []) => Ok x
      | _ => Raise ValueError
      end
  end.

(** *** Decimal output *)

Fixpoint nat_digits (fuel : nat) (n : Z) (acc : pystr) : pystr :=
  match fuel with
  | O => acc
  | S fuel' =>
      let acc' := Z.to_N (48 + n `mod` 10) :: acc in
      if n <? 10 then acc' else nat_digits fuel' (n `div` 10) acc'
  end.

(** [str(n)] for an [int] of at most [int_max_str_digits] digits, as are
    the integers the program prints: unit ids, addresses and counts read
    by [int()], and the 16-bit words of a frame. *)
Definition py_str_int (n : Z) : pystr :=
  if n <? 0 then ch "-" :: nat_digits (S (Z.to_nat (Z.log2 (- n)))) (- n) []
  else nat_digits (S (Z.to_nat (Z.log2 n))) n [].

(** [repr(l)] for a list of [int]. *)
Definition py_repr_list (l : list Z) : pystr :=
  lit "[" ++ py_join (lit ", ") (py_str_int <$> l) ++ lit "]".

(** [num / den] rounded to the nearest integer, ties to even. *)
Definition round_half_even (num den : Z) : Z :=
  let q := num `div` den in
  let r := num `mod` den in
  match 2 * r ?= den with
  | Lt => q
  | Gt => q + 1
  | Eq => if Z.even q then q else q + 1
  end.

(** The digits of [n / 10^decimals] with exactly [decimals] digits after
    the point. *)
Definition fixed_point (n : Z) (decimals : Z) : pystr :=
  let ds := py_str_int n in
  let k := Z.to_nat decimals in
  let ds := replicate (S k - length ds) (ch "0") ++ ds in
  if decimals =? 0 then ds
  else take (length ds - k) ds ++ lit "." ++ drop (length ds - k) ds.

(** [format(x, ".<decimals>f")]: the exact value of [x] rounded to
    [decimals] places. A negative precision is not a valid format
    specification, and a precision above [INT_MAX] is refused. *)
Definition py_format_fixed (x : float) (decimals : Z) : result pystr :=
  if (decimals <? 0) || (2147483647 <? decimals) then Raise ValueError
  else
    let sign (s : bool) := if s then lit "-" else [] in
    Ok match x with
       | S754_nan => lit "nan"
       | S754_infinity s => sign s ++ lit "inf"
       | S754_zero s => sign s ++ fixed_point 0 decimals
       | S754_finite s m e =>
           let n :=
             if 0 <=? e then Z.pos m * 2 ^ e * 10 ^ decimals
             else round_half_even (Z.pos m * 10 ^ decimals) (2 ^ (- e)) in
           sign s ++ fixed_point n decimals
       end.

(** ** Bytes to text, and the default extraction pattern *)

Definition is_continuation (b : N) : bool := between 0x80 0xBF b.

(** [data.decode(errors='ignore')], UTF-8: a malformed sequence is dropped
    up to the byte that made it malformed, a sequence cut short by the end
    of the data is dropped whole. *)
Fixpoint utf8_decode_ignore (data : bytes) : pystr :=
  match data with
  | [] => []
  | b1 :: d1 =>
      if (b1 <? 0x80)%N then b1 :: utf8_decode_ignore d1
      else if (b1 <? 0xC2)%N then utf8_decode_ignore d1
      else if (b1 <? 0xE0)%N then
        match d1 with
        | [] => []
        | b2 :: d2 =>
            if is_continuation b2
            then (N.lor (N.shiftl (N.land b1 0x1F) 6) (N.land b2 0x3F))
                   :: utf8_decode_ignore d2
            else utf8_decode_ignore d1
        end
      else if (b1 <? 0xF0)%N then
        match d1 with
        | [] => []
        | b2 :: d2 =>
            if negb (is_continuation b2)
               || (if (b2 <? 0xA0)%N then (b1 =? 0xE0)%N else (b1 =? 0xED)%N)
            then utf8_decode_ignore d1
            else match d2 with
                 | [] => []
                 | b3 :: d3 =>
                     if is_continuation b3
                     then (N.lor (N.shiftl (N.land b1 0x0F) 12)
                             (N.lor (N.shiftl (N.land b2 0x3F) 6) (N.land b3 0x3F)))
                            :: utf8_decode_ignore d3
                     else utf8_decode_ignore d2
                 end
        end
      else if (b1 <? 0xF5)%N then
        match d1 with
        | [] => []
        | b2 :: d2 =>
            if negb (is_continuation b2)
               || (if (b2 <? 0x90)%N then (b1 =? 0xF0)%N else (b1 =? 0xF4)%N)
            then utf8_decode_ignore d1
            else match d2 with
                 | [] => []
                 | b3 :: d3 =>
                     if negb (is_continuation b3) then utf8_decode_ignore d2
                     else match d3 with
                          | [] => []
                          | b4 :: d4 =>
                              if is_continuation b4
                              then (N.lor (N.shiftl (N.land b1 0x07) 18)
                                      (N.lor (N.shiftl (N.land b2 0x3F) 12)
                                         (N.lor (N.shiftl (N.land b3 0x3F) 6)
                                                (N.land b4 0x3F))))
                                     :: utf8_decode_ignore d4
                              else utf8_decode_ignore d3
                          end
                 end
        end
      else utf8_decode_ignore d1
  end.

(** [\d] in a pattern over [str]: a Unicode decimal digit. *)
Definition is_digit `{!UnicodeData} (c : N) : bool :=
  match to_decimal c with
  | Some _ => true
  | None => false
  end.

(** The default pattern, [([-+]?\d+(?:\.\d+)?)], matched at the head of
    [s]: the text of the match. The quantifiers are greedy, and giving back
    what they took never turns a failure into a match here. *)
Definition match_number `{!UnicodeData} (s : pystr) : option pystr :=
  let '(sign, t) :=
    match s with
    | c :: t' =>
        if (c =? ch "-")%N || (c =? ch "+")%N then ([c], t') else ([], s)
    | [] => ([], s)
    end in
  match take_while is_digit t with
  | [] => None
  | ds =>
      let frac :=
        match drop_while is_digit t with
        | c :: t' =>
            if (c =? ch ".")%N then
              match take_while is_digit t' with
              | [] => []
              | fs => c :: fs
              end
            else []
        | [] => []
        end in
      Some (sign ++ ds ++ frac)
  end.

(** [pattern.search(text)] for the default pattern: the leftmost match. *)
Fixpoint search_number `{!UnicodeData} (text : pystr) : option pystr :=
  match match_number text with
  | Some m => Some m
  | None =>
      match text with
      | [] => None
      | _ :: text' => search_number text'
      end
  end.

(** What the loop sees of [pattern.search(text)]: no match, or a match
    object, of which it only reads [m.group(1)] ([IndexError] for a
    pattern without a group, [None] for a group outside the match). *)
Inductive search_result :=
  | NoMatch
  | Match (group1 : result (option pystr)).

Definition pattern := pystr → search_result.

Definition default_regex : pystr := lit "([-+]?\d+(?:\.\d+)?)".

Definition default_pattern `{!UnicodeData} : pattern := λ text,
  match search_number text with
  | Some m => Match (Ok (Some m))
  | None => NoMatch
  end.

(** ** Effects

    A computation runs in a world: the state of the serial device it talks
    to, the mutable objects of the program, and the trace of what it has
    done so far. An exception leaves the world as it was when raised. *)

Inductive register_kind := Holding | Input.

(** What the loops look at in the object a register read returns. A field
    the object does not have is [None]. *)
Record response := Response {
  resp_isError : option bool;
  resp_registers : option (list Z);
}.

Inductive message :=
  | Line (text : pystr)
  | ModbusErrorLine (r : response)
  | WeightReadingErrorLine (e : exn).

(** The calls handed to the GUI thread with [root.after(0, ...)]. *)
Inductive callback :=
  | UpdateWeightDisplay (weight : float)
  | ConfigWeightDisplay (display unit : pystr)
  | ConfigWeightStatus (text colour : pystr).

Inductive event :=
  | EvRead (kind : register_kind) (address count unit : Z)
  | EvReadline
  | EvPrint (msg : message)
  | EvSleep (secs : float)
  | EvAfter (cb : callback).

Record world (D L : Type) := World {
  device : D;
  locals : L;
  trace : list event;
}.
Arguments World {D L} device locals trace.
Arguments device {D L} w.
Arguments locals {D L} w.
Arguments trace {D L} w.

Definition io (W A : Type) : Type := W → result A * W.

Global Instance io_ret {W} : MRet (io W) := λ A a w, (Ok a, w).
Global Instance io_bind {W} : MBind (io W) := λ A B f m w,
  match m w with
  | (Ok a, w') => f a w'
  | (Raise e, w') => (Raise e, w')
  end.

Definition raise {W A} (e : exn) : io W A := λ w, (Raise e, w).

Definition lift {W A} (r : result A) : io W A := λ w, (r, w).

(** [try: m / except Exception as e: h e] *)
Definition try_except {W A} (m : io W A) (h : exn → io W A) : io W A := λ w,
  match m w with
  | (Ok a, w') => (Ok a, w')
  | (Raise e, w') => h e w'
  end.

Definition emit {D L} (ev : event) : io (world D L) unit := λ w,
  (Ok tt, World (device w) (locals w) (trace w ++ [ev])).

Definition get_locals {D L} : io (world D L) L := λ w, (Ok (locals w), w).

Definition set_locals {D L} (l : L) : io (world D L) unit := λ w,
  (Ok tt, World (device w) l (trace w)).

(** A call into the device driver: it answers or raises, and moves the
    device to a new state either way. *)
Definition call {D L A} (ev : event) (f : D → result A * D) : io (world D L) A :=
  λ w, let '(r, d) := f (device w) in
       (r, World d (locals w) (trace w ++ [ev])).

(** [for x in xs: body] *)
Fixpoint io_for {W X : Type} (xs : list X) (body : X → io W unit) : io W unit :=
  match xs with
  | [] => mret tt
  | x :: xs' => _ ← body x; io_for xs' body
  end.

(** [os.getenv(name, default)] *)
Definition environ := gmap string pystr.

Definition getenv (env : environ) (name : string) (default_value : pystr) : pystr :=
  default default_value (env !! name).

(** [result.isError()] and [result.registers] *)
Definition isError (r : response) : result bool :=
  match resp_isError r with
  | Some b => Ok b
  | None => Raise AttributeError
  end.

Definition registers_of (r : response) : result (list Z) :=
  match resp_registers r with
  | Some regs => Ok regs
  | None => Raise AttributeError
  end.

(** ** modbus_probe.py: the register decoder *)

Definition decode_u16_list (registers : list Z) : list Z :=
  (λ r, Z.land r 0xFFFF) <$> registers.

Definition decode_s16_list (registers : list Z) : list Z :=
  foldl (λ values r,
           let v := Z.land r 0xFFFF in
           let v := if Z.land v 0x8000 =? 0 then v else v - 0x10000 in
           values ++ [v])
        [] registers.

(** The tuple [(registers[i], registers[i + 1]) if big_endian else
    (registers[i + 1], registers[i])], elements evaluated left to right. *)
Definition hi_lo (registers : list Z) (big_endian : bool) (i : Z)
    : result (Z * Z) :=
  if big_endian then
    a ← py_getitem registers i; b ← py_getitem registers (i + 1); Ok (a, b)
  else
    a ← py_getitem registers (i + 1); b ← py_getitem registers i; Ok (a, b).

Definition decode_u32_pairs (registers : list Z) (big_endian : bool)
    : result (list Z) :=
  py_for (py_range 0 (Z.of_nat (length registers) - 1) 2)
    (λ i values,
       '(hi, lo) ← hi_lo registers big_endian i;
       Ok (values ++ [Z.lor (Z.shiftl (Z.land hi 0xFFFF) 16) (Z.land lo 0xFFFF)]))
    [].

Definition decode_s32_pairs (registers : list Z) (big_endian : bool)
    : result (list Z) :=
  py_for (py_range 0 (Z.of_nat (length registers) - 1) 2)
    (λ i values,
       '(hi, lo) ← hi_lo registers big_endian i;
       let u := Z.lor (Z.shiftl (Z.land hi 0xFFFF) 16) (Z.land lo 0xFFFF) in
       let u := if Z.land u 0x80000000 =? 0 then u else u - 0x100000000 in
       Ok (values ++ [u]))
    [].

(** [bool(l)] for a list. *)
Definition py_list_bool {A : Type} (l : list A) : bool :=
  match l with
  | [] => false
  | _ :: _ => true
  end.

Definition pretty_candidates (registers : list Z) : result pystr :=
  let u16 := decode_u16_list registers in
  let s16 := decode_s16_list registers in
  u32_be ← decode_u32_pairs registers true;
  u32_le ← decode_u32_pairs registers false;
  s32_be ← decode_s32_pairs registers true;
  s32_le ← decode_s32_pairs registers false;
  let parts := [] in
  let parts := parts ++ [lit "u16=" ++ py_repr_list (take 6 u16)] in
  let parts := parts ++ [lit "s16=" ++ py_repr_list (take 6 s16)] in
  let parts := if py_list_bool u32_be
               then parts ++ [lit "u32_BE=" ++ py_repr_list (take 3 u32_be)]
               else parts in
  let parts := if py_list_bool u32_le
               then parts ++ [lit "u32_LE=" ++ py_repr_list (take 3 u32_le)]
               else parts in
  let parts := if py_list_bool s32_be
               then parts ++ [lit "s32_BE=" ++ py_repr_list (take 3 s32_be)]
               else parts in
  let parts := if py_list_bool s32_le
               then parts ++ [lit "s32_LE=" ++ py_repr_list (take 3 s32_le)]
               else parts in
  Ok (py_join (lit " | ") parts).

(** ** modbus_probe.py: the sweep *)

(** One entry of [results]: [(unit, address, count, resp.registers)]. *)
Definition probe_result : Type := Z * Z * Z * list Z.

Section Probe.
(** The Modbus client is a device of unknown behaviour: each read takes
    [address], [count] and [unit], returns a response object or raises,
    and may change the state of the link. [time.sleep] rejects some
    arguments; which ones is the runtime's business. *)
Context {Client : Type}.
Context (read_holding_registers read_input_registers :
           Z → Z → Z → Client → result response * Client).
Context (sleep_error : float → option exn).

(** [time.sleep(secs)] *)
Definition time_sleep {L} (secs : float) : io (world Client L) unit :=
  match sleep_error secs with
  | Some e => raise e
  | None => emit (EvSleep secs)
  end.

Definition read_registers {L} (kind : register_kind) (address count unit : Z)
    : io (world Client L) response :=
  call (EvRead kind address count unit)
       (match kind with
        | Holding => read_holding_registers address count unit
        | Input => read_input_registers address count unit
        end).

Definition ok_line (unit address count : Z) (registers : list Z)
    (candidates : pystr) : pystr :=
  lit "OK unit=" ++ py_str_int unit ++ lit " addr=" ++ py_str_int address
  ++ lit " count=" ++ py_str_int count ++ lit " -> "
  ++ py_repr_list (take 6 registers) ++ lit " | " ++ candidates.

(** The body of the innermost loop of [probe]: one read inside its
    [try], then the sleep. *)
Definition probe_attempt (kind : pystr) (delay : float) (unit address count : Z)
    : io (world Client (list probe_result)) () :=
  _ ← try_except
        (resp ← (if bool_decide (kind = lit "holding")
                 then read_registers Holding address count unit
                 else read_registers Input address count unit);
         match resp_isError resp, resp_registers resp with
         | Some false, Some (r :: rs) =>
             let registers := r :: rs in
             results ← get_locals;
             _ ← set_locals (results ++ [(unit, address, count, registers)]);
             candidates ← lift (pretty_candidates registers);
             emit (EvPrint (Line (ok_line unit address count registers candidates)))
         | _, _ => mret tt
         end)
        (λ e, match e with
              | ModbusException => mret tt
              | _ => mret tt
              end);
  time_sleep delay.

Definition probe (units : list Z) (address_start address_end : Z)
    (counts : list Z) (delay : float) (kind : pystr)
    : io (world Client (list probe_result)) (list probe_result) :=
  _ ← set_locals [];
  _ ← io_for units (λ unit,
        io_for (py_range address_start (address_end + 1) 1) (λ address,
          io_for counts (λ count,
            probe_attempt kind delay unit address count)));
  get_locals.
End Probe.

(** ** modbus_probe.py: the command line *)

(** [sorted(set(units))] *)
Definition sorted_set (units : list Z) : list Z :=
  merge_sort Z.le (elements (list_to_set units : gset Z)).

Definition parse_units `{!UnicodeData} (units_str : pystr) : result (list Z) :=
  units ← py_for (py_split (ch ",") units_str)
            (λ part units,
               let part := py_strip part in
               if py_contains (ch "-") part then
                 '(lo, hi) ← unpack2 (py_split1 (ch "-") part);
                 lo ← py_int lo;
                 hi ← py_int hi;
                 Ok (units ++ py_range lo (hi + 1) 1)
               else
                 n ← py_int part;
                 Ok (units ++ [n]))
            [];
  Ok (sorted_set units).

Definition parse_range `{!UnicodeData} (rng : pystr) : result (Z * Z) :=
  '(lo_s, hi_s) ← unpack2 (py_split1 (ch "-") rng);
  lo ← py_int lo_s;
  hi ← py_int hi_s;
  Ok (lo, hi).

Definition parse_counts `{!UnicodeData} (counts_str : pystr) : result (list Z) :=
  py_for (py_split (ch ",") counts_str)
    (λ c counts,
       if py_list_bool (py_strip c) then
         n ← py_int (py_strip c);
         Ok (counts ++ [n])
       else Ok counts)
    [].

(** ** camera_viewer.py: the Modbus polling loop *)

(** [f"{weight:.2f}"] *)
Definition format_2f (x : float) : pystr :=
  match py_format_fixed x 2 with
  | Ok s => s
  | Raise _ => []
  end.

(** [update_weight_display]: the new [weight_value] and the text put on
    the weight label. *)
Definition update_weight_display (weight_unit : pystr) (weight : float)
    : pystr * pystr :=
  let weight_value := format_2f weight in
  (weight_value, lit "Weight: " ++ weight_value ++ lit " " ++ weight_unit).

Section ModbusLoop.
Context `{!UnicodeData}.
Context {Client : Type}.
Context (read_holding_registers read_input_registers :
           Z → Z → Z → Client → result response * Client).

(** One pass through the body of the [while] loop of [read_weight_loop]. *)
Definition read_weight_pass (env : environ) : io (world Client unit) unit :=
  try_except
    (address ← lift (py_int (py_strip (getenv env "WEIGHBRIDGE_ADDRESS" (lit "0"))));
     count ← lift (py_int (py_strip (getenv env "WEIGHBRIDGE_COUNT" (lit "2"))));
     unit ← lift (py_int (py_strip (getenv env "WEIGHBRIDGE_SLAVE_ID" (lit "1"))));
     let kind := py_lower (py_strip (getenv env "WEIGHBRIDGE_KIND" (lit "holding"))) in
     result ← (if bool_decide (kind = lit "input")
               then read_registers read_holding_registers read_input_registers
                      Input address count unit
               else read_registers read_holding_registers read_input_registers
                      Holding address count unit);
     is_error ← lift (isError result);
     if (is_error : bool) then
       _ ← emit (EvPrint (ModbusErrorLine result));
       emit (EvSleep float_one)
     else
       registers ← lift (registers_of result);
       raw ← (if 0 <? Z.of_nat (length registers)
              then lift (py_getitem registers 0)
              else mret 0);
       divisor ← lift (py_float (py_strip
                         (getenv env "WEIGHBRIDGE_SCALE_DIVISOR" (lit "1"))));
       x ← lift (float_of_int raw);
       weight_value ← lift (float_truediv x
                              (if negb (float_eqb divisor float_zero)
                               then divisor else float_one));
       _ ← emit (EvAfter (UpdateWeightDisplay weight_value));
       emit (EvSleep float_half))
    (λ e,
       _ ← emit (EvPrint (WeightReadingErrorLine e));
       emit (EvSleep float_one)).

(** [read_weight_loop], for a connection that is found up [cycles] times
    at the top of the loop. *)
Fixpoint read_weight_loop (cycles : nat) (env : environ)
    : io (world Client unit) unit :=
  match cycles with
  | O => emit (EvAfter (ConfigWeightStatus (lit "Status: Disconnected") (lit "red")))
  | S cycles' => _ ← read_weight_pass env; read_weight_loop cycles' env
  end.
End ModbusLoop.

(** ** camera_viewer.py: the ASCII line loop *)

(** The variables [read_weight_ascii_loop] sets before its loop. *)
Record ascii_config := AsciiConfig {
  cfg_pattern : pattern;
  cfg_unit : pystr;
  cfg_decimals_env : pystr;
  cfg_divisor : float;
}.

Definition float_fifth : float := Eval cbv in float_of_decimal false 2 (-1).

Section AsciiLoop.
Context `{!UnicodeData}.
Context {Serial : Type}.
Context (readline : Serial → result bytes * Serial).
(** [re.compile] on a pattern other than the default one. *)
Context (re_compile_custom : pystr → result pattern).

Definition re_compile (line_regex : pystr) : result pattern :=
  if bool_decide (line_regex = default_regex) then Ok default_pattern
  else re_compile_custom line_regex.

(** The statements before the loop; [weight_unit] is [self.weight_unit]. *)
Definition read_weight_ascii_setup (env : environ) (weight_unit : pystr)
    : result ascii_config :=
  let line_regex := getenv env "WEIGHBRIDGE_REGEX" default_regex in
  let unit := getenv env "WEIGHBRIDGE_UNIT" weight_unit in
  let decimals_env :=
    py_lower (py_strip (getenv env "WEIGHBRIDGE_DECIMALS" (lit "auto"))) in
  divisor ← py_float (py_strip (getenv env "WEIGHBRIDGE_SCALE_DIVISOR" (lit "1")));
  pattern ← re_compile line_regex;
  Ok (AsciiConfig pattern unit decimals_env divisor).

(** [float(value_str)], [value_str] being what [m.group(1)] returned. *)
Definition float_of_group (value_str : option pystr) : result float :=
  match value_str with
  | Some s => py_float s
  | None => Raise TypeError
  end.

(** The text shown for [value]: the block from [if decimals_env ==
    "auto"] on. *)
Definition display_of (decimals_env : pystr) (value : float) : pystr :=
  if bool_decide (decimals_env = lit "auto") then format_2f value
  else match (decimals ← py_int decimals_env; py_format_fixed value decimals) with
       | Ok display => display
       | Raise _ => format_2f value
       end.

(** One pass through the body of the [while] loop of
    [read_weight_ascii_loop]. *)
Definition read_weight_ascii_pass (cfg : ascii_config)
    : io (world Serial unit) unit :=
  try_except
    (data ← call EvReadline readline;
     if negb (py_list_bool data) then mret tt
     else
       let text := py_strip (utf8_decode_ignore data) in
       match cfg_pattern cfg text with
       | NoMatch => mret tt
       | Match group1 =>
           value_str ← lift group1;
           match float_of_group value_str with
           | Raise ValueError => mret tt
           | Raise e => raise e
           | Ok value =>
               value ← (if float_bool (cfg_divisor cfg)
                           && negb (float_eqb (cfg_divisor cfg) float_one)
                        then lift (float_truediv value (cfg_divisor cfg))
                        else mret value);
               let display := display_of (cfg_decimals_env cfg) value in
               emit (EvAfter (ConfigWeightDisplay display (cfg_unit cfg)))
           end
       end)
    (λ e, emit (EvSleep float_fifth)).

Fixpoint read_weight_ascii_passes (cycles : nat) (cfg : ascii_config)
    : io (world Serial unit) unit :=
  match cycles with
  | O => emit (EvAfter (ConfigWeightStatus (lit "Status: Disconnected") (lit "red")))
  | S cycles' => _ ← read_weight_ascii_pass cfg; read_weight_ascii_passes cycles' cfg
  end.

(** [read_weight_ascii_loop], for a connection that is found up [cycles]
    times at the top of the loop. *)
Definition read_weight_ascii_loop (cycles : nat) (env : environ)
    (weight_unit : pystr) : io (world Serial unit) unit :=
  cfg ← lift (read_weight_ascii_setup env weight_unit);
  read_weight_ascii_passes cycles cfg.
End AsciiLoop.

(** ** camera_viewer.py: the size of the video panes *)

(** [get_display_size], for a window of the given width and height. *)
Definition get_display_size (window_width window_height : Z) : Z * Z :=
  let available_height := Z.max 400 (window_height - 140) in
  let available_width := Z.max 600 (window_width - 40) in
  let camera_width := available_width `div` 2 - 20 in
  let camera_height := available_height - 40 in
  (camera_width, camera_height).

(** ** camera_viewer.py: connecting and disconnecting the weighbridge *)

(** [int(x)] for a [float]: the integral part. *)
Definition int_of_float (x : float) : result Z :=
  match x with
  | S754_nan => Raise ValueError
  | S754_infinity _ => Raise OverflowError
  | S754_zero _ => Ok 0
  | S754_finite s m e =>
      let n := if 0 <=? e then Z.pos m * 2 ^ e else Z.pos m `div` 2 ^ (- e) in
      Ok (if s then - n else n)
  end.

Definition float_three_halves : float := Eval cbv in float_of_decimal false 15 (-1).
Definition float_two : float := Eval cbv in binary_normalize prec emax 2 0 false.

(** The constants of the [serial] module the code names. *)
Inductive parity_const := PARITY_NONE | PARITY_EVEN | PARITY_ODD.
Inductive bytesize_const := SEVENBITS | EIGHTBITS.
Inductive stopbits_const := STOPBITS_ONE | STOPBITS_ONE_POINT_FIVE | STOPBITS_TWO.

(** The keyword arguments of [serial.Serial(...)] and of
    [ModbusSerialClient(method='rtu', ...)]. *)
Record serial_settings := SerialSettings {
  ser_port : pystr;
  ser_baudrate : Z;
  ser_bytesize : bytesize_const;
  ser_parity : parity_const;
  ser_stopbits : stopbits_const;
  ser_timeout : float;
}.

Record modbus_settings := ModbusSettings {
  mb_port : pystr;
  mb_baudrate : Z;
  mb_timeout : float;
  mb_parity : pystr;
  mb_stopbits : Z;
  mb_bytesize : Z;
}.

Inductive handle := ModbusHandle | SerialHandle.
Inductive loop_target := ReadWeightLoop | ReadWeightAsciiLoop.

(** What [connect_weighbridge] and [disconnect_weighbridge] call, in
    order. An error dialog shows a text, or a prefix followed by the text
    of an exception. *)
Inductive ui_event :=
  | UiClose (h : handle)
  | UiStatus (text colour : pystr)
  | UiDisplay (text : pystr)
  | UiShowError (title text : pystr)
  | UiShowErrorOf (title prefix : pystr) (e : exn)
  | UiRootUpdate
  | UiSerial (settings : serial_settings)
  | UiModbusSerialClient (settings : modbus_settings)
  | UiConnect
  | UiThreadStart (target : loop_target).

(** The fields of the viewer the two methods use, and the calls made so
    far. *)
Record viewer (Client Serial : Type) := Viewer {
  modbus_client : option Client;
  serial_conn : option Serial;
  weighbridge_protocol : pystr;
  is_weight_connected : bool;
  ui : list ui_event;
}.
Arguments Viewer {Client Serial} _ _ _ _ _.
Arguments modbus_client {Client Serial} v.
Arguments serial_conn {Client Serial} v.
Arguments weighbridge_protocol {Client Serial} v.
Arguments is_weight_connected {Client Serial} v.
Arguments ui {Client Serial} v.

(** The fields as [__init__] leaves them. *)
Definition init_weighbridge `{!UnicodeData} {Client Serial : Type} (env : environ)
    : viewer Client Serial :=
  Viewer None None
      (py_lower (py_strip (getenv env "WEIGHBRIDGE_PROTOCOL" (lit "modbus"))))
      false [].

Section Lifecycle.
Context `{!UnicodeData}.
Context {Client Serial : Type}.
(** The truth value of a client and of a port object, what their [close]
    raises, what the two constructors return, and the truth value of what
    [connect()] returns: the libraries' business. Reading the text fields,
    setting the labels, showing a dialog and starting a thread are taken
    not to raise, and [root.update()] to run no handler that touches the
    fields. *)
Context (client_bool : Client → bool) (serial_bool : Serial → bool).
Context (client_close : Client → option exn) (serial_close : Serial → option exn).
Context (serial_Serial : serial_settings → result Serial).
Context (ModbusSerialClient : modbus_settings → result Client).
Context (client_connect : Client → result bool).
(** [s.upper()] for a string that is not pure ASCII. *)
Context (upper_non_ascii : pystr → pystr).

Definition py_upper (s : pystr) : pystr :=
  if forallb is_ascii s
  then (λ c, if between 97 122 c then (c - 32)%N else c) <$> s
  else upper_non_ascii s.

Definition ui_emit (ev : ui_event) : io (viewer Client Serial) () := λ a,
  (Ok tt, Viewer (modbus_client a) (serial_conn a) (weighbridge_protocol a)
              (is_weight_connected a) (ui a ++ [ev])).

Definition get_viewer : io (viewer Client Serial) (viewer Client Serial) := λ a, (Ok a, a).

Definition set_modbus_client (c : option Client) : io (viewer Client Serial) () := λ a,
  (Ok tt, Viewer c (serial_conn a) (weighbridge_protocol a) (is_weight_connected a)
              (ui a)).

Definition set_serial_conn (s : option Serial) : io (viewer Client Serial) () := λ a,
  (Ok tt, Viewer (modbus_client a) s (weighbridge_protocol a) (is_weight_connected a)
              (ui a)).

Definition set_is_weight_connected (b : bool) : io (viewer Client Serial) () := λ a,
  (Ok tt, Viewer (modbus_client a) (serial_conn a) (weighbridge_protocol a) b (ui a)).

(** [obj.close()] *)
Definition close_call (h : handle) (err : option exn) : io (viewer Client Serial) () :=
  _ ← ui_emit (UiClose h);
  match err with
  | Some e => raise e
  | None => mret tt
  end.

(** The two [if] statements that close what is open; both methods have
    them. *)
Definition close_connections : io (viewer Client Serial) () :=
  a ← get_viewer;
  _ ← match modbus_client a with
      | Some c =>
          if client_bool c then
            _ ← close_call ModbusHandle (client_close c);
            set_modbus_client None
          else mret tt
      | None => mret tt
      end;
  match serial_conn a with
  | Some s =>
      if serial_bool s then
        _ ← try_except (close_call SerialHandle (serial_close s)) (λ _, mret tt);
        set_serial_conn None
      else mret tt
  | None => mret tt
  end.

Definition parity_map_get (parity : pystr) : parity_const :=
  if bool_decide (parity = lit "N") then PARITY_NONE
  else if bool_decide (parity = lit "E") then PARITY_EVEN
  else if bool_decide (parity = lit "O") then PARITY_ODD
  else PARITY_EVEN.

Definition bytesize_map_get (bytesize : Z) : bytesize_const :=
  if bytesize =? 7 then SEVENBITS
  else if bytesize =? 8 then EIGHTBITS
  else SEVENBITS.

Definition stopbits_map_get (stopbits : float) : stopbits_const :=
  if float_eqb stopbits float_one then STOPBITS_ONE
  else if float_eqb stopbits float_three_halves then STOPBITS_ONE_POINT_FIVE
  else if float_eqb stopbits float_two then STOPBITS_TWO
  else STOPBITS_ONE.

(** [connect_weighbridge]; [weight_port] and [weight_baudrate] are the
    texts of the two entry fields. *)
Definition connect_weighbridge (env : environ) (weight_port weight_baudrate : pystr)
    : io (viewer Client Serial) () :=
  try_except
    (_ ← close_connections;
     let port := py_strip weight_port in
     baudrate ← lift (py_int (py_strip weight_baudrate));
     if negb (py_list_bool port) then
       ui_emit (UiShowError (lit "Error") (lit "Please enter weighbridge port"))
     else
       _ ← ui_emit (UiStatus (lit "Status: Connecting...") (lit "orange"));
       _ ← ui_emit UiRootUpdate;
       a ← get_viewer;
       if bool_decide (weighbridge_protocol a = lit "ascii") then
         let parity := py_upper (py_strip (getenv env "WEIGHBRIDGE_PARITY" (lit "E"))) in
         bytesize ← lift (py_int (py_strip (getenv env "WEIGHBRIDGE_BYTESIZE" (lit "7"))));
         stopbits ← lift (py_float (py_strip (getenv env "WEIGHBRIDGE_STOPBITS" (lit "1"))));
         timeout ← lift (py_float (py_strip (getenv env "WEIGHBRIDGE_TIMEOUT" (lit "0.5"))));
         let settings :=
           SerialSettings port baudrate (bytesize_map_get bytesize)
             (parity_map_get parity) (stopbits_map_get stopbits) timeout in
         _ ← ui_emit (UiSerial settings);
         conn ← lift (serial_Serial settings);
         _ ← set_serial_conn (Some conn);
         _ ← set_is_weight_connected true;
         _ ← ui_emit (UiStatus (lit "Status: Connected (ASCII)") (lit "green"));
         ui_emit (UiThreadStart ReadWeightAsciiLoop)
       else
         let parity := py_upper (py_strip (getenv env "WEIGHBRIDGE_PARITY" (lit "N"))) in
         bytesize ← lift (py_int (py_strip (getenv env "WEIGHBRIDGE_BYTESIZE" (lit "8"))));
         stopbits ← lift (x ← py_float (py_strip (getenv env "WEIGHBRIDGE_STOPBITS" (lit "1")));
                          int_of_float x);
         timeout ← lift (py_float (py_strip (getenv env "WEIGHBRIDGE_TIMEOUT" (lit "1"))));
         let settings :=
           ModbusSettings port baudrate timeout parity stopbits bytesize in
         _ ← ui_emit (UiModbusSerialClient settings);
         client ← lift (ModbusSerialClient settings);
         _ ← set_modbus_client (Some client);
         _ ← ui_emit UiConnect;
         connected ← lift (client_connect client);
         if (connected : bool) then
           _ ← set_is_weight_connected true;
           _ ← ui_emit (UiStatus (lit "Status: Connected (Modbus)") (lit "green"));
           ui_emit (UiThreadStart ReadWeightLoop)
         else
           _ ← ui_emit (UiStatus (lit "Status: Connection Failed") (lit "red"));
           ui_emit (UiShowError (lit "Error")
                      (lit "Failed to connect to weighbridge on " ++ port)))
    (λ e,
       _ ← ui_emit (UiStatus (lit "Status: Error") (lit "red"));
       ui_emit (UiShowErrorOf (lit "Error") (lit "Failed to connect to weighbridge: ") e)).

Definition disconnect_weighbridge : io (viewer Client Serial) () :=
  _ ← set_is_weight_connected false;
  _ ← close_connections;
  _ ← ui_emit (UiStatus (lit "Status: Disconnected") (lit "red"));
  ui_emit (UiDisplay (lit "Weight: 0.00 kg")).
End Lifecycle.


(** * Definitions used in the statements *)

(** ** The decoder, by structural recursion *)

(** [(hi << 16) | lo], both halves masked to 16 bits. *)
Definition word32 (hi lo : Z) : Z :=
  Z.lor (Z.shiftl (Z.land hi 0xFFFF) 16) (Z.land lo 0xFFFF).

(** A 32-bit unsigned value read as two's complement. *)
Definition to_signed32 (u : Z) : Z :=
  if Z.land u 0x80000000 =? 0 then u else u - 0x100000000.

(** [f] applied to each pair of consecutive elements, a last element
    without partner dropped. *)
Fixpoint pairs (f : Z → Z → Z) (l : list Z) : list Z :=
  match l with
  | a :: b :: t => f a b :: pairs f t
  | _ => []
  end.

(** Which register of a pair is the high half. *)
Definition ordered (big_endian : bool) (f : Z → Z → Z) (a b : Z) : Z :=
  if big_endian then f a b else f b a.

(** ** Traces of a sweep *)

(** The triples of a sweep in the order of the three nested loops. *)
Definition sweep_triples (units : list Z) (lo hi : Z) (counts : list Z)
    : list (Z * Z * Z) :=
  unit ← units; address ← seqZ lo (hi - lo + 1); count ← counts;
  [(unit, address, count)].

(** The read attempts of a trace, as [(unit, address, count)]. *)
Definition attempts (tr : list event) : list (Z * Z * Z) :=
  ev ← tr;
  match ev with
  | EvRead _ address count unit => [(unit, address, count)]
  | _ => []
  end.

(** A trace without what was printed. *)
Definition without_prints (tr : list event) : list event :=
  ev ← tr;
  match ev with
  | EvPrint _ => []
  | _ => [ev]
  end.

(** The read function [probe] selects for a [kind] string. *)
Definition kind_of (kind : pystr) : register_kind :=
  if bool_decide (kind = lit "holding") then Holding else Input.

Definition read_with {Client : Type}
    (read_holding_registers read_input_registers :
       Z → Z → Z → Client → result response * Client)
    (kind : register_kind) : Z → Z → Z → Client → result response * Client :=
  match kind with
  | Holding => read_holding_registers
  | Input => read_input_registers
  end.

(** The outcome of a read that [probe] records: a response that is not an
    error and carries at least one register. *)
Definition usable (r : result response) : bool :=
  match r with
  | Ok (Response (Some false) (Some (_ :: _))) => true
  | _ => false
  end.

(** ** Unit specifications *)

(** An item of a unit specification: a decimal literal, or two of them
    around a hyphen. *)
Inductive unit_item :=
  | UnitLiteral (digits : pystr)
  | UnitRange (lo hi : pystr).

(** A decimal literal that [int()] converts: ASCII digits, at least one and
    at most [int_max_str_digits]. *)
Definition is_decimal_literal (ds : pystr) : bool :=
  py_list_bool ds && forallb is_ascii_digit ds
  && (Z.of_nat (length ds) <=? int_max_str_digits).

Definition item_ok (it : unit_item) : bool :=
  match it with
  | UnitLiteral ds => is_decimal_literal ds
  | UnitRange lo hi => is_decimal_literal lo && is_decimal_literal hi
  end.

Definition item_text (it : unit_item) : pystr :=
  match it with
  | UnitLiteral ds => ds
  | UnitRange lo hi => lo ++ lit "-" ++ hi
  end.

(** The items separated by commas. *)
Definition unit_spec (items : list unit_item) : pystr :=
  py_join (lit ",") (item_text <$> items).

(** The number a string of decimal digits denotes. *)
Definition decimal_value (ds : pystr) : Z :=
  foldl (λ acc c, 10 * acc + (Z.of_N c - 48)) 0 ds.

(** The units an item stands for: the literal, or every unit from [lo] to
    [hi]. *)
Definition item_mentions (it : unit_item) (u : Z) : Prop :=
  match it with
  | UnitLiteral ds => u = decimal_value ds
  | UnitRange lo hi => decimal_value lo ≤ u ≤ decimal_value hi
  end.

Definition item_units (it : unit_item) : list Z :=
  match it with
  | UnitLiteral ds => [decimal_value ds]
  | UnitRange lo hi =>
      seqZ (decimal_value lo) (decimal_value hi - decimal_value lo + 1)
  end.

(** ** The configuration of the polling loop *)

(** The request [read_weight_loop] builds from the environment: the first
    four statements of its [try] block. *)
Definition configured_read `{!UnicodeData} (env : environ)
    : result (register_kind * Z * Z * Z) :=
  address ← py_int (py_strip (getenv env "WEIGHBRIDGE_ADDRESS" (lit "0")));
  count ← py_int (py_strip (getenv env "WEIGHBRIDGE_COUNT" (lit "2")));
  unit ← py_int (py_strip (getenv env "WEIGHBRIDGE_SLAVE_ID" (lit "1")));
  let kind := py_lower (py_strip (getenv env "WEIGHBRIDGE_KIND" (lit "holding"))) in
  Ok (if bool_decide (kind = lit "input") then Input else Holding,
      address, count, unit).

Definition configured_divisor `{!UnicodeData} (env : environ) : result float :=
  py_float (py_strip (getenv env "WEIGHBRIDGE_SCALE_DIVISOR" (lit "1"))).

(** A divisor of 0 counts as 1. *)
Definition effective_divisor (divisor : float) : float :=
  if float_eqb divisor float_zero then float_one else divisor.

(** ** Devices and settings for the examples *)

(** A Unicode database in which no character outside ASCII is a digit. *)
Definition ascii_only : UnicodeData :=
  {| ucd_decimal := λ _, None; ucd_lower := λ s, s |}.

(** A link on which the first read times out and every later one answers;
    the state counts the reads. *)
Definition timeout_first (address count unit : Z) (reads : nat)
    : result response * nat :=
  (match reads with
   | O => Raise OtherException
   | S _ => Ok (Response (Some false) (Some [address; unit]))
   end, S reads).

(** A [time.sleep] that accepts every argument. *)
Definition sleep_any (secs : float) : option exn := None.

(** A device that answers every read with the same frame. *)
Definition fixed_frame (registers : list Z) (address count unit : Z) (c : ())
    : result response * () :=
  (Ok (Response (Some false) (Some registers)), c).

Definition env_divisor (text : pystr) : environ :=
  {[ "WEIGHBRIDGE_SCALE_DIVISOR"%string := text ]}.

Definition example_line : bytes := lit "ST,+00012.34,kg" ++ [13; 10]%N.

(** A serial port that delivers the queued lines, then times out. *)
Definition queued_lines (queue : list bytes) : result bytes * list bytes :=
  match queue with
  | [] => (Ok [], [])
  | data :: queue' => (Ok data, queue')
  end.

Definition no_custom_pattern (line_regex : pystr) : result pattern :=
  Raise OtherException.

(** ** Results of a sweep *)

(** The lines a trace prints. *)
Definition printed_lines (tr : list event) : list pystr :=
  ev ← tr;
  match ev with
  | EvPrint (Line text) => [text]
  | _ => []
  end.

(** The line [probe] prints for an entry of [results]. *)
Definition result_line (r : probe_result) : result pystr :=
  let '(unit, address, count, registers) := r in
  ok_line unit address count registers <$> pretty_candidates registers.

(** The triple an entry of [results] was read with. *)
Definition result_triple (r : probe_result) : Z * Z * Z :=
  let '(unit, address, count, _) := r in (unit, address, count).

(** What a sweep records for a triple on a link in state [client]. *)
Definition recorded {Client : Type}
    (read : Z → Z → Z → Client → result response * Client)
    (client : Client) (t : Z * Z * Z) : list probe_result :=
  let '(unit, address, count) := t in
  match read address count unit client with
  | (Ok (Response (Some false) (Some (r :: rs))), _) =>
      [(unit, address, count, r :: rs)]
  | _ => []
  end.

(** What a stretch of a sweep over the triples [ts] adds to [results] and
    to the printed lines: entries with a frame that is not empty, read
    with triples of [ts] in their order, and the line of each entry. *)
Definition records {Client : Type} (ts : list (Z * Z * Z))
    (w w' : world Client (list probe_result)) : Prop :=
  ∃ new : list probe_result,
    locals w' = locals w ++ new
    ∧ Ok <$> printed_lines (trace w')
      = (Ok <$> printed_lines (trace w)) ++ (result_line <$> new)
    ∧ Forall (λ r, r.2 ≠ []) new
    ∧ sublist (result_triple <$> new) ts.

(** ** Passes of the two loops *)

(** The status a loop posts when it ends. *)
Definition disconnected : event :=
  EvAfter (ConfigWeightStatus (lit "Status: Disconnected") (lit "red")).

(** What one pass of [read_weight_loop] can add to the trace. *)
Inductive pass_events : list event → Prop :=
  | pass_sample kind address count unit weight :
      pass_events [EvRead kind address count unit;
                   EvAfter (UpdateWeightDisplay weight); EvSleep float_half]
  | pass_error_response kind address count unit resp :
      pass_events [EvRead kind address count unit;
                   EvPrint (ModbusErrorLine resp); EvSleep float_one]
  | pass_exception kind address count unit e :
      pass_events [EvRead kind address count unit;
                   EvPrint (WeightReadingErrorLine e); EvSleep float_one]
  | pass_settings e :
      pass_events [EvPrint (WeightReadingErrorLine e); EvSleep float_one].

(** What one pass of [read_weight_ascii_loop] can add to the trace. *)
Inductive ascii_pass_events (unit : pystr) : list event → Prop :=
  | ascii_pass_skip : ascii_pass_events unit [EvReadline]
  | ascii_pass_display display :
      ascii_pass_events unit
        [EvReadline; EvAfter (ConfigWeightDisplay display unit)]
  | ascii_pass_exception :
      ascii_pass_events unit [EvReadline; EvSleep float_fifth].

(** ** Connections *)

(** The calls that start a reader thread. *)
Definition thread_starts (evs : list ui_event) : list loop_target :=
  ev ← evs;
  match ev with
  | UiThreadStart target => [target]
  | _ => []
  end.

(** The [close()] call made for a field that holds an object. *)
Definition close_of {A : Type} (h : handle) (field : option A) : list ui_event :=
  match field with
  | Some _ => [UiClose h]
  | None => []
  end.

(** The settings [connect_weighbridge] hands to [ModbusSerialClient]: the
    statements of its Modbus branch up to the constructor. *)
Definition modbus_configured `{!UnicodeData} (upper_non_ascii : pystr → pystr)
    (env : environ) (weight_port weight_baudrate : pystr) : result modbus_settings :=
  baudrate ← py_int (py_strip weight_baudrate);
  let parity :=
    py_upper upper_non_ascii (py_strip (getenv env "WEIGHBRIDGE_PARITY" (lit "N"))) in
  bytesize ← py_int (py_strip (getenv env "WEIGHBRIDGE_BYTESIZE" (lit "8")));
  stopbits ← (x ← py_float (py_strip (getenv env "WEIGHBRIDGE_STOPBITS" (lit "1")));
              int_of_float x);
  timeout ← py_float (py_strip (getenv env "WEIGHBRIDGE_TIMEOUT" (lit "1")));
  Ok (ModbusSettings (py_strip weight_port) baudrate timeout parity stopbits bytesize).

(** The calls that open a port. *)
Definition opens (evs : list ui_event) : list ui_event :=
  ev ← evs;
  match ev with
  | UiSerial _ | UiModbusSerialClient _ => [ev]
  | _ => []
  end.

(** ** More devices and settings for the examples *)

(** A [time.sleep] that rejects negative numbers and NaN, as the runtime
    does. *)
Definition sleep_nonnegative (secs : float) : option exn :=
  match secs with
  | S754_nan | S754_infinity true | S754_finite true _ _ => Some ValueError
  | _ => None
  end.

(** A device that answers every read with the same response object. *)
Definition fixed_response (resp : response) (address count unit : Z) (c : ())
    : result response * () :=
  (Ok resp, c).

(** A pattern without a group that matches every text. *)
Definition no_group_pattern : pattern := λ _, Match (Raise IndexError).

(** The number 100 as a float. *)
Definition float_hundred : float := Eval cbv in binary_normalize prec emax 100 0 false.

(** Objects that are true; [close()] calls that return and that raise; a
    port that opens, and a client whose [connect()] is refused. *)
Definition always_true {A : Type} (x : A) : bool := true.
Definition closes_quietly {A : Type} (x : A) : option exn := None.
Definition close_fails {A : Type} (x : A) : option exn := Some OtherException.
Definition open_port (settings : serial_settings) : result () := Ok tt.
Definition new_client (settings : modbus_settings) : result () := Ok tt.
Definition connect_refused (c : ()) : result bool := Ok false.
Definition upper_unchanged (s : pystr) : pystr := s.

(** * Properties *)

(** ** The register decoder *)

Lemma py_getitem_lookup {A} (l : list A) (i : nat) (x : A) :
  l !! i = Some x → py_getitem l (Z.of_nat i) = Ok x.
Proof.
  intros Hx. pose proof (lookup_lt_Some _ _ _ Hx) as Hlt.
  unfold py_getitem.
  destruct (Z.ltb_spec (Z.of_nat i) 0) as [?|_]; [lia|].
  destruct (Z.leb_spec 0 (Z.of_nat i)) as [_|?]; [|lia].
  destruct (Z.ltb_spec (Z.of_nat i) (Z.of_nat (length l))) as [_|?]; [|lia].
  simpl. by rewrite Nat2Z.id, Hx.
Qed.

(** The indices the two 32-bit decoders visit: 0, 2, 4, ... below
    [len - 1]. *)
Lemma py_range_pairs (n : nat) :
  py_range 0 (Z.of_nat n - 1) 2
  = (λ k : nat, Z.of_nat (2 * k)) <$> seq 0 (n `div` 2)%nat.
Proof.
  unfold py_range.
  replace (Z.to_nat ((Z.of_nat n - 1 - 0 + 2 - 1) `div` 2)) with (n `div` 2)%nat.
  - apply list_fmap_ext. intros _ k _. lia.
  - replace (Z.of_nat n - 1 - 0 + 2 - 1) with (Z.of_nat n) by lia.
    change 2 with (Z.of_nat 2). rewrite <- Nat2Z.inj_div. by rewrite Nat2Z.id.
Qed.

Lemma hi_lo_at (pre : list Z) (a b : Z) (t : list Z) (be : bool) (j : nat) :
  length pre = (2 * j)%nat →
  hi_lo (pre ++ a :: b :: t) be (Z.of_nat (2 * j))
  = Ok (if be then (a, b) else (b, a)).
Proof.
  intros Hpre.
  assert (Ha : (pre ++ a :: b :: t) !! (2 * j)%nat = Some a).
  { rewrite lookup_app_r by lia.
    by replace (2 * j - length pre)%nat with 0%nat by lia. }
  assert (Hb : (pre ++ a :: b :: t) !! S (2 * j)%nat = Some b).
  { rewrite lookup_app_r by lia.
    by replace (S (2 * j) - length pre)%nat with 1%nat by lia. }
  apply py_getitem_lookup in Ha, Hb.
  replace (Z.of_nat (S (2 * j))) with (Z.of_nat (2 * j) + 1) in Hb by lia.
  unfold hi_lo. destruct be; by rewrite Ha, Hb.
Qed.

(** The loop of the decoders, started at pair [j] with [pre] already
    consumed, appends the pairs of the rest. *)
Lemma pairs_loop (g : Z → Z → Z) (be : bool) (n : nat) :
  ∀ (rest pre acc : list Z) (j : nat),
    (length rest ≤ n)%nat →
    length pre = (2 * j)%nat →
    py_for ((λ k : nat, Z.of_nat (2 * k)) <$> seq j (length rest `div` 2)%nat)
      (λ i values, '(hi, lo) ← hi_lo (pre ++ rest) be i; Ok (values ++ [g hi lo]))
      acc
    = Ok (acc ++ pairs (ordered be g) rest).
Proof.
  induction n as [|n IH]; intros rest pre acc j Hn Hpre.
  - destruct rest; [|simpl in Hn; lia]. simpl. by rewrite app_nil_r.
  - destruct rest as [|a [|b t]]; [simpl; by rewrite app_nil_r..|].
    replace (length (a :: b :: t) `div` 2)%nat with (S (length t `div` 2)).
    2:{ change (length (a :: b :: t)) with (1 * 2 + length t)%nat.
        by rewrite Nat.div_add_l by lia. }
    cbn [seq fmap list_fmap py_for].
    rewrite (hi_lo_at pre a b t be j Hpre). cbn [mbind result_bind].
    replace (pre ++ a :: b :: t) with ((pre ++ [a; b]) ++ t)
      by by rewrite <- app_assoc.
    assert (Hpre' : length (pre ++ [a; b]) = (2 * S j)%nat)
      by (rewrite length_app; simpl; lia).
    assert (Hn' : (length t ≤ n)%nat) by (simpl in Hn; lia).
    unfold ordered.
    destruct be; cbn [mbind result_bind]; rewrite (IH t _ _ (S j) Hn' Hpre');
      simpl; by rewrite <- app_assoc.
Qed.

Lemma decode_u32_pairs_eq (registers : list Z) (be : bool) :
  decode_u32_pairs registers be = Ok (pairs (ordered be word32) registers).
Proof.
  unfold decode_u32_pairs. rewrite py_range_pairs.
  exact (pairs_loop word32 be (length registers) registers [] [] 0%nat
           (le_n _) eq_refl).
Qed.

Lemma decode_s32_pairs_eq (registers : list Z) (be : bool) :
  decode_s32_pairs registers be
  = Ok (pairs (ordered be (λ hi lo, to_signed32 (word32 hi lo))) registers).
Proof.
  unfold decode_s32_pairs. rewrite py_range_pairs.
  exact (pairs_loop (λ hi lo, to_signed32 (word32 hi lo)) be (length registers)
           registers [] [] 0%nat (le_n _) eq_refl).
Qed.

Lemma pairs_length (f : Z → Z → Z) (n : nat) :
  ∀ l : list Z, (length l ≤ n)%nat → length (pairs f l) = (length l `div` 2)%nat.
Proof.
  induction n as [|n IH]; intros l Hn.
  - by destruct l; [|simpl in Hn; lia].
  - destruct l as [|a [|b t]]; [done..|].
    change (length (a :: b :: t)) with (1 * 2 + length t)%nat.
    rewrite Nat.div_add_l by lia. simpl. rewrite IH; [done|simpl in Hn; lia].
Qed.

Lemma pairs_lookup (f : Z → Z → Z) (k : nat) :
  ∀ (l : list Z) (a b : Z),
    l !! (2 * k)%nat = Some a → l !! S (2 * k) = Some b →
    pairs f l !! k = Some (f a b).
Proof.
  induction k as [|k IH]; intros l a b Ha Hb.
  - destruct l as [|x [|y t]]; simpl in *; congruence.
  - destruct l as [|x [|y t]]; [done..|].
    replace (2 * S k)%nat with (S (S (2 * k))) in * by lia.
    simpl in *. by apply IH.
Qed.

Lemma pairs_snoc_even (f : Z → Z → Z) (n : nat) :
  ∀ (l : list Z) (x : Z),
    (length l ≤ n)%nat → Nat.Even (length l) → pairs f (l ++ [x]) = pairs f l.
Proof.
  induction n as [|n IH]; intros l x Hn Hev.
  - by destruct l; [|simpl in Hn; lia].
  - destruct l as [|a [|b t]]; [done| |].
    + destruct Hev as [m Hm]. simpl in Hm. lia.
    + simpl. f_equal. apply IH; [simpl in Hn; lia|].
      destruct Hev as [m Hm]. exists (m - 1)%nat. simpl in Hm. lia.
Qed.

Lemma pairs_fmap (g : Z → Z) (f : Z → Z → Z) (n : nat) :
  ∀ l : list Z, (length l ≤ n)%nat →
    pairs (λ a b, g (f a b)) l = g <$> pairs f l.
Proof.
  induction n as [|n IH]; intros l Hn.
  - by destruct l; [|simpl in Hn; lia].
  - destruct l as [|a [|b t]]; [done..|].
    simpl. f_equal. apply IH. simpl in Hn. lia.
Qed.

Lemma pairs_signed (be : bool) (l : list Z) :
  pairs (ordered be (λ hi lo, to_signed32 (word32 hi lo))) l
  = to_signed32 <$> pairs (ordered be word32) l.
Proof.
  rewrite <- (pairs_fmap to_signed32 (ordered be word32) (length l)) by done.
  by destruct be.
Qed.

Lemma Odd_div2 (n : nat) : Nat.Odd n → (n `div` 2 = (n - 1) `div` 2)%nat.
Proof.
  intros [m ->]. replace (2 * m + 1 - 1)%nat with (m * 2)%nat by lia.
  rewrite Nat.div_mul by lia. replace (2 * m + 1)%nat with (1 + m * 2)%nat by lia.
  rewrite Nat.div_add by lia. done.
Qed.

Lemma pairs_odd_take (f : Z → Z → Z) (l : list Z) :
  Nat.Odd (length l) → pairs f (take (length l - 1) l) = pairs f l.
Proof.
  intros Hodd.
  assert (Hlen : length (take (length l - 1) l) = (length l - 1)%nat)
    by (rewrite length_take; lia).
  destruct (drop (length l - 1) l) as [|x [|y t]] eqn:Hdrop.
  - apply (f_equal length) in Hdrop. rewrite length_drop in Hdrop.
    destruct Hodd as [m Hm]. simpl in Hdrop. lia.
  - rewrite <- (take_drop (length l - 1) l) at 3. rewrite Hdrop.
    symmetry. apply (pairs_snoc_even f (length l)); [lia|].
    rewrite Hlen. destruct Hodd as [m Hm]. exists m. lia.
  - apply (f_equal length) in Hdrop. rewrite length_drop in Hdrop.
    simpl in Hdrop. lia.
Qed.

Example decode_16_example :
  decode_u16_list [0; 1; 0x8000; 0xFFFF] = [0; 1; 32768; 65535]
  ∧ decode_s16_list [0; 1; 0x8000; 0xFFFF] = [0; 1; -32768; -1].
Proof. split; reflexivity. Qed.

Example pretty_candidates_example :
  pretty_candidates [1; 2; 3]
  = Ok (lit "u16=[1, 2, 3] | s16=[1, 2, 3] | u32_BE=[65538] | u32_LE=[131073] | s32_BE=[65538] | s32_LE=[131073]").
Proof. reflexivity. Qed.

Lemma word32_eq (hi lo : Z) :
  word32 hi lo = (hi `mod` 2 ^ 16) * 2 ^ 16 + lo `mod` 2 ^ 16.
Proof.
  unfold word32. change 0xFFFF with (Z.ones 16).
  rewrite !Z.land_ones, Z.shiftl_mul_pow2 by lia.
  rewrite <- Z.add_lor_land.
  replace (Z.land (hi `mod` 2 ^ 16 * 2 ^ 16) (lo `mod` 2 ^ 16)) with 0; [lia|].
  symmetry. apply Z.bits_inj'. intros n Hn.
  rewrite Z.land_spec, Z.bits_0.
  destruct (Z.lt_ge_cases n 16).
  - rewrite <- Z.shiftl_mul_pow2 by lia. by rewrite Z.shiftl_spec_low.
  - rewrite (Z.mod_pow2_bits_high lo 16 n) by lia. apply andb_false_r.
Qed.

Lemma word32_range (hi lo : Z) : 0 ≤ word32 hi lo < 2 ^ 32.
Proof.
  rewrite word32_eq.
  pose proof (Z.mod_pos_bound hi (2 ^ 16)).
  pose proof (Z.mod_pos_bound lo (2 ^ 16)).
  lia.
Qed.

(** On a 32-bit value the mask [0x80000000] tests for [2^31] and above. *)
Lemma sign_bit32 (u : Z) :
  0 ≤ u < 2 ^ 32 → (Z.land u 0x80000000 =? 0) = (u <? 2 ^ 31).
Proof.
  intros Hu.
  assert (Hbit : Z.land u 0x80000000 = if Z.testbit u 31 then 2 ^ 31 else 0).
  { apply Z.bits_inj'. intros n Hn. rewrite Z.land_spec.
    change 0x80000000 with (2 ^ 31). rewrite Z.pow2_bits_eqb by lia.
    destruct (Z.eqb_spec 31 n) as [<-|Hne].
    - rewrite andb_true_r. destruct (Z.testbit u 31) eqn:E; [|by rewrite Z.bits_0].
      by rewrite Z.pow2_bits_true.
    - rewrite andb_false_r. destruct (Z.testbit u 31); [|by rewrite Z.bits_0].
      rewrite Z.pow2_bits_false; [done|lia]. }
  rewrite Hbit, Z.testbit_eqb by lia.
  destruct (Z.ltb_spec u (2 ^ 31)).
  - rewrite Z.div_small by lia. done.
  - replace (u `div` 2 ^ 31) with 1; [done|].
    apply Z.div_unique with (r := u - 2 ^ 31); lia.
Qed.

Lemma to_signed32_eq (u : Z) :
  0 ≤ u < 2 ^ 32 → to_signed32 u = if u <? 2 ^ 31 then u else u - 2 ^ 32.
Proof. intros Hu. unfold to_signed32. by rewrite sign_bit32. Qed.

Lemma pairs_word32_range (be : bool) (n : nat) :
  ∀ l : list Z, (length l ≤ n)%nat →
    ∀ u : Z, u ∈ pairs (ordered be word32) l → 0 ≤ u < 2 ^ 32.
Proof.
  induction n as [|n IH]; intros l Hn u Hu.
  - destruct l; [by apply elem_of_nil in Hu|simpl in Hn; lia].
  - destruct l as [|x [|y t]]; [by apply elem_of_nil in Hu..|].
    simpl in Hu. apply elem_of_cons in Hu as [->|Hu].
    + destruct be; apply word32_range.
    + apply (IH t); [simpl in Hn; lia|done].
Qed.

(** C4. On a frame of odd length [n], the unsigned and the signed 32-bit
    decode, in either byte order, return normally; each returns exactly
    [(n - 1) / 2] values, and these are the values decoded from registers
    [0 .. n - 2]: the final register is left out. Entry [k], for every
    [k] below [(n - 1) / 2], is made of registers [2k] and [2k + 1]: the
    unsigned one is [((hi & 0xFFFF) << 16) | (lo & 0xFFFF)], the first of
    the two registers being the high half in big-endian order and the low
    half in little-endian order, and the signed one is that value read as
    two's complement. *)
Theorem odd_frame_omits_final_register (registers : list Z) (big_endian : bool) :
  Nat.Odd (length registers) →
  let n := length registers in
  ∃ u32 s32 : list Z,
    decode_u32_pairs registers big_endian = Ok u32
    ∧ decode_s32_pairs registers big_endian = Ok s32
    ∧ length u32 = ((n - 1) `div` 2)%nat
    ∧ length s32 = ((n - 1) `div` 2)%nat
    ∧ decode_u32_pairs (take (n - 1) registers) big_endian = Ok u32
    ∧ decode_s32_pairs (take (n - 1) registers) big_endian = Ok s32
    ∧ ∀ k : nat, (k < (n - 1) `div` 2)%nat →
        ∃ a b : Z,
          registers !! (2 * k)%nat = Some a
          ∧ registers !! (2 * k + 1)%nat = Some b
          ∧ let hi := if big_endian then a else b in
            let lo := if big_endian then b else a in
            let u := Z.lor (Z.shiftl (Z.land hi 0xFFFF) 16) (Z.land lo 0xFFFF) in
            u32 !! k = Some u
            ∧ s32 !! k
              = Some (if Z.land u 0x80000000 =? 0 then u else u - 0x100000000).
Proof.
  intros Hodd n. subst n.
  exists (pairs (ordered big_endian word32) registers),
         (pairs (ordered big_endian (λ hi lo, to_signed32 (word32 hi lo))) registers).
  rewrite !decode_u32_pairs_eq, !decode_s32_pairs_eq.
  rewrite !(pairs_length _ (length registers)) by done.
  rewrite !pairs_odd_take by done.
  rewrite <- Odd_div2 by done.
  do 6 (split; [done|]).
  intros k Hk.
  assert (Hin : (2 * k + 1 < length registers)%nat).
  { pose proof (Nat.div_mod_eq (length registers) 2) as Hdm. lia. }
  destruct (lookup_lt_is_Some_2 registers (2 * k)) as [a Ha]; [lia|].
  destruct (lookup_lt_is_Some_2 registers (2 * k + 1)) as [b Hb]; [lia|].
  exists a, b. split; [done|]. split; [done|].
  replace (2 * k + 1)%nat with (S (2 * k)) in Hb by lia.
  rewrite (pairs_lookup _ k registers a b Ha Hb).
  rewrite (pairs_lookup _ k registers a b Ha Hb).
  by destruct big_endian.
Qed.

Lemma odd_frame_omits_final_register_witness :
  Nat.Odd (length [1; 2; 3])
  ∧ ∃ u32 s32 : list Z,
      decode_u32_pairs [1; 2; 3] true = Ok u32
      ∧ decode_s32_pairs [1; 2; 3] true = Ok s32
      ∧ length u32 = 1%nat ∧ length s32 = 1%nat
      ∧ decode_u32_pairs [1; 2] true = Ok u32
      ∧ decode_s32_pairs [1; 2] true = Ok s32
      ∧ ∀ k : nat, (k < 1)%nat →
          ∃ a b : Z,
            [1; 2; 3] !! (2 * k)%nat = Some a
            ∧ [1; 2; 3] !! (2 * k + 1)%nat = Some b
            ∧ let u := Z.lor (Z.shiftl (Z.land a 0xFFFF) 16) (Z.land b 0xFFFF) in
              u32 !! k = Some u
              ∧ s32 !! k
                = Some (if Z.land u 0x80000000 =? 0 then u else u - 0x100000000).
Proof.
  assert (Hodd : Nat.Odd (length [1; 2; 3])) by (exists 1%nat; reflexivity).
  split; [exact Hodd|].
  exact (odd_frame_omits_final_register [1; 2; 3] true Hodd).
Defined.

(** C6. For a pair of registers [frame[i]], [frame[i + 1]] with [i] even
    and [i + 1] inside the frame, entry [i / 2] of the big-endian unsigned
    decode is [((frame[i] & 0xFFFF) << 16) | (frame[i + 1] & 0xFFFF)], and
    the little-endian decode has the two registers swapped. For the frame
    [0x0001, 0x0002] this gives [65538] and [131073]. *)
Theorem u32_pair_combines_high_and_low (frame : list Z) (i : nat) (a b : Z) :
  Nat.Even i → frame !! i = Some a → frame !! (i + 1)%nat = Some b →
  (∃ be le : list Z,
     decode_u32_pairs frame true = Ok be
     ∧ decode_u32_pairs frame false = Ok le
     ∧ be !! (i `div` 2)%nat
       = Some (Z.lor (Z.shiftl (Z.land a 0xFFFF) 16) (Z.land b 0xFFFF))
     ∧ le !! (i `div` 2)%nat
       = Some (Z.lor (Z.shiftl (Z.land b 0xFFFF) 16) (Z.land a 0xFFFF)))
  ∧ decode_u32_pairs [0x0001; 0x0002] true = Ok [65538]
  ∧ decode_u32_pairs [0x0001; 0x0002] false = Ok [131073].
Proof.
  intros [k ->] Ha Hb. split; [|done].
  replace (2 * k + 1)%nat with (S (2 * k)) in Hb by lia.
  assert (Hk : ((2 * k) `div` 2 = k)%nat)
    by (rewrite Nat.mul_comm; apply Nat.div_mul; lia).
  rewrite Hk.
  exists (pairs (ordered true word32) frame), (pairs (ordered false word32) frame).
  rewrite !decode_u32_pairs_eq.
  rewrite (pairs_lookup (ordered true word32) k frame a b Ha Hb).
  rewrite (pairs_lookup (ordered false word32) k frame a b Ha Hb).
  done.
Qed.

Lemma u32_pair_combines_high_and_low_witness :
  Nat.Even 2
  ∧ ∃ be le : list Z,
      decode_u32_pairs [7; 8; 0x1234; 0xABCD; 9] true = Ok be
      ∧ decode_u32_pairs [7; 8; 0x1234; 0xABCD; 9] false = Ok le
      ∧ be !! 1%nat = Some 0x1234ABCD
      ∧ le !! 1%nat = Some 0xABCD1234.
Proof.
  assert (Heven : Nat.Even 2) by (exists 1%nat; reflexivity).
  split; [exact Heven|].
  exact (proj1 (u32_pair_combines_high_and_low [7; 8; 0x1234; 0xABCD; 9] 2
                  0x1234 0xABCD Heven eq_refl eq_refl)).
Defined.

(** C9. For every frame and either byte order the signed and the unsigned
    32-bit decode have the same length, and at every index the signed value
    is congruent to the unsigned one modulo [2^32], lies between [-2^31]
    and [2^31 - 1], and equals the unsigned value below [2^31] and the
    unsigned value minus [2^32] from there on. *)
Theorem s32_reinterprets_u32 (frame : list Z) (big_endian : bool) :
  ∃ u32 s32 : list Z,
    decode_u32_pairs frame big_endian = Ok u32
    ∧ decode_s32_pairs frame big_endian = Ok s32
    ∧ length s32 = length u32
    ∧ ∀ (i : nat) (u : Z), u32 !! i = Some u →
        ∃ s : Z, s32 !! i = Some s
          ∧ (s - u) `mod` 2 ^ 32 = 0
          ∧ - 2 ^ 31 ≤ s ≤ 2 ^ 31 - 1
          ∧ s = if u <? 2 ^ 31 then u else u - 2 ^ 32.
Proof.
  exists (pairs (ordered big_endian word32) frame),
         (to_signed32 <$> pairs (ordered big_endian word32) frame).
  rewrite decode_u32_pairs_eq, decode_s32_pairs_eq, pairs_signed, length_fmap.
  repeat split.
  intros i u Hu. exists (to_signed32 u).
  rewrite list_lookup_fmap, Hu. split; [done|].
  assert (Hrange : 0 ≤ u < 2 ^ 32).
  { apply (pairs_word32_range big_endian (length frame) frame); [done|].
    by apply list_elem_of_lookup_2 in Hu. }
  rewrite to_signed32_eq by done.
  destruct (Z.ltb_spec u (2 ^ 31)).
  - rewrite Z.sub_diag. split; [done|lia].
  - replace (u - 2 ^ 32 - u) with (-1 * 2 ^ 32) by lia.
    rewrite Z.mod_mul by lia. lia.
Qed.

(** ** The sweep *)

Lemma py_range_seqZ (lo hi : Z) : py_range lo (hi + 1) 1 = seqZ lo (hi - lo + 1).
Proof.
  unfold py_range, seqZ. rewrite Z.div_1_r.
  replace (hi + 1 - lo + 1 - 1) with (hi - lo + 1) by lia.
  apply list_fmap_ext. intros _ k _. lia.
Qed.

(** A loop whose body always returns and extends an observation of the
    world by [g x] extends it by all the [g x] in turn. *)
Lemma io_for_obs {W X E : Type} (obs : W → list E) (g : X → list E)
    (body : X → io W unit) (xs : list X) :
  (∀ x w, ∃ w', body x w = (Ok tt, w') ∧ obs w' = obs w ++ g x) →
  ∀ w, ∃ w', io_for xs body w = (Ok tt, w') ∧ obs w' = obs w ++ (xs ≫= g).
Proof.
  intros Hbody. induction xs as [|x xs IH]; intros w.
  - exists w. split; [done|]. simpl. by rewrite app_nil_r.
  - destruct (Hbody x w) as (w1 & Hx & Hobs1).
    destruct (IH w1) as (w2 & Hxs & Hobs2).
    exists w2. split.
    + cbn [io_for]. unfold mbind, io_bind. by rewrite Hx.
    + rewrite Hobs2, Hobs1. simpl. by rewrite <- app_assoc.
Qed.

Lemma without_prints_app (tr1 tr2 : list event) :
  without_prints (tr1 ++ tr2) = without_prints tr1 ++ without_prints tr2.
Proof. apply bind_app. Qed.

Lemma attempts_app (tr1 tr2 : list event) :
  attempts (tr1 ++ tr2) = attempts tr1 ++ attempts tr2.
Proof. apply bind_app. Qed.

Lemma attempts_without_prints (tr : list event) :
  attempts (without_prints tr) = attempts tr.
Proof.
  induction tr as [|ev tr IH]; [done|].
  change (ev :: tr) with ([ev] ++ tr).
  rewrite without_prints_app, !attempts_app, IH. by destruct ev.
Qed.

Lemma list_bind_assoc {A B C : Type} (f : A → list B) (g : B → list C)
    (l : list A) :
  (l ≫= f) ≫= g = l ≫= (λ x, f x ≫= g).
Proof.
  induction l as [|x l IH]; [done|].
  cbn [mbind list_bind]. by rewrite bind_app, IH.
Qed.

Lemma sweep_triples_bind {E : Type} (h : Z * Z * Z → list E)
    (units : list Z) (lo hi : Z) (counts : list Z) :
  sweep_triples units lo hi counts ≫= h
  = units ≫= λ unit, seqZ lo (hi - lo + 1) ≫= λ address, counts ≫= λ count,
      h (unit, address, count).
Proof.
  unfold sweep_triples. rewrite list_bind_assoc.
  apply list_bind_ext; [|done]. intros unit. rewrite list_bind_assoc.
  apply list_bind_ext; [|done]. intros address. rewrite list_bind_assoc.
  apply list_bind_ext; [|done]. intros count. simpl. by rewrite app_nil_r.
Qed.

Lemma attempts_schedule (kind : register_kind) (delay : float)
    (triples : list (Z * Z * Z)) :
  attempts (triples ≫= λ '(unit, address, count),
                         [EvRead kind address count unit; EvSleep delay])
  = triples.
Proof.
  induction triples as [|[[u a] c] l IH]; [done|].
  cbn [mbind list_bind]. rewrite attempts_app, IH. done.
Qed.

Lemma sweep_triples_length (units : list Z) (lo hi : Z) (counts : list Z) :
  lo ≤ hi + 1 →
  Z.of_nat (length (sweep_triples units lo hi counts))
  = Z.of_nat (length units) * (hi - lo + 1) * Z.of_nat (length counts).
Proof.
  intros Hlo. unfold sweep_triples.
  assert (Hc : ∀ (unit address : Z),
             length (counts ≫= λ count, [(unit, address, count)]) = length counts).
  { intros unit address. induction counts as [|c cs IH]; [done|].
    cbn [mbind list_bind]. rewrite length_app, IH. done. }
  assert (Ha : ∀ (unit : Z) (l : list Z),
             length (l ≫= λ address, counts ≫= λ count, [(unit, address, count)])
             = (length l * length counts)%nat).
  { intros unit l. induction l as [|a l IH]; [done|].
    cbn [mbind list_bind]. rewrite length_app, IH, Hc. simpl. lia. }
  induction units as [|u us IH]; [simpl; lia|].
  cbn [mbind list_bind]. rewrite length_app, Nat2Z.inj_add, IH, Ha, length_seqZ.
  rewrite Nat2Z.inj_mul, Z2Nat.id by lia.
  cbn [length]. rewrite Nat2Z.inj_succ. ring.
Qed.

Section ProbeProofs.
Context {Client : Type}.
Context (read_holding_registers read_input_registers :
           Z → Z → Z → Client → result response * Client).
Context (sleep_error : float → option exn).

(** One attempt always returns; whatever the device does, it adds to the
    trace the read, perhaps a printed line, and the sleep. *)
Lemma probe_attempt_schedule (kind : pystr) (delay : float)
    (unit address count : Z) (w : world Client (list probe_result)) :
  sleep_error delay = None →
  ∃ w', probe_attempt read_holding_registers read_input_registers sleep_error
          kind delay unit address count w = (Ok tt, w')
        ∧ without_prints (trace w')
          = without_prints (trace w)
            ++ [EvRead (kind_of kind) address count unit; EvSleep delay].
Proof.
  intros Hsleep. unfold probe_result in *.
  unfold probe_attempt, kind_of, mbind, io_bind, try_except, read_registers,
    call, time_sleep.
  rewrite Hsleep.
  destruct (bool_decide (kind = lit "holding")); cbv beta iota.
  - destruct (read_holding_registers address count unit (device w))
      as [[[[[|]|] [[|r rs]|]]|e] d]; simpl;
      try (destruct (pretty_candidates (r :: rs)); simpl);
      try (destruct e; simpl);
      eexists; (split; [reflexivity|]); simpl;
      rewrite ?without_prints_app, <- ?app_assoc; reflexivity.
  - destruct (read_input_registers address count unit (device w))
      as [[[[[|]|] [[|r rs]|]]|e] d]; simpl;
      try (destruct (pretty_candidates (r :: rs)); simpl);
      try (destruct e; simpl);
      eexists; (split; [reflexivity|]); simpl;
      rewrite ?without_prints_app, <- ?app_assoc; reflexivity.
Qed.

(** An attempt whose read fails: nothing is recorded and nothing printed. *)
Lemma probe_attempt_failed (kind : pystr) (delay : float)
    (unit address count : Z) (w : world Client (list probe_result))
    (r : result response) (d : Client) :
  sleep_error delay = None →
  read_with read_holding_registers read_input_registers (kind_of kind)
    address count unit (device w) = (r, d) →
  usable r = false →
  probe_attempt read_holding_registers read_input_registers sleep_error
    kind delay unit address count w
  = (Ok tt, World d (locals w)
              (trace w ++ [EvRead (kind_of kind) address count unit; EvSleep delay])).
Proof.
  intros Hsleep Hread Hfail. unfold probe_result in *.
  unfold probe_attempt, kind_of, mbind, io_bind, try_except, read_registers,
    call, time_sleep in *.
  rewrite Hsleep.
  destruct (bool_decide (kind = lit "holding")); cbv beta iota;
    simpl in Hread; rewrite Hread;
    destruct r as [[[[|]|] [[|x xs]|]]|e]; try discriminate; simpl;
    try (destruct e; simpl); unfold emit; simpl; rewrite <- ?app_assoc;
    reflexivity.
Qed.

Lemma probe_schedule (units : list Z) (lo hi : Z) (counts : list Z)
    (delay : float) (kind : pystr) (w : world Client (list probe_result)) :
  sleep_error delay = None →
  ∃ results w',
    probe read_holding_registers read_input_registers sleep_error
      units lo hi counts delay kind w = (Ok results, w')
    ∧ without_prints (trace w')
      = without_prints (trace w)
        ++ (sweep_triples units lo hi counts
              ≫= λ '(unit, address, count),
                   [EvRead (kind_of kind) address count unit; EvSleep delay]).
Proof.
  intros Hsleep. unfold probe.
  set (obs := λ w : world Client (list probe_result), without_prints (trace w)).
  set (w0 := World (device w) ([] : list probe_result) (trace w)).
  match goal with
  | |- context [io_for units ?b] => set (body := b)
  end.
  destruct (io_for_obs obs
              (λ unit, seqZ lo (hi - lo + 1) ≫= λ address, counts ≫= λ count,
                 [EvRead (kind_of kind) address count unit; EvSleep delay])
              body units) with (w := w0) as (w1 & Hrun & Hobs).
  - intros unit wu. unfold body. rewrite py_range_seqZ.
    apply io_for_obs. intros address wa.
    apply io_for_obs. intros count wc.
    by apply probe_attempt_schedule.
  - exists (locals w1), w1. split.
    + unfold mbind, io_bind, set_locals. fold w0. rewrite Hrun. done.
    + unfold obs in Hobs. rewrite Hobs, sweep_triples_bind. done.
Qed.

(** C5. A sweep over [units], the addresses from [lo] to [hi] and
    [counts] returns normally, whatever the device answers, and its read
    attempts are exactly the triples [(unit, address, count)] in the order
    of the three nested loops, one attempt each; their number is
    [|units| * (hi - lo + 1) * |counts|]. An attempt whose read raises, or
    returns an error response or no register, records and prints nothing
    and goes on to the sleep. The delay is one that [time.sleep] accepts,
    and [lo <= hi + 1]. *)
Theorem sweep_attempts_every_triple (units : list Z) (lo hi : Z)
    (counts : list Z) (delay : float) (kind : pystr) (client : Client) :
  sleep_error delay = None →
  lo ≤ hi + 1 →
  (∃ results w',
     probe read_holding_registers read_input_registers sleep_error
       units lo hi counts delay kind (World client [] []) = (Ok results, w')
     ∧ attempts (trace w') = sweep_triples units lo hi counts
     ∧ Z.of_nat (length (attempts (trace w')))
       = Z.of_nat (length units) * (hi - lo + 1) * Z.of_nat (length counts))
  ∧ (∀ (w : world Client (list probe_result)) (unit address count : Z)
       (r : result response) (d : Client),
       read_with read_holding_registers read_input_registers (kind_of kind)
         address count unit (device w) = (r, d) →
       usable r = false →
       probe_attempt read_holding_registers read_input_registers sleep_error
         kind delay unit address count w
       = (Ok tt, World d (locals w)
                   (trace w ++ [EvRead (kind_of kind) address count unit;
                                EvSleep delay]))).
Proof.
  intros Hsleep Hlo. split.
  - destruct (probe_schedule units lo hi counts delay kind
                (World client [] []) Hsleep) as (results & w' & Hrun & Hobs).
    exists results, w'. split; [done|].
    assert (Hatt : attempts (trace w') = sweep_triples units lo hi counts).
    { rewrite <- attempts_without_prints, Hobs. apply attempts_schedule. }
    split; [done|]. rewrite Hatt. by apply sweep_triples_length.
  - intros w unit address count r d. by apply probe_attempt_failed.
Qed.

(** C7. In a sweep, every read attempt is followed by exactly one sleep of
    [delay] before the next attempt, whether the read succeeded, returned
    an error or raised: leaving aside the printed lines, the trace is a
    read and a sleep for each triple in turn. The delay is one that
    [time.sleep] accepts. *)
Theorem sweep_sleeps_after_every_attempt (units : list Z) (lo hi : Z)
    (counts : list Z) (delay : float) (kind : pystr) (client : Client) :
  sleep_error delay = None →
  ∃ results w',
    probe read_holding_registers read_input_registers sleep_error
      units lo hi counts delay kind (World client [] []) = (Ok results, w')
    ∧ without_prints (trace w')
      = sweep_triples units lo hi counts
          ≫= λ '(unit, address, count),
               [EvRead (kind_of kind) address count unit; EvSleep delay].
Proof.
  intros Hsleep.
  destruct (probe_schedule units lo hi counts delay kind
              (World client [] []) Hsleep) as (results & w' & Hrun & Hobs).
  by exists results, w'.
Qed.
End ProbeProofs.

Lemma sweep_attempts_every_triple_witness :
  ∃ results w',
    probe timeout_first timeout_first sleep_any [1; 2] 0 1 [1] float_half
      (lit "holding") (World 0%nat [] []) = (Ok results, w')
    ∧ attempts (trace w') = [(1, 0, 1); (1, 1, 1); (2, 0, 1); (2, 1, 1)]
    ∧ Z.of_nat (length (attempts (trace w'))) = 4.
Proof.
  destruct (sweep_attempts_every_triple timeout_first timeout_first sleep_any
              [1; 2] 0 1 [1] float_half (lit "holding") 0%nat)
    as [(results & w' & Hrun & Hatt & Hlen) _]; [reflexivity|lia|].
  exists results, w'. repeat split; assumption.
Defined.

Lemma sweep_sleeps_after_every_attempt_witness :
  ∃ results w',
    probe timeout_first timeout_first sleep_any [1; 2] 0 1 [1] float_half
      (lit "holding") (World 0%nat [] []) = (Ok results, w')
    ∧ without_prints (trace w')
      = [EvRead Holding 0 1 1; EvSleep float_half;
         EvRead Holding 1 1 1; EvSleep float_half;
         EvRead Holding 0 1 2; EvSleep float_half;
         EvRead Holding 1 1 2; EvSleep float_half].
Proof.
  apply (sweep_sleeps_after_every_attempt timeout_first timeout_first sleep_any
           [1; 2] 0 1 [1] float_half (lit "holding") 0%nat).
  reflexivity.
Defined.

(** ** Unit specifications *)

(** Case analysis on the comparisons that classify a character. *)
Ltac char_cases :=
  unfold is_ascii_digit, is_ascii, is_c_space, is_space, is_underscore,
    between, ch in *;
  cbn [N_of_ascii N_of_digits] in *;
  repeat match goal with
    | H : context [(?a <=? ?b)%N] |- _ =>
        destruct (N.leb_spec a b); simpl in H; try discriminate
    | H : context [(?a =? ?b)%N] |- _ =>
        destruct (N.eqb_spec a b); simpl in H; try discriminate
    | H : context [(?a <? ?b)%N] |- _ =>
        destruct (N.ltb_spec a b); simpl in H; try discriminate
    end;
  repeat match goal with
    | |- context [(?a <=? ?b)%N] => destruct (N.leb_spec a b); simpl; try lia
    | |- context [(?a =? ?b)%N] => destruct (N.eqb_spec a b); simpl; try lia
    | |- context [(?a <? ?b)%N] => destruct (N.ltb_spec a b); simpl; try lia
    end;
  try done; try lia.

Lemma digit_is_ascii c : is_ascii_digit c = true → is_ascii c = true.
Proof. intros H. char_cases. Qed.

Lemma digit_not_c_space c : is_ascii_digit c = true → is_c_space c = false.
Proof. intros H. char_cases. Qed.

Lemma digit_not_space c : is_ascii_digit c = true → is_space c = false.
Proof. intros H. char_cases. Qed.

Lemma digit_not_underscore c : is_ascii_digit c = true → is_underscore c = false.
Proof. intros H. char_cases. Qed.

Lemma digit_not_char c (a : ascii) :
  is_ascii_digit c = true → is_ascii_digit (ch a) = false → (c =? ch a)%N = false.
Proof.
  intros H Ha. destruct (N.eqb_spec c (ch a)) as [->|]; [congruence|done].
Qed.

Lemma drop_while_none {A} (p : A → bool) (l : list A) :
  Forall (λ x, p x = false) l → drop_while p l = l.
Proof. intros [|x l' Hx _]; [done|]. simpl. by rewrite Hx. Qed.

Lemma drop_while_all {A} (p : A → bool) (l : list A) :
  Forall (λ x, p x = true) l → drop_while p l = [].
Proof. induction 1 as [|x l' Hx _ IH]; [done|]. simpl. by rewrite Hx. Qed.

Lemma take_while_all {A} (p : A → bool) (l : list A) :
  Forall (λ x, p x = true) l → take_while p l = l.
Proof. induction 1 as [|x l' Hx _ IH]; [done|]. simpl. by rewrite Hx, IH. Qed.

Lemma strip_with_none (p : N → bool) (s : pystr) :
  Forall (λ c, p c = false) s → strip_with p s = s.
Proof.
  intros Hs. unfold strip_with. rewrite (drop_while_none p s Hs).
  rewrite drop_while_none by by apply Forall_reverse.
  apply reverse_involutive.
Qed.

Lemma py_split_no_sep (sep : N) (t : pystr) :
  Forall (λ c, (c =? sep)%N = false) t → py_split sep t = [t].
Proof. induction 1 as [|c t Hc _ IH]; [done|]. simpl. by rewrite Hc, IH. Qed.

Lemma py_split_app (sep : N) (t rest : pystr) :
  Forall (λ c, (c =? sep)%N = false) t →
  py_split sep (t ++ sep :: rest) = t :: py_split sep rest.
Proof.
  induction 1 as [|c t Hc _ IH]; simpl.
  - by rewrite N.eqb_refl.
  - by rewrite Hc, IH.
Qed.

(** Splitting undoes joining when no part contains the separator. *)
Lemma py_split_join (sep : N) (texts : list pystr) :
  texts ≠ [] →
  Forall (Forall (λ c, (c =? sep)%N = false)) texts →
  py_split sep (py_join [sep] texts) = texts.
Proof.
  intros Hne Hall. induction Hall as [|t ts Ht Hts IH]; [done|].
  destruct ts as [|t' ts].
  - simpl. by apply py_split_no_sep.
  - change (py_join [sep] (t :: t' :: ts))
      with (t ++ sep :: py_join [sep] (t' :: ts)).
    rewrite py_split_app by done. by rewrite IH.
Qed.

Lemma py_split1_app (sep : N) (t rest : pystr) :
  Forall (λ c, (c =? sep)%N = false) t →
  py_split1 sep (t ++ sep :: rest) = [t; rest].
Proof.
  induction 1 as [|c t Hc _ IH]; simpl.
  - by rewrite N.eqb_refl.
  - by rewrite Hc, IH.
Qed.

Lemma py_contains_false (sep : N) (t : pystr) :
  Forall (λ c, (c =? sep)%N = false) t → py_contains sep t = false.
Proof. induction 1 as [|c t Hc _ IH]; [done|]. simpl. by rewrite Hc. Qed.

Lemma py_contains_app (sep : N) (t rest : pystr) :
  py_contains sep (t ++ sep :: rest) = true.
Proof.
  induction t as [|c t IH]; simpl.
  - by rewrite N.eqb_refl.
  - rewrite IH. apply orb_true_r.
Qed.

Lemma is_decimal_literal_spec (ds : pystr) :
  is_decimal_literal ds = true
  → ds ≠ [] ∧ Forall (λ c, is_ascii_digit c = true) ds.
Proof.
  unfold is_decimal_literal.
  rewrite !andb_true_iff, forallb_forall, Forall_forall.
  setoid_rewrite <- list_elem_of_In.
  destruct ds; simpl; intuition congruence.
Qed.

Lemma is_decimal_literal_length (ds : pystr) :
  is_decimal_literal ds = true → Z.of_nat (length ds) ≤ int_max_str_digits.
Proof.
  unfold is_decimal_literal. rewrite !andb_true_iff. intros [_ Hlen]. lia.
Qed.

Lemma digit_count_digits (ds : pystr) :
  Forall (λ c, is_ascii_digit c = true) ds → digit_count ds = Z.of_nat (length ds).
Proof.
  unfold digit_count. induction 1 as [|c ds Hc _ IH]; [done|].
  cbn [List.filter]. rewrite (digit_not_underscore c Hc). cbn [negb length].
  lia.
Qed.

Lemma underscores_ok_digits (ds : pystr) :
  Forall (λ c, is_ascii_digit c = true) ds →
  ∀ prev, is_underscore prev = false → underscores_ok prev ds = true.
Proof.
  induction 1 as [|c ds Hc _ IH]; intros prev Hprev; simpl.
  - by rewrite Hprev.
  - rewrite (digit_not_underscore c Hc). simpl.
    apply IH. by apply digit_not_underscore.
Qed.

Lemma digits_value_decimal (ds : pystr) :
  Forall (λ c, is_ascii_digit c = true) ds → digits_value ds = decimal_value ds.
Proof.
  intros Hds. unfold digits_value, decimal_value. generalize 0.
  induction Hds as [|c ds Hc _ IH]; intros acc; [done|].
  simpl. rewrite (digit_not_underscore c Hc). apply IH.
Qed.

(** [int()] reads a string of decimal digits, not more of them than it
    converts, as the number it denotes. *)
Lemma py_int_decimal `{!UnicodeData} (ds : pystr) :
  is_decimal_literal ds = true → py_int ds = Ok (decimal_value ds).
Proof.
  intros Hlit. pose proof (is_decimal_literal_length ds Hlit) as Hlen.
  apply is_decimal_literal_spec in Hlit as [Hne Hds].
  assert (Hascii : forallb is_ascii ds = true).
  { apply forallb_forall. intros c Hc%list_elem_of_In.
    rewrite Forall_forall in Hds. by apply digit_is_ascii, Hds. }
  unfold py_int, ascii_transform. rewrite Hascii.
  rewrite drop_while_none
    by (eapply Forall_impl; [exact Hds|]; intros c; apply digit_not_c_space).
  destruct ds as [|c ds]; [done|].
  assert (Hc : is_ascii_digit c = true) by by inversion Hds.
  unfold take_sign.
  rewrite (digit_not_char c "+" Hc eq_refl), (digit_not_char c "-" Hc eq_refl).
  assert (Hrun : Forall (λ c, is_ascii_digit c || is_underscore c = true) (c :: ds)).
  { eapply Forall_impl; [exact Hds|]. intros c' ->. done. }
  rewrite (take_while_all _ _ Hrun), (drop_while_all _ _ Hrun).
  rewrite (digit_not_underscore c Hc).
  rewrite (underscores_ok_digits _ Hds) by done.
  rewrite (digit_count_digits _ Hds).
  destruct (Z.ltb_spec int_max_str_digits (Z.of_nat (length (c :: ds)))); [lia|].
  simpl. by rewrite digits_value_decimal.
Qed.

Lemma item_units_mentions (it : unit_item) (u : Z) :
  u ∈ item_units it ↔ item_mentions it u.
Proof.
  destruct it as [ds|lo hi]; simpl.
  - by rewrite list_elem_of_singleton.
  - rewrite elem_of_seqZ. lia.
Qed.

Lemma py_for_append {X Y : Type} (f : Y → X) (g : Y → list Z)
    (body : X → list Z → result (list Z)) (ys : list Y) :
  Forall (λ y, ∀ acc, body (f y) acc = Ok (acc ++ g y)) ys →
  ∀ acc, py_for (f <$> ys) body acc = Ok (acc ++ (ys ≫= g)).
Proof.
  induction 1 as [|y ys Hy _ IH]; intros acc; simpl.
  - by rewrite app_nil_r.
  - rewrite Hy. cbn [mbind result_bind]. rewrite IH. by rewrite <- app_assoc.
Qed.

Lemma item_text_chars (it : unit_item) :
  item_ok it = true →
  Forall (λ c, is_ascii_digit c = true ∨ c = ch "-") (item_text it).
Proof.
  destruct it as [ds|lo hi]; simpl.
  - intros [_ Hds]%is_decimal_literal_spec.
    eapply Forall_impl; [exact Hds|]. auto.
  - intros [[_ Hlo]%is_decimal_literal_spec
            [_ Hhi]%is_decimal_literal_spec]%andb_true_iff.
    apply Forall_app. split; [eapply Forall_impl; [exact Hlo|]; auto|].
    apply Forall_cons. split; [by right|].
    eapply Forall_impl; [exact Hhi|]. auto.
Qed.

Lemma digits_no_char (a : ascii) (ds : pystr) :
  is_ascii_digit (ch a) = false →
  Forall (λ c, is_ascii_digit c = true) ds →
  Forall (λ c, (c =? ch a)%N = false) ds.
Proof.
  intros Ha Hds. eapply Forall_impl; [exact Hds|].
  intros c Hc. by apply digit_not_char.
Qed.

(** What [sorted(set(units))] returns: the elements of [units], each once,
    in strictly ascending order. *)
Lemma sorted_set_spec (units : list Z) :
  StronglySorted Z.lt (sorted_set units)
  ∧ NoDup (sorted_set units)
  ∧ ∀ u, u ∈ sorted_set units ↔ u ∈ units.
Proof.
  unfold sorted_set.
  set (s := list_to_set units : gset Z).
  assert (Hnd : NoDup (merge_sort Z.le (elements s))).
  { rewrite merge_sort_Permutation. apply NoDup_elements. }
  assert (Hle : StronglySorted Z.le (merge_sort Z.le (elements s))).
  { apply StronglySorted_merge_sort; apply _. }
  split; [|split; [done|]].
  - induction Hle as [|x l Hl IH Hx]; [constructor|].
    apply NoDup_cons in Hnd as [Hnotin Hnd].
    constructor; [by apply IH|].
    rewrite Forall_forall in Hx |- *. intros y Hy.
    assert (x ≠ y) by (intros ->; done). specialize (Hx y Hy). lia.
  - intros u. rewrite merge_sort_Permutation, elem_of_elements.
    unfold s. by rewrite elem_of_list_to_set.
Qed.

Section ParseUnits.
Context `{!UnicodeData}.

(** The body of the loop of [parse_units] on the text of one item. *)
Lemma parse_units_part (it : unit_item) (units : list Z) :
  item_ok it = true →
  (let part := py_strip (item_text it) in
   if py_contains (ch "-") part then
     '(lo, hi) ← unpack2 (py_split1 (ch "-") part);
     lo ← py_int lo;
     hi ← py_int hi;
     Ok (units ++ py_range lo (hi + 1) 1)
   else
     n ← py_int part;
     Ok (units ++ [n]))
  = Ok (units ++ item_units it).
Proof.
  intros Hok. cbv zeta.
  assert (Hstrip : py_strip (item_text it) = item_text it).
  { apply strip_with_none. eapply Forall_impl; [by apply item_text_chars|].
    intros c [Hc| ->]; [by apply digit_not_space|done]. }
  rewrite Hstrip. destruct it as [ds|lo hi]; simpl in *.
  - pose proof Hok as [_ Hds]%is_decimal_literal_spec.
    rewrite py_contains_false by by apply (digits_no_char "-").
    by rewrite py_int_decimal.
  - apply andb_true_iff in Hok as [Hlo Hhi].
    pose proof Hlo as [_ Hlods]%is_decimal_literal_spec.
    change (lo ++ lit "-" ++ hi) with (lo ++ ch "-" :: hi).
    rewrite py_contains_app.
    rewrite py_split1_app by by apply (digits_no_char "-").
    cbn [unpack2 mbind result_bind].
    rewrite (py_int_decimal lo Hlo). cbn [mbind result_bind].
    rewrite (py_int_decimal hi Hhi). cbn [mbind result_bind].
    by rewrite py_range_seqZ.
Qed.

Lemma parse_units_eq (items : list unit_item) :
  items ≠ [] →
  forallb item_ok items = true →
  parse_units (unit_spec items) = Ok (sorted_set (items ≫= item_units)).
Proof.
  intros Hne Hok. unfold parse_units, unit_spec.
  assert (Hall : Forall (λ it, item_ok it = true) items).
  { apply Forall_forall. intros it Hit%list_elem_of_In.
    by apply (proj1 (forallb_forall _ _) Hok). }
  change (lit ",") with [ch ","].
  rewrite py_split_join.
  - rewrite (py_for_append item_text item_units).
    + done.
    + eapply Forall_impl; [exact Hall|]. intros it Hit acc.
      by apply parse_units_part.
  - by destruct items.
  - apply Forall_fmap. eapply Forall_impl; [exact Hall|].
    intros it Hit. eapply Forall_impl; [by apply item_text_chars|].
    intros c [Hc| ->]; [by apply (digit_not_char c ",")|done].
Qed.

(** Whatever the string, a list that [parse_units] returns is strictly
    ascending. *)
Lemma parse_units_ascending (units_str : pystr) (units : list Z) :
  parse_units units_str = Ok units → StronglySorted Z.lt units ∧ NoDup units.
Proof.
  unfold parse_units. destruct (py_for _ _ _) as [l|e]; [|done].
  cbn [mbind result_bind]. intros [= <-].
  destruct (sorted_set_spec l) as (? & ? & _). done.
Qed.

(** C8. For a unit specification made of decimal literals and hyphenated
    ranges of them, separated by commas, [parse_units] returns a list that
    is sorted in ascending order, has no duplicates, and holds exactly the
    units mentioned: the value of each literal and every unit between the
    two ends of each range. A literal has at most 4300 digits, the most
    that [int()] converts. *)
Theorem parse_units_sorted_dedup (items : list unit_item) :
  items ≠ [] →
  forallb item_ok items = true →
  ∃ units : list Z,
    parse_units (unit_spec items) = Ok units
    ∧ StronglySorted Z.lt units
    ∧ NoDup units
    ∧ ∀ u : Z, u ∈ units ↔ ∃ it, it ∈ items ∧ item_mentions it u.
Proof.
  intros Hne Hok. exists (sorted_set (items ≫= item_units)).
  split; [by apply parse_units_eq|].
  destruct (sorted_set_spec (items ≫= item_units)) as (Hsorted & Hnd & Hin).
  split; [done|]. split; [done|].
  intros u. rewrite Hin, list_elem_of_bind.
  split; intros (it & H1 & H2); exists it.
  - split; [done|]. by apply item_units_mentions.
  - split; [by apply item_units_mentions|done].
Qed.
End ParseUnits.

Section ParseUnitsExample.
Local Existing Instance ascii_only.

Lemma parse_units_sorted_dedup_witness :
  ∃ units : list Z,
    parse_units (lit "1,3-5,9") = Ok units
    ∧ StronglySorted Z.lt units
    ∧ NoDup units
    ∧ ∀ u : Z, u ∈ units ↔
        ∃ it, it ∈ [UnitLiteral (lit "1"); UnitRange (lit "3") (lit "5");
                    UnitLiteral (lit "9")]
              ∧ item_mentions it u.
Proof.
  apply (parse_units_sorted_dedup
           [UnitLiteral (lit "1"); UnitRange (lit "3") (lit "5");
            UnitLiteral (lit "9")]).
  - discriminate.
  - reflexivity.
Defined.

Example parse_units_example : parse_units (lit "1,3-5,9") = Ok [1; 3; 4; 5; 9].
Proof. reflexivity. Qed.
End ParseUnitsExample.

(** ** The Modbus polling loop *)

Lemma effective_divisor_nonzero (d : float) :
  float_eqb (effective_divisor d) float_zero = false.
Proof.
  unfold effective_divisor. by destruct (float_eqb d float_zero) eqn:E.
Qed.

(** *** Integers as floats *)

(** [SpecFloat] is written with the operations of [IntDef.Z]; [zdef] puts
    them under the names the lemmas of [Z] use. *)
Ltac zdef :=
  change IntDef.Z.sub with Z.sub in *;
  change IntDef.Z.add with Z.add in *;
  change IntDef.Z.max with Z.max in *;
  change IntDef.Z.leb with Z.leb in *.

Lemma digits2_pos_iter_xO (p : positive) (n : positive) :
  digits2_pos (Pos.iter xO p n) = (digits2_pos p + n)%positive.
Proof.
  induction n as [|n IH] using Pos.peano_ind.
  - simpl. lia.
  - rewrite Pos.iter_succ. simpl. rewrite IH. lia.
Qed.

(** A mantissa of 53 bits with an exponent in range is left as it is by
    rounding. *)
Lemma binary_round_aux_exact (s : bool) (m : positive) (e : Z) :
  Z.pos (digits2_pos m) = 53 → -1074 ≤ e ≤ 971 →
  binary_round_aux prec emax s (Z.pos m) e loc_Exact = S754_finite s m e.
Proof.
  intros Hd He.
  assert (Hshift : fexp prec emax (Zdigits2 (Z.pos m) + e) - e = 0).
  { unfold fexp, emin, prec, emax. zdef. simpl Zdigits2. rewrite Hd. lia. }
  unfold binary_round_aux, shr_fexp. zdef. rewrite Hshift.
  cbn [shr shr_record_of_loc shr_m shr_r shr_s loc_of_shr_record round_nearest_even].
  rewrite Hshift. cbn [shr shr_record_of_loc shr_m]. zdef.
  destruct (Z.leb_spec e (emax - prec)) as [_|Hgt]; [done|].
  unfold emax, prec in Hgt. lia.
Qed.

Lemma float_of_small_int (p : positive) :
  Z.pos (digits2_pos p) ≤ 53 →
  ∃ m e, float_of_int (Z.pos p) = Ok (S754_finite false m e)
         ∧ Z.pos (digits2_pos m) = 53 ∧ -52 ≤ e ≤ 0.
Proof.
  intros Hd. unfold float_of_int, binary_normalize, binary_round.
  assert (Hfexp : fexp prec emax (Z.pos (digits2_pos p) + 0)
                  = Z.pos (digits2_pos p) - 53).
  { unfold fexp, emin, prec, emax. zdef. lia. }
  zdef. rewrite Hfexp. unfold shl_align. zdef.
  destruct (Z.pos (digits2_pos p) - 53 - 0) as [|q|q] eqn:Hq; [|lia|].
  - rewrite binary_round_aux_exact by lia.
    exists p, 0. split; [done|]. lia.
  - rewrite binary_round_aux_exact.
    + eexists _, _. split; [reflexivity|].
      rewrite digits2_pos_iter_xO. lia.
    + rewrite digits2_pos_iter_xO. lia.
    + lia.
Qed.

Lemma div_eucl_exact (a b q : Z) :
  0 < b → a = q * b → Z.div_eucl a b = (q, 0).
Proof.
  intros Hb ->.
  pose proof (Z.div_eucl_eq (q * b) b ltac:(lia)) as Heq.
  pose proof (Z.mod_pos_bound (q * b) b Hb) as Hmod.
  unfold Z.modulo, Z.div in *.
  destruct (Z.div_eucl (q * b) b) as [q' r'].
  assert (r' = 0 ∧ q' = q) as [-> ->]; [|done].
  assert (Hr : r' = (q - q') * b) by lia.
  assert (q - q' = 0) by nia. split; [|lia]. subst r'. lia.
Qed.

(** Dividing a float with a full mantissa by 1 gives it back. *)
Lemma float_div_one (m : positive) (e : Z) :
  Z.pos (digits2_pos m) = 53 → -1073 ≤ e ≤ 971 →
  SFdiv prec emax (S754_finite false m e) float_one = S754_finite false m e.
Proof.
  intros Hd He. unfold float_one, SFdiv, SFdiv_core_binary.
  change IntDef.Z.div_eucl with Z.div_eucl. zdef.
  change (Zdigits2 (Z.pos m)) with (Z.pos (digits2_pos m)). rewrite Hd.
  change (Zdigits2 4503599627370496) with 53.
  assert (He' : Z.min (fexp prec emax (53 + e - (53 + -52))) (e - -52) = e - 1).
  { unfold fexp, emin, prec, emax. zdef. lia. }
  zdef. change IntDef.Z.min with Z.min. rewrite He'.
  replace (e - -52 - (e - 1)) with 53 by lia.
  rewrite (div_eucl_exact (Z.shiftl (Z.pos m) 53) 4503599627370496 (Z.pos m~0)).
  2: done.
  2: { rewrite Z.shiftl_mul_pow2 by lia. lia. }
  change (new_location 4503599627370496 0) with loc_Exact.
  assert (Hshift : fexp prec emax (Zdigits2 (Z.pos m~0) + (e - 1)) - (e - 1) = 1).
  { unfold fexp, emin, prec, emax. zdef.
    change (Zdigits2 (Z.pos m~0)) with (Z.pos (Pos.succ (digits2_pos m))).
    rewrite Pos2Z.inj_succ, Hd. lia. }
  unfold binary_round_aux, shr_fexp. zdef. rewrite Hshift.
  cbn [shr SpecFloat.iter_pos shr_1 shr_record_of_loc shr_m shr_r shr_s orb
       loc_of_shr_record round_nearest_even].
  zdef. replace (e - 1 + 1) with e by lia.
  assert (Hshift0 : fexp prec emax (Zdigits2 (Z.pos m) + e) - e = 0).
  { unfold fexp, emin, prec, emax. zdef.
    change (Zdigits2 (Z.pos m)) with (Z.pos (digits2_pos m)). rewrite Hd. lia. }
  rewrite Hshift0. cbn [shr shr_m xorb].
  destruct (Z.leb_spec e (emax - prec)) as [_|Hgt]; [done|].
  unfold emax, prec in Hgt. lia.
Qed.

(** Every 16-bit register value converts to a float, and dividing that
    float by 1 gives it back. *)
Lemma u16_register_float (r : Z) :
  0 ≤ r < 65536 →
  ∃ x : float, float_of_int r = Ok x ∧ SFdiv prec emax x float_one = x.
Proof.
  intros Hr. destruct r as [|p|p]; [| |lia].
  - exists (S754_zero false). done.
  - assert (Hd : Z.pos (digits2_pos p) ≤ 53).
    { assert (Hlog : Z.pos (digits2_pos p) = Z.log2 (Z.pos p) + 1).
      { clear Hr. induction p as [p IH|p IH|]; [| |done].
        - cbn [digits2_pos]. rewrite Pos2Z.inj_succ, IH.
          change (Z.pos p~1) with (2 * Z.pos p + 1).
          rewrite Z.log2_succ_double by lia. lia.
        - cbn [digits2_pos]. rewrite Pos2Z.inj_succ, IH.
          change (Z.pos p~0) with (2 * Z.pos p).
          rewrite Z.log2_double by lia. lia. }
      rewrite Hlog.
      assert (Z.log2 (Z.pos p) < 16) by (apply Z.log2_lt_pow2; lia). lia. }
    destruct (float_of_small_int p Hd) as (m & e & Hx & Hm & He).
    exists (S754_finite false m e). split; [done|].
    apply float_div_one; [done|lia].
Qed.

Section ModbusLoopProofs.
Context `{!UnicodeData}.
Context {Client : Type}.
Context (read_holding_registers read_input_registers :
           Z → Z → Z → Client → result response * Client).

(** A pass whose read returned a response that is not an error, [raw]
    being the value the code takes from the registers. *)
Lemma read_weight_pass_ok (env : environ) (client client' : Client)
    (kind : register_kind) (address count unit : Z) (resp : response)
    (registers : list Z) (raw : Z) (divisor x : float) :
  configured_read env = Ok (kind, address, count, unit) →
  read_with read_holding_registers read_input_registers kind
    address count unit client = (Ok resp, client') →
  resp_isError resp = Some false →
  resp_registers resp = Some registers →
  (if 0 <? Z.of_nat (length registers) then py_getitem registers 0 else Ok 0)
  = Ok raw →
  configured_divisor env = Ok divisor →
  float_of_int raw = Ok x →
  read_weight_pass read_holding_registers read_input_registers env
    (World client tt [])
  = (Ok tt,
     World client' tt
       [EvRead kind address count unit;
        EvAfter (UpdateWeightDisplay (SFdiv prec emax x (effective_divisor divisor)));
        EvSleep float_half]).
Proof.
  intros Hcfg Hread Herr Hregs Hraw Hdiv Hx.
  unfold configured_read in Hcfg. unfold configured_divisor in Hdiv.
  unfold read_weight_pass, try_except, mbind, io_bind, lift, mret, io_ret.
  destruct (py_int (py_strip (getenv env "WEIGHBRIDGE_ADDRESS" (lit "0"))))
    as [address'|]; [|done].
  destruct (py_int (py_strip (getenv env "WEIGHBRIDGE_COUNT" (lit "2"))))
    as [count'|]; [|done].
  destruct (py_int (py_strip (getenv env "WEIGHBRIDGE_SLAVE_ID" (lit "1"))))
    as [unit'|]; [|done].
  cbn [mbind result_bind] in Hcfg. injection Hcfg as <- <- <- <-.
  unfold read_registers, call, isError, registers_of.
  destruct (bool_decide _); cbn [device locals trace] in *;
    simpl in Hread; rewrite Hread, Herr, Hregs;
    (destruct (0 <? Z.of_nat (length registers));
     [rewrite Hraw|injection Hraw as <-];
     rewrite Hdiv, Hx; unfold float_truediv;
     replace (if negb (float_eqb divisor float_zero) then divisor else float_one)
       with (effective_divisor divisor)
       by (unfold effective_divisor; by destruct (float_eqb divisor float_zero));
     rewrite effective_divisor_nonzero; reflexivity).
Qed.

(** C1. When the read for the configured kind, address, count and unit
    returns a response that is not an error and whose frame is not empty,
    the pass hands over one sample, and its value is register 0 of the
    frame, as a float, divided by the configured scale divisor, a divisor
    of 0 counting as 1. The registers after the first do not enter into
    it. The settings are ones that parse, and register 0 is an integer
    that converts to a float, as every 16-bit value does
    ([u16_register_float]). *)
Theorem poll_emits_register_zero_over_divisor (env : environ)
    (client client' : Client) (kind : register_kind) (address count unit : Z)
    (resp : response) (r0 : Z) (rest : list Z) (divisor x : float) :
  configured_read env = Ok (kind, address, count, unit) →
  read_with read_holding_registers read_input_registers kind
    address count unit client = (Ok resp, client') →
  resp_isError resp = Some false →
  resp_registers resp = Some (r0 :: rest) →
  configured_divisor env = Ok divisor →
  float_of_int r0 = Ok x →
  read_weight_pass read_holding_registers read_input_registers env
    (World client tt [])
  = (Ok tt,
     World client' tt
       [EvRead kind address count unit;
        EvAfter (UpdateWeightDisplay (SFdiv prec emax x (effective_divisor divisor)));
        EvSleep float_half]).
Proof.
  intros Hcfg Hread Herr Hregs Hdiv Hx.
  by apply (read_weight_pass_ok env client client' kind address count unit
              resp (r0 :: rest) r0).
Qed.

(** C2, as the code has it. When the read returns a response that is not
    an error but carries no register, the pass takes 0 for the raw value
    and hands over a sample all the same: 0 divided by the configured
    scale divisor, a divisor of 0 counting as 1. *)
Theorem poll_empty_frame_emits_zero (env : environ)
    (client client' : Client) (kind : register_kind) (address count unit : Z)
    (resp : response) (divisor : float) :
  configured_read env = Ok (kind, address, count, unit) →
  read_with read_holding_registers read_input_registers kind
    address count unit client = (Ok resp, client') →
  resp_isError resp = Some false →
  resp_registers resp = Some [] →
  configured_divisor env = Ok divisor →
  read_weight_pass read_holding_registers read_input_registers env
    (World client tt [])
  = (Ok tt,
     World client' tt
       [EvRead kind address count unit;
        EvAfter (UpdateWeightDisplay
                   (SFdiv prec emax float_zero (effective_divisor divisor)));
        EvSleep float_half]).
Proof.
  intros Hcfg Hread Herr Hregs Hdiv.
  by apply (read_weight_pass_ok env client client' kind address count unit
              resp [] 0).
Qed.
End ModbusLoopProofs.

Section ModbusLoopExamples.
Local Existing Instance ascii_only.

Lemma poll_emits_register_zero_over_divisor_witness :
  read_weight_pass (fixed_frame [1234; 7]) (fixed_frame [1234; 7])
    (env_divisor (lit "100")) (World tt tt [])
  = (Ok tt,
     World tt tt
       [EvRead Holding 0 2 1;
        EvAfter (UpdateWeightDisplay (S754_finite false 6946802425218990 (-49)));
        EvSleep float_half]).
Proof.
  exact (poll_emits_register_zero_over_divisor
           (fixed_frame [1234; 7]) (fixed_frame [1234; 7]) (env_divisor (lit "100"))
           tt tt Holding 0 2 1 (Response (Some false) (Some [1234; 7])) 1234 [7]
           (S754_finite false 7036874417766400 (-46))
           (S754_finite false 5427189394702336 (-42))
           eq_refl eq_refl eq_refl eq_refl eq_refl eq_refl).
Defined.

(** C2 fails as stated: with the default settings, a read that returns a
    response that is not an error and carries no register makes the pass
    hand over a sample, of value 0. *)
Lemma poll_empty_frame_sample :
  fixed_frame [] 0 2 1 tt = (Ok (Response (Some false) (Some [])), tt)
  ∧ read_weight_pass (fixed_frame []) (fixed_frame []) ∅ (World tt tt [])
    = (Ok tt,
       World tt tt
         [EvRead Holding 0 2 1;
          EvAfter (UpdateWeightDisplay (S754_zero false));
          EvSleep float_half]).
Proof. split; [reflexivity|]. vm_compute. reflexivity. Qed.

Lemma poll_empty_frame_emits_zero_witness :
  read_weight_pass (fixed_frame []) (fixed_frame [])
    (env_divisor (lit "-2")) (World tt tt [])
  = (Ok tt,
     World tt tt
       [EvRead Holding 0 2 1;
        EvAfter (UpdateWeightDisplay (S754_zero true));
        EvSleep float_half]).
Proof.
  exact (poll_empty_frame_emits_zero
           (fixed_frame []) (fixed_frame []) (env_divisor (lit "-2"))
           tt tt Holding 0 2 1 (Response (Some false) (Some []))
           (S754_finite true 4503599627370496 (-51))
           eq_refl eq_refl eq_refl eq_refl eq_refl).
Defined.
End ModbusLoopExamples.

(** ** The ASCII line loop *)

Section AsciiLoopProofs.
Context `{!UnicodeData}.
Context {Serial : Type}.
Context (readline : Serial → result bytes * Serial).
Context (re_compile_custom : pystr → result pattern).

(** C3. With the default pattern, a scale divisor of 1 and the precision
    set to "auto", a pass that reads the line "ST,+00012.34,kg" followed by
    CR LF finds the token "+00012.34", parses it, does not divide it, and
    hands over the text "12.34". *)
Theorem ascii_line_example (env : environ) (weight_unit : pystr)
    (serial serial' : Serial) :
  getenv env "WEIGHBRIDGE_REGEX" default_regex = default_regex →
  getenv env "WEIGHBRIDGE_SCALE_DIVISOR" (lit "1") = lit "1" →
  getenv env "WEIGHBRIDGE_DECIMALS" (lit "auto") = lit "auto" →
  readline serial = (Ok example_line, serial') →
  ∃ (cfg : ascii_config) (value : float),
    read_weight_ascii_setup re_compile_custom env weight_unit = Ok cfg
    ∧ cfg_pattern cfg (py_strip (utf8_decode_ignore example_line))
      = Match (Ok (Some (lit "+00012.34")))
    ∧ py_float (lit "+00012.34") = Ok value
    ∧ display_of (cfg_decimals_env cfg) value = lit "12.34"
    ∧ read_weight_ascii_pass readline cfg (World serial tt [])
      = (Ok tt,
         World serial' tt
           [EvReadline; EvAfter (ConfigWeightDisplay (lit "12.34") (cfg_unit cfg))]).
Proof.
  intros Hregex Hdivisor Hdecimals Hline.
  exists (AsciiConfig default_pattern (getenv env "WEIGHBRIDGE_UNIT" weight_unit)
            (lit "auto") float_one),
         (S754_finite false 6946802425218990 (-49)).
  split; [|split; [|split; [|split]]].
  - unfold read_weight_ascii_setup, re_compile.
    rewrite Hregex, Hdivisor, Hdecimals. reflexivity.
  - vm_compute. reflexivity.
  - vm_compute. reflexivity.
  - vm_compute. reflexivity.
  - unfold read_weight_ascii_pass, try_except, mbind, io_bind, call.
    cbn [device locals trace cfg_pattern cfg_unit cfg_divisor cfg_decimals_env].
    rewrite Hline. vm_compute. reflexivity.
Qed.

(** C10. With a scale divisor of 0, a pass over a line that the pattern
    matches and whose token parses raises nothing: the division is not
    carried out, and the text handed over is that of the parsed value
    itself. On every line and whatever the port does, the pass runs as it
    would with a divisor of 1. *)
Theorem zero_divisor_skips_division (cfg : ascii_config)
    (serial serial' : Serial) (data : bytes) (value_str : option pystr)
    (value : float) :
  float_eqb (cfg_divisor cfg) float_zero = true →
  readline serial = (Ok data, serial') →
  data ≠ [] →
  cfg_pattern cfg (py_strip (utf8_decode_ignore data)) = Match (Ok value_str) →
  float_of_group value_str = Ok value →
  read_weight_ascii_pass readline cfg (World serial tt [])
  = (Ok tt,
     World serial' tt
       [EvReadline;
        EvAfter (ConfigWeightDisplay
                   (display_of (cfg_decimals_env cfg) value) (cfg_unit cfg))])
  ∧ ∀ w : world Serial unit,
      read_weight_ascii_pass readline cfg w
      = read_weight_ascii_pass readline
          (AsciiConfig (cfg_pattern cfg) (cfg_unit cfg) (cfg_decimals_env cfg)
             float_one) w.
Proof.
  intros Hzero Hline Hdata Hmatch Hvalue.
  assert (Hguard : float_bool (cfg_divisor cfg)
                   && negb (float_eqb (cfg_divisor cfg) float_one) = false)
    by (unfold float_bool; by rewrite Hzero).
  split.
  - unfold read_weight_ascii_pass, try_except, mbind, io_bind, call, lift,
      mret, io_ret.
    cbn [device locals trace]. rewrite Hline.
    destruct data as [|b data]; [done|]. cbn [py_list_bool negb].
    rewrite Hmatch, Hvalue, Hguard. reflexivity.
  - intros w. unfold read_weight_ascii_pass.
    cbn [cfg_pattern cfg_unit cfg_decimals_env cfg_divisor].
    rewrite Hguard.
    change (float_bool float_one && negb (float_eqb float_one float_one))
      with false.
    reflexivity.
Qed.
End AsciiLoopProofs.

Section AsciiLoopExamples.
Local Existing Instance ascii_only.

Lemma ascii_line_example_witness :
  ∃ (cfg : ascii_config) (value : float),
    read_weight_ascii_setup no_custom_pattern ∅ (lit "kg") = Ok cfg
    ∧ cfg_pattern cfg (py_strip (utf8_decode_ignore example_line))
      = Match (Ok (Some (lit "+00012.34")))
    ∧ py_float (lit "+00012.34") = Ok value
    ∧ display_of (cfg_decimals_env cfg) value = lit "12.34"
    ∧ read_weight_ascii_pass queued_lines cfg (World [example_line] tt [])
      = (Ok tt,
         World [] tt
           [EvReadline; EvAfter (ConfigWeightDisplay (lit "12.34") (cfg_unit cfg))]).
Proof.
  apply (ascii_line_example queued_lines no_custom_pattern ∅ (lit "kg")
           [example_line] []); reflexivity.
Defined.

Lemma zero_divisor_skips_division_witness :
  read_weight_ascii_pass queued_lines
    (AsciiConfig default_pattern (lit "kg") (lit "auto") (S754_zero true))
    (World [example_line] tt [])
  = (Ok tt,
     World [] tt [EvReadline; EvAfter (ConfigWeightDisplay (lit "12.34") (lit "kg"))]).
Proof.
  apply (zero_divisor_skips_division queued_lines
           (AsciiConfig default_pattern (lit "kg") (lit "auto") (S754_zero true))
           [example_line] [] example_line (Some (lit "+00012.34"))
           (S754_finite false 6946802425218990 (-49))).
  - reflexivity.
  - reflexivity.
  - discriminate.
  - vm_compute. reflexivity.
  - vm_compute. reflexivity.
Defined.
End AsciiLoopExamples.

(** ** More on the register decoder *)

Lemma decode_s16_list_fmap (registers : list Z) :
  decode_s16_list registers
  = (λ r, let v := Z.land r 0xFFFF in
          if Z.land v 0x8000 =? 0 then v else v - 0x10000) <$> registers.
Proof.
  unfold decode_s16_list.
  enough (H : ∀ acc : list Z,
            foldl (λ values r,
                     let v := Z.land r 0xFFFF in
                     let v := if Z.land v 0x8000 =? 0 then v else v - 0x10000 in
                     values ++ [v]) acc registers
            = acc ++ ((λ r, let v := Z.land r 0xFFFF in
                            if Z.land v 0x8000 =? 0 then v else v - 0x10000)
                      <$> registers)) by apply H.
  induction registers as [|r rs IH]; intros acc; cbn [foldl fmap list_fmap].
  - by rewrite app_nil_r.
  - rewrite IH, <- app_assoc. done.
Qed.

(** On a 16-bit value the mask [0x8000] tests for [2^15] and above. *)
Lemma sign_bit16 (u : Z) :
  0 ≤ u < 2 ^ 16 → (Z.land u 0x8000 =? 0) = (u <? 2 ^ 15).
Proof.
  intros Hu.
  assert (Hbit : Z.land u 0x8000 = if Z.testbit u 15 then 2 ^ 15 else 0).
  { apply Z.bits_inj'. intros n Hn. rewrite Z.land_spec.
    change 0x8000 with (2 ^ 15). rewrite Z.pow2_bits_eqb by lia.
    destruct (Z.eqb_spec 15 n) as [<-|Hne].
    - rewrite andb_true_r. destruct (Z.testbit u 15) eqn:E; [|by rewrite Z.bits_0].
      by rewrite Z.pow2_bits_true.
    - rewrite andb_false_r. destruct (Z.testbit u 15); [|by rewrite Z.bits_0].
      rewrite Z.pow2_bits_false; [done|lia]. }
  rewrite Hbit, Z.testbit_eqb by lia.
  destruct (Z.ltb_spec u (2 ^ 15)).
  - rewrite Z.div_small by lia. done.
  - replace (u `div` 2 ^ 15) with 1; [done|].
    apply Z.div_unique with (r := u - 2 ^ 15); lia.
Qed.

(** X1. [decode_u16_list] keeps the length of the frame, and entry [i] is
    register [i] reduced modulo 65536, whatever integer the register
    holds: every value lies between 0 and 65535, and a frame of 16-bit
    values is returned as it is. *)
Theorem decode_u16_reduces_mod_65536 (registers : list Z) :
  length (decode_u16_list registers) = length registers
  ∧ (∀ (i : nat) (r : Z), registers !! i = Some r →
       decode_u16_list registers !! i = Some (r `mod` 65536))
  ∧ Forall (λ v, 0 ≤ v ≤ 65535) (decode_u16_list registers)
  ∧ (Forall (λ r, 0 ≤ r ≤ 65535) registers → decode_u16_list registers = registers).
Proof.
  assert (Hmask : ∀ r, Z.land r 0xFFFF = r `mod` 65536).
  { intros r. change 0xFFFF with (Z.ones 16). by rewrite Z.land_ones by lia. }
  unfold decode_u16_list. split; [by rewrite length_fmap|]. split; [|split].
  - intros i r Hr. by rewrite list_lookup_fmap, Hr, <- Hmask.
  - apply Forall_fmap, Forall_forall. intros r _. simpl. rewrite Hmask.
    pose proof (Z.mod_pos_bound r 65536 ltac:(lia)). lia.
  - intros Hall. rewrite <- (list_fmap_id registers) at 2.
    apply Forall_fmap_ext. eapply Forall_impl; [exact Hall|].
    intros r Hr. simpl in *. rewrite Hmask. apply Z.mod_small. lia.
Qed.

(** X2. [decode_s16_list] keeps the length of the frame, and entry [i] is
    register [i] read as a 16-bit two's complement number: it lies between
    -32768 and 32767, is congruent to the register modulo 65536, and is
    the register's low 16 bits below 32768 and those bits minus 65536 from
    there on. *)
Theorem decode_s16_twos_complement (registers : list Z) :
  length (decode_s16_list registers) = length registers
  ∧ ∀ (i : nat) (r : Z), registers !! i = Some r →
      ∃ s : Z, decode_s16_list registers !! i = Some s
        ∧ -32768 ≤ s ≤ 32767
        ∧ (s - r) `mod` 65536 = 0
        ∧ s = if r `mod` 65536 <? 32768 then r `mod` 65536
              else r `mod` 65536 - 65536.
Proof.
  rewrite decode_s16_list_fmap. split; [by rewrite length_fmap|].
  intros i r Hr. rewrite list_lookup_fmap, Hr. eexists. split; [reflexivity|].
  cbv zeta. change 0xFFFF with (Z.ones 16). rewrite Z.land_ones by lia.
  change (2 ^ 16) with 65536.
  pose proof (Z.mod_pos_bound r 65536 ltac:(lia)) as Hu.
  rewrite sign_bit16 by (change (2 ^ 16) with 65536; lia).
  change (2 ^ 15) with 32768. change 0x10000 with 65536.
  assert (Hcong : ∀ k, (r `mod` 65536 + k * 65536 - r) `mod` 65536 = 0).
  { intros k. rewrite (Z.div_mod r 65536) at 2 by lia.
    replace (r `mod` 65536 + k * 65536 - (65536 * (r `div` 65536) + r `mod` 65536))
      with ((k - r `div` 65536) * 65536) by lia.
    apply Z.mod_mul. lia. }
  destruct (Z.ltb_spec (r `mod` 65536) 32768).
  - split; [lia|]. split; [|done]. specialize (Hcong 0). by rewrite Z.add_0_r in Hcong.
  - split; [lia|]. split; [|done]. specialize (Hcong (-1)).
    by replace (r `mod` 65536 + -1 * 65536) with (r `mod` 65536 - 65536) in Hcong by lia.
Qed.

(** X3. On every frame, the empty one and a single register included, the
    unsigned and the signed 32-bit decode return normally with one value
    for each full pair of registers, [n / 2] values for [n] registers, and
    every unsigned value lies between 0 and [2^32 - 1]. *)
Theorem decode_32_lengths_and_range (registers : list Z) (big_endian : bool) :
  ∃ u32 s32 : list Z,
    decode_u32_pairs registers big_endian = Ok u32
    ∧ decode_s32_pairs registers big_endian = Ok s32
    ∧ length u32 = (length registers `div` 2)%nat
    ∧ length s32 = (length registers `div` 2)%nat
    ∧ Forall (λ u, 0 ≤ u < 2 ^ 32) u32.
Proof.
  exists (pairs (ordered big_endian word32) registers),
         (pairs (ordered big_endian (λ hi lo, to_signed32 (word32 hi lo))) registers).
  rewrite decode_u32_pairs_eq, decode_s32_pairs_eq.
  rewrite !(pairs_length _ (length registers)) by done.
  repeat split. apply Forall_forall. intros u Hu.
  by apply (pairs_word32_range big_endian (length registers) registers).
Qed.

Lemma land_mask_idemp (r : Z) : Z.land (Z.land r 0xFFFF) 0xFFFF = Z.land r 0xFFFF.
Proof. by rewrite <- Z.land_assoc, Z.land_diag. Qed.

Lemma pairs_masked (f : Z → Z → Z) (n : nat) :
  (∀ a b, f (Z.land a 0xFFFF) (Z.land b 0xFFFF) = f a b) →
  ∀ l : list Z, (length l ≤ n)%nat → pairs f (decode_u16_list l) = pairs f l.
Proof.
  intros Hf. induction n as [|n IH]; intros l Hn.
  - by destruct l; [|simpl in Hn; lia].
  - destruct l as [|a [|b t]]; [done..|].
    unfold decode_u16_list in *. cbn [fmap list_fmap pairs].
    rewrite Hf. f_equal. apply IH. simpl in Hn. lia.
Qed.

(** X4. The decoders look at the low 16 bits of each register only: masking
    the frame with [decode_u16_list] first changes the result of none of
    them, nor the text [pretty_candidates] builds. *)
Theorem decoders_read_low_16_bits (registers : list Z) (big_endian : bool) :
  decode_u16_list (decode_u16_list registers) = decode_u16_list registers
  ∧ decode_s16_list (decode_u16_list registers) = decode_s16_list registers
  ∧ decode_u32_pairs (decode_u16_list registers) big_endian
    = decode_u32_pairs registers big_endian
  ∧ decode_s32_pairs (decode_u16_list registers) big_endian
    = decode_s32_pairs registers big_endian
  ∧ pretty_candidates (decode_u16_list registers) = pretty_candidates registers.
Proof.
  assert (Hu16 : decode_u16_list (decode_u16_list registers)
                 = decode_u16_list registers).
  { unfold decode_u16_list. rewrite <- list_fmap_compose.
    apply list_fmap_ext. intros _ r _. apply land_mask_idemp. }
  assert (Hs16 : decode_s16_list (decode_u16_list registers)
                 = decode_s16_list registers).
  { rewrite !decode_s16_list_fmap. unfold decode_u16_list.
    rewrite <- list_fmap_compose. apply list_fmap_ext. intros _ r _.
    cbn. by rewrite land_mask_idemp. }
  assert (Hword : ∀ a b, word32 (Z.land a 0xFFFF) (Z.land b 0xFFFF) = word32 a b).
  { intros a b. unfold word32. by rewrite !land_mask_idemp. }
  assert (Hu32 : ∀ be, decode_u32_pairs (decode_u16_list registers) be
                       = decode_u32_pairs registers be).
  { intros be. rewrite !decode_u32_pairs_eq. f_equal.
    apply (pairs_masked _ (length registers)); [|done].
    intros a b. destruct be; apply Hword. }
  assert (Hs32 : ∀ be, decode_s32_pairs (decode_u16_list registers) be
                       = decode_s32_pairs registers be).
  { intros be. rewrite !decode_s32_pairs_eq. f_equal.
    apply (pairs_masked _ (length registers)); [|done].
    intros a b. destruct be; cbn; by rewrite Hword. }
  repeat split; try done.
  unfold pretty_candidates. by rewrite Hu16, Hs16, !Hu32, !Hs32.
Qed.

(** X5. The two registers of a pair can be read back from its 32-bit value:
    for 16-bit registers [a], [b] at positions [2k], [2k + 1], the
    big-endian value has [a] in its high half and [b] in its low half, and
    the little-endian value the other way round. *)
Theorem u32_pair_round_trip (frame : list Z) (k : nat) (a b : Z) :
  frame !! (2 * k)%nat = Some a → frame !! (2 * k + 1)%nat = Some b →
  0 ≤ a ≤ 65535 → 0 ≤ b ≤ 65535 →
  ∃ (be le : list Z) (v w : Z),
    decode_u32_pairs frame true = Ok be
    ∧ decode_u32_pairs frame false = Ok le
    ∧ be !! k = Some v ∧ le !! k = Some w
    ∧ Z.shiftr v 16 = a ∧ Z.land v 0xFFFF = b
    ∧ Z.shiftr w 16 = b ∧ Z.land w 0xFFFF = a.
Proof.
  intros Ha Hb Hra Hrb.
  replace (2 * k + 1)%nat with (S (2 * k)) in Hb by lia.
  exists (pairs (ordered true word32) frame), (pairs (ordered false word32) frame),
         (word32 a b), (word32 b a).
  rewrite !decode_u32_pairs_eq.
  rewrite (pairs_lookup (ordered true word32) k frame a b Ha Hb).
  rewrite (pairs_lookup (ordered false word32) k frame a b Ha Hb).
  assert (Hw : ∀ x y, 0 ≤ x ≤ 65535 → 0 ≤ y ≤ 65535 →
                Z.shiftr (word32 x y) 16 = x ∧ Z.land (word32 x y) 0xFFFF = y).
  { intros x y Hx Hy. rewrite word32_eq.
    change (2 ^ 16) with 65536. rewrite !Z.mod_small by lia.
    rewrite Z.shiftr_div_pow2 by lia. change 0xFFFF with (Z.ones 16).
    rewrite Z.land_ones by lia. change (2 ^ 16) with 65536. split.
    - symmetry. apply Z.div_unique with (r := y); lia.
    - symmetry. apply Z.mod_unique with (q := x); lia. }
  destruct (Hw a b Hra Hrb) as [? ?]. destruct (Hw b a Hrb Hra) as [? ?].
  done.
Qed.

Lemma u32_pair_round_trip_witness :
  ∃ (be le : list Z) (v w : Z),
    decode_u32_pairs [7; 8; 0x1234; 0xABCD] true = Ok be
    ∧ decode_u32_pairs [7; 8; 0x1234; 0xABCD] false = Ok le
    ∧ be !! 1%nat = Some v ∧ le !! 1%nat = Some w
    ∧ Z.shiftr v 16 = 0x1234 ∧ Z.land v 0xFFFF = 0xABCD
    ∧ Z.shiftr w 16 = 0xABCD ∧ Z.land w 0xFFFF = 0x1234.
Proof.
  apply (u32_pair_round_trip [7; 8; 0x1234; 0xABCD] 1 0x1234 0xABCD);
    [reflexivity|reflexivity|lia|lia].
Defined.

(** X6. [pretty_candidates] never raises. Its text is made of sections
    joined by " | ": the first, [u16=], and the second, [s16=], show up to
    six values and are always there; a frame of fewer than two registers
    gives these two sections only, every other frame six sections. *)
Theorem pretty_candidates_sections (registers : list Z) :
  ∃ sections : list pystr,
    pretty_candidates registers = Ok (py_join (lit " | ") sections)
    ∧ length sections = (if (length registers <? 2)%nat then 2 else 6)%nat
    ∧ sections !! 0%nat = Some (lit "u16=" ++ py_repr_list (take 6 (decode_u16_list registers)))
    ∧ sections !! 1%nat = Some (lit "s16=" ++ py_repr_list (take 6 (decode_s16_list registers))).
Proof.
  unfold pretty_candidates.
  rewrite !decode_u32_pairs_eq, !decode_s32_pairs_eq. cbn [mbind result_bind].
  destruct registers as [|a [|b t]].
  - eexists. split; [reflexivity|]. done.
  - eexists. split; [reflexivity|]. done.
  - cbn [pairs py_list_bool]. eexists. split; [reflexivity|]. done.
Qed.

(** ** More on the sweep *)

Lemma pretty_candidates_total (registers : list Z) :
  ∃ s, pretty_candidates registers = Ok s.
Proof.
  unfold pretty_candidates.
  rewrite !decode_u32_pairs_eq, !decode_s32_pairs_eq. cbn [mbind result_bind].
  by eexists.
Qed.

Lemma printed_lines_app (tr1 tr2 : list event) :
  printed_lines (tr1 ++ tr2) = printed_lines tr1 ++ printed_lines tr2.
Proof. apply bind_app. Qed.

(** A loop whose body always returns and relates the worlds before and
    after by [R (g x)] relates them by [R] of all the [g x] in turn. *)
Lemma io_for_rel {W X T : Type} (R : list T → W → W → Prop) (g : X → list T)
    (body : X → io W unit) (xs : list X) :
  (∀ w, R [] w w) →
  (∀ t1 t2 w w1 w2, R t1 w w1 → R t2 w1 w2 → R (t1 ++ t2) w w2) →
  (∀ x w, ∃ w', body x w = (Ok tt, w') ∧ R (g x) w w') →
  ∀ w, ∃ w', io_for xs body w = (Ok tt, w') ∧ R (xs ≫= g) w w'.
Proof.
  intros Hrefl Htrans Hbody. induction xs as [|x xs IH]; intros w.
  - exists w. split; [done|]. apply Hrefl.
  - destruct (Hbody x w) as (w1 & Hx & HR1).
    destruct (IH w1) as (w2 & Hxs & HR2).
    exists w2. split.
    + cbn [io_for]. unfold mbind, io_bind. by rewrite Hx.
    + cbn [mbind list_bind]. by eapply Htrans.
Qed.

Section ProbeResults.
Context {Client : Type}.
Context (read_holding_registers read_input_registers :
           Z → Z → Z → Client → result response * Client).
Context (sleep_error : float → option exn).

Lemma records_refl (w : world Client (list probe_result)) : records [] w w.
Proof.
  exists []. rewrite !app_nil_r. repeat split; [constructor|constructor].
Qed.

Lemma records_trans t1 t2 (w w1 w2 : world Client (list probe_result)) :
  records t1 w w1 → records t2 w1 w2 → records (t1 ++ t2) w w2.
Proof.
  intros (n1 & Hl1 & Hp1 & Hf1 & Hs1) (n2 & Hl2 & Hp2 & Hf2 & Hs2).
  exists (n1 ++ n2). split; [|split; [|split]].
  - by rewrite Hl2, Hl1, app_assoc.
  - by rewrite Hp2, Hp1, fmap_app, app_assoc.
  - by apply Forall_app.
  - rewrite fmap_app. by apply sublist_app.
Qed.

Lemma probe_attempt_records (kind : pystr) (delay : float)
    (unit address count : Z) (w : world Client (list probe_result)) :
  sleep_error delay = None →
  ∃ w', probe_attempt read_holding_registers read_input_registers sleep_error
          kind delay unit address count w = (Ok tt, w')
        ∧ records [(unit, address, count)] w w'.
Proof.
  intros Hsleep. unfold probe_result in *.
  unfold probe_attempt, mbind, io_bind, try_except, read_registers,
    call, time_sleep.
  rewrite Hsleep.
  assert (Hnone : ∀ d k,
            records [(unit, address, count)] w
              (World d (locals w) ((trace w ++ [EvRead k address count unit])
                                   ++ [EvSleep delay]))).
  { intros d k. exists []. cbn [locals trace].
    rewrite !printed_lines_app. cbn. rewrite ?app_nil_r.
    repeat split; [constructor|]. apply sublist_nil_l. }
  assert (Hsome : ∀ d k r rs cand,
            pretty_candidates (r :: rs) = Ok cand →
            records [(unit, address, count)] w
              (World d (locals w ++ [(unit, address, count, r :: rs)])
                 (((trace w ++ [EvRead k address count unit])
                   ++ [EvPrint (Line (ok_line unit address count (r :: rs) cand))])
                  ++ [EvSleep delay]))).
  { intros d k r rs cand Hcand. exists [(unit, address, count, r :: rs)].
    cbn [locals trace]. rewrite !printed_lines_app. cbn.
    rewrite Hcand, ?app_nil_r, fmap_app. cbn.
    repeat split; [by repeat constructor|done]. }
  destruct (bool_decide (kind = lit "holding")); cbv beta iota.
  - destruct (read_holding_registers address count unit (device w))
      as [[[[[|]|] [[|r rs]|]]|e] d]; simpl;
      try (destruct (pretty_candidates_total (r :: rs)) as [cand Hcand];
           rewrite Hcand; simpl);
      try (destruct e; simpl);
      eexists; (split; [reflexivity|]); first [apply Hnone|by apply Hsome].
  - destruct (read_input_registers address count unit (device w))
      as [[[[[|]|] [[|r rs]|]]|e] d]; simpl;
      try (destruct (pretty_candidates_total (r :: rs)) as [cand Hcand];
           rewrite Hcand; simpl);
      try (destruct e; simpl);
      eexists; (split; [reflexivity|]); first [apply Hnone|by apply Hsome].
Qed.

(** X7. Whatever the device does and whatever [results] held before, a sweep
    with a delay that [time.sleep] accepts returns a list in which every
    entry has a frame that is not empty, the triples of the entries follow
    the order of the sweep, and the lines printed are the "OK" lines of
    the entries, one for each entry and in the same order. *)
Theorem probe_results_match_printed_lines (units : list Z) (lo hi : Z)
    (counts : list Z) (delay : float) (kind : pystr) (client : Client)
    (stale : list probe_result) :
  sleep_error delay = None →
  ∃ results w',
    probe read_holding_registers read_input_registers sleep_error
      units lo hi counts delay kind (World client stale []) = (Ok results, w')
    ∧ Forall (λ r, r.2 ≠ []) results
    ∧ sublist (result_triple <$> results) (sweep_triples units lo hi counts)
    ∧ result_line <$> results = Ok <$> printed_lines (trace w').
Proof.
  intros Hsleep. unfold probe.
  set (w0 := World client ([] : list probe_result) []).
  match goal with
  | |- context [io_for units ?b] => set (body := b)
  end.
  destruct (io_for_rel records
              (λ unit, seqZ lo (hi - lo + 1) ≫= λ address, counts ≫= λ count,
                 [(unit, address, count)])
              body units records_refl records_trans) with (w := w0)
    as (w1 & Hrun & new & Hl & Hp & Hf & Hs).
  - intros unit wu. unfold body. rewrite py_range_seqZ.
    apply (io_for_rel records
             (λ address, counts ≫= λ count, [(unit, address, count)]));
      [apply records_refl|apply records_trans|].
    intros address wa.
    apply (io_for_rel records (λ count, [(unit, address, count)]));
      [apply records_refl|apply records_trans|].
    intros count wc. by apply probe_attempt_records.
  - exists (locals w1), w1. split.
    + unfold mbind, io_bind, set_locals. cbn [device trace]. fold w0.
      rewrite Hrun. done.
    + rewrite Hl. cbn [locals w0 app]. split; [done|]. split; [done|].
      rewrite Hp. done.
Qed.
End ProbeResults.

Lemma probe_results_match_printed_lines_witness :
  ∃ results w',
    probe timeout_first timeout_first sleep_any [1; 2] 0 1 [1] float_half
      (lit "holding") (World 0%nat [(9, 9, 9, [9])] []) = (Ok results, w')
    ∧ Forall (λ r, r.2 ≠ []) results
    ∧ sublist (result_triple <$> results) (sweep_triples [1; 2] 0 1 [1])
    ∧ result_line <$> results = Ok <$> printed_lines (trace w').
Proof.
  apply (probe_results_match_printed_lines timeout_first timeout_first sleep_any
           [1; 2] 0 1 [1] float_half (lit "holding") 0%nat [(9, 9, 9, [9])]).
  reflexivity.
Defined.

Section ProbeEdges.
Context {Client : Type}.
Context (read_holding_registers read_input_registers :
           Z → Z → Z → Client → result response * Client).
Context (sleep_error : float → option exn).

Lemma probe_attempt_stateless (kind : pystr) (delay : float)
    (unit address count : Z) (w : world Client (list probe_result)) :
  sleep_error delay = None →
  (∀ address count unit client,
     (read_with read_holding_registers read_input_registers (kind_of kind)
        address count unit client).2 = client) →
  ∃ w', probe_attempt read_holding_registers read_input_registers sleep_error
          kind delay unit address count w = (Ok tt, w')
        ∧ device w' = device w
        ∧ locals w' = locals w
                      ++ recorded (read_with read_holding_registers
                                     read_input_registers (kind_of kind))
                                  (device w) (unit, address, count).
Proof.
  intros Hsleep Hstate. specialize (Hstate address count unit (device w)).
  unfold probe_result in *.
  unfold probe_attempt, kind_of, recorded, mbind, io_bind, try_except,
    read_registers, call, time_sleep in *.
  rewrite Hsleep.
  destruct (bool_decide (kind = lit "holding")); cbv beta iota;
    cbn [read_with] in *.
  - destruct (read_holding_registers address count unit (device w))
      as [[[[[|]|] [[|r rs]|]]|e] d]; simpl in *; subst d;
      try (destruct (pretty_candidates_total (r :: rs)) as [cand Hcand];
           rewrite Hcand; simpl);
      try (destruct e; simpl);
      eexists; (split; [reflexivity|]); simpl; rewrite ?app_nil_r; done.
  - destruct (read_input_registers address count unit (device w))
      as [[[[[|]|] [[|r rs]|]]|e] d]; simpl in *; subst d;
      try (destruct (pretty_candidates_total (r :: rs)) as [cand Hcand];
           rewrite Hcand; simpl);
      try (destruct e; simpl);
      eexists; (split; [reflexivity|]); simpl; rewrite ?app_nil_r; done.
Qed.

(** X8. On a link whose state no read changes, the sweep
    returns exactly the triples whose read gives a response that is not an
    error and has at least one register, each with its frame, in the order
    of the sweep. *)
Theorem probe_records_every_usable_read (units : list Z) (lo hi : Z)
    (counts : list Z) (delay : float) (kind : pystr) (client : Client) :
  sleep_error delay = None →
  (∀ address count unit client,
     (read_with read_holding_registers read_input_registers (kind_of kind)
        address count unit client).2 = client) →
  ∃ w',
    probe read_holding_registers read_input_registers sleep_error
      units lo hi counts delay kind (World client [] [])
    = (Ok (sweep_triples units lo hi counts
             ≫= recorded (read_with read_holding_registers read_input_registers
                            (kind_of kind)) client),
       w').
Proof.
  intros Hsleep Hstate. unfold probe.
  set (read := read_with read_holding_registers read_input_registers (kind_of kind)).
  set (R := λ (ts : list (Z * Z * Z)) (w w' : world Client (list probe_result)),
              device w' = device w
              ∧ locals w' = locals w ++ (ts ≫= recorded read (device w))).
  assert (Hrefl : ∀ w, R [] w w).
  { intros w. split; [done|]. by rewrite app_nil_r. }
  assert (Htrans : ∀ t1 t2 w w1 w2, R t1 w w1 → R t2 w1 w2 → R (t1 ++ t2) w w2).
  { intros t1 t2 w w1 w2 [Hd1 Hl1] [Hd2 Hl2]. split; [congruence|].
    by rewrite Hl2, Hl1, Hd1, bind_app, app_assoc. }
  pose (w0 := World client ([] : list probe_result) []).
  match goal with
  | |- context [io_for units ?b] => set (body := b)
  end.
  destruct (io_for_rel R
              (λ unit, seqZ lo (hi - lo + 1) ≫= λ address, counts ≫= λ count,
                 [(unit, address, count)])
              body units Hrefl Htrans) with (w := w0) as (w1 & Hrun & Hd & Hl).
  - intros unit wu. unfold body. rewrite py_range_seqZ.
    apply (io_for_rel R (λ address, counts ≫= λ count, [(unit, address, count)]));
      [done..|].
    intros address wa.
    apply (io_for_rel R (λ count, [(unit, address, count)])); [done..|].
    intros count wc.
    destruct (probe_attempt_stateless kind delay unit address count wc Hsleep Hstate)
      as (w' & Hrun & Hd & Hl).
    exists w'. split; [done|]. split; [done|].
    rewrite Hl. cbn [mbind list_bind]. by rewrite app_nil_r.
  - exists w1. unfold mbind, io_bind, set_locals. cbn [device trace]. fold w0.
    change (World client [] []) with w0.
    rewrite Hrun. unfold get_locals. rewrite Hl. cbn [locals device w0 app].
    reflexivity.
Qed.

Lemma probe_attempt_rejected (kind : pystr) (delay : float) (e : exn)
    (unit address count : Z) (w : world Client (list probe_result)) :
  sleep_error delay = Some e →
  ∃ w', probe_attempt read_holding_registers read_input_registers sleep_error
          kind delay unit address count w = (Raise e, w')
        ∧ attempts (trace w') = attempts (trace w) ++ [(unit, address, count)].
Proof.
  intros Hsleep. unfold probe_result in *.
  unfold probe_attempt, mbind, io_bind, try_except, read_registers,
    call, time_sleep, raise.
  rewrite Hsleep.
  destruct (bool_decide (kind = lit "holding")); cbv beta iota.
  - destruct (read_holding_registers address count unit (device w))
      as [[[[[|]|] [[|r rs]|]]|e'] d]; simpl;
      try (destruct (pretty_candidates_total (r :: rs)) as [cand Hcand];
           rewrite Hcand; simpl);
      try (destruct e'; simpl);
      eexists; (split; [reflexivity|]); simpl;
      rewrite ?attempts_app; simpl; rewrite ?app_nil_r; done.
  - destruct (read_input_registers address count unit (device w))
      as [[[[[|]|] [[|r rs]|]]|e'] d]; simpl;
      try (destruct (pretty_candidates_total (r :: rs)) as [cand Hcand];
           rewrite Hcand; simpl);
      try (destruct e'; simpl);
      eexists; (split; [reflexivity|]); simpl;
      rewrite ?attempts_app; simpl; rewrite ?app_nil_r; done.
Qed.

(** X9. The sleep is outside the [try]: with a delay that [time.sleep]
    rejects and a sweep that is not empty, [probe] raises the error of
    [time.sleep] after one read, that of the first triple, whatever that
    read gave. *)
Theorem probe_rejected_delay_stops_after_first_read (unit : Z) (units : list Z)
    (lo hi : Z) (count : Z) (counts : list Z) (delay : float) (e : exn)
    (kind : pystr) (client : Client) :
  sleep_error delay = Some e →
  lo ≤ hi →
  ∃ w',
    probe read_holding_registers read_input_registers sleep_error
      (unit :: units) lo hi (count :: counts) delay kind (World client [] [])
    = (Raise e, w')
    ∧ attempts (trace w') = [(unit, lo, count)].
Proof.
  intros Hsleep Hlo. unfold probe. rewrite py_range_seqZ.
  assert (Hseq : seqZ lo (hi - lo + 1) = lo :: seqZ (lo + 1) (hi - lo)).
  { rewrite seqZ_cons by lia. f_equal. f_equal; lia. }
  rewrite Hseq.
  destruct (probe_attempt_rejected kind delay e unit lo count
              (World client [] []) Hsleep) as (w' & Hrun & Hatt).
  exists w'. split; [|done].
  unfold mbind at 1 2, io_bind at 1 2, set_locals. cbn [device trace io_for].
  unfold mbind at 1, io_bind at 1. unfold mbind at 1, io_bind at 1.
  unfold mbind at 1, io_bind at 1. by rewrite Hrun.
Qed.

(** X10. A sweep without triples (no unit, no count, or an address range that
    ends before it starts) returns an empty list and calls neither the
    device nor [time.sleep], whatever the delay. *)
Theorem probe_empty_sweep_reads_nothing (units : list Z) (lo hi : Z)
    (counts : list Z) (delay : float) (kind : pystr)
    (w : world Client (list probe_result)) :
  sweep_triples units lo hi counts = [] →
  probe read_holding_registers read_input_registers sleep_error
    units lo hi counts delay kind w
  = (Ok [], World (device w) [] (trace w)).
Proof.
  intros Hempty. unfold probe. rewrite py_range_seqZ.
  assert (Hskip : ∀ {X} (xs : list X) (body : X → io _ ()),
            (∀ x w, x ∈ xs → body x w = (Ok tt, w)) →
            ∀ w : world Client (list probe_result), io_for xs body w = (Ok tt, w)).
  { intros X xs body Hbody. induction xs as [|x xs IH]; intros w1; [done|].
    cbn [io_for]. unfold mbind, io_bind. rewrite Hbody by left.
    apply IH. intros x' w' Hin. apply Hbody. by right. }
  unfold mbind, io_bind, set_locals.
  rewrite Hskip; [done|].
  intros unit w1 Hunit. apply Hskip. intros address w2 Haddress.
  apply Hskip. intros count w3 Hcount. exfalso.
  assert (Hin : (unit, address, count) ∈ sweep_triples units lo hi counts).
  { unfold sweep_triples. apply list_elem_of_bind. exists unit. split; [|done].
    apply list_elem_of_bind. exists address. split; [|done].
    apply list_elem_of_bind. exists count. split; [|done]. by left. }
  rewrite Hempty in Hin. by apply elem_of_nil in Hin.
Qed.
End ProbeEdges.

Lemma probe_records_every_usable_read_witness :
  ∃ w',
    probe (fixed_frame [7; 8]) (fixed_frame []) sleep_any [1; 2] 0 0 [2]
      float_half (lit "holding") (World tt [] [])
    = (Ok [(1, 0, 2, [7; 8]); (2, 0, 2, [7; 8])], w').
Proof.
  apply (probe_records_every_usable_read (fixed_frame [7; 8]) (fixed_frame [])
           sleep_any [1; 2] 0 0 [2] float_half (lit "holding") tt);
    [reflexivity|by intros ? ? ? []].
Defined.

Lemma probe_rejected_delay_stops_after_first_read_witness :
  ∃ w',
    probe (fixed_frame [7; 8]) (fixed_frame []) sleep_nonnegative
      [1; 2] 0 3 [2; 4] (S754_finite true 4503599627370496 (-52))
      (lit "holding") (World tt [] [])
    = (Raise ValueError, w')
    ∧ attempts (trace w') = [(1, 0, 2)].
Proof.
  apply (probe_rejected_delay_stops_after_first_read (fixed_frame [7; 8])
           (fixed_frame []) sleep_nonnegative 1 [2] 0 3 2 [4]
           (S754_finite true 4503599627370496 (-52)) ValueError (lit "holding") tt);
    [reflexivity|lia].
Defined.

Lemma probe_empty_sweep_reads_nothing_witness :
  probe (fixed_frame [7; 8]) (fixed_frame []) sleep_nonnegative
    [1; 2] 5 4 [2] (S754_finite true 4503599627370496 (-52)) (lit "holding")
    (World tt [(9, 9, 9, [9])] [])
  = (Ok [], World tt [] []).
Proof.
  apply (probe_empty_sweep_reads_nothing (fixed_frame [7; 8]) (fixed_frame [])
           sleep_nonnegative [1; 2] 5 4 [2]
           (S754_finite true 4503599627370496 (-52)) (lit "holding")
           (World tt [(9, 9, 9, [9])] [])).
  reflexivity.
Defined.

(** ** More on the command line *)

Lemma take_while_Forall {A} (p : A → bool) (l : list A) :
  Forall (λ x, p x = true) (take_while p l).
Proof.
  induction l as [|x l IH]; simpl; [constructor|].
  destruct (p x) eqn:E; by constructor.
Qed.

Lemma drop_while_Forall {A} (P : A → Prop) (p : A → bool) (l : list A) :
  Forall P l → Forall P (drop_while p l).
Proof.
  induction 1 as [|x l Hx Hl IH]; simpl; [constructor|].
  destruct (p x); [done|by constructor].
Qed.

Lemma digits_value_nonneg (run : pystr) :
  Forall (λ c, is_ascii_digit c || is_underscore c = true) run →
  0 ≤ digits_value run.
Proof.
  unfold digits_value. intros Hrun.
  enough (H : ∀ acc, 0 ≤ acc →
            0 ≤ foldl (λ acc c, if is_underscore c then acc
                                else 10 * acc + (Z.of_N c - 48)) acc run)
    by by apply H.
  induction Hrun as [|c run Hc _ IH]; intros acc Hacc; [done|].
  simpl. apply IH. destruct (is_underscore c) eqn:Hu; [done|].
  rewrite orb_false_r in Hc. char_cases.
Qed.

Section CommandLine.
Context `{!UnicodeData}.

Lemma ascii_transform_no_hyphen (s : pystr) :
  Forall (λ c, c ≠ ch "-") s → Forall (λ c, c ≠ ch "-") (ascii_transform s).
Proof.
  intros Hs. unfold ascii_transform. destruct (forallb is_ascii s); [done|].
  induction Hs as [|c s Hc _ IH]; simpl; [constructor|].
  destruct (c <? 127)%N; [by constructor|].
  destruct (is_space c); [constructor; [done|exact IH]|].
  destruct (to_decimal c) as [d|].
  - constructor; [|exact IH]. unfold ch. simpl. lia.
  - by repeat constructor.
Qed.

(** [int()] gives a negative number only for a text with a minus sign. *)
Lemma py_int_nonneg (s : pystr) (n : Z) :
  Forall (λ c, c ≠ ch "-") s → py_int s = Ok n → 0 ≤ n.
Proof.
  intros Hs%ascii_transform_no_hyphen. unfold py_int.
  apply (drop_while_Forall _ is_c_space) in Hs.
  destruct (drop_while is_c_space (ascii_transform s)) as [|c t] eqn:Ht.
  - done.
  - unfold take_sign.
    assert (Hc : (c =? ch "-")%N = false).
    { apply N.eqb_neq. by inversion Hs. }
    rewrite Hc. cbv zeta. clear Ht.
    set (p := λ c, is_ascii_digit c || is_underscore c).
    assert (Hrun : ∀ t', 0 ≤ digits_value (take_while p t'))
      by (intros t'; apply digits_value_nonneg, (take_while_Forall p)).
    destruct (c =? ch "+")%N.
    + specialize (Hrun t). destruct (take_while p t) as [|c1 run]; [done|].
      destruct (is_underscore c1); [done|].
      destruct (negb _); [done|].
      destruct (int_max_str_digits <? _); [done|].
      destruct (drop_while is_c_space _); [|done]. by intros [= <-].
    + specialize (Hrun (c :: t)).
      destruct (take_while p (c :: t)) as [|c1 run]; [done|].
      destruct (is_underscore c1); [done|].
      destruct (negb _); [done|].
      destruct (int_max_str_digits <? _); [done|].
      destruct (drop_while is_c_space _); [|done]. by intros [= <-].
Qed.

Lemma py_int_raises (s : pystr) (e : exn) : py_int s = Raise e → e = ValueError.
Proof.
  unfold py_int. destruct (take_sign _) as [negative t].
  destruct (take_while _ t) as [|c run]; [congruence|].
  destruct (is_underscore c); [congruence|].
  destruct (negb _); [congruence|].
  destruct (int_max_str_digits <? _); [congruence|].
  destruct (drop_while is_c_space _); [done|congruence].
Qed.

(** [s.split(sep, 1)] gives [s] back when it has no separator, and else
    what is before the first separator and what is after it. *)
Lemma py_split1_spec (sep : N) (s : pystr) :
  (py_contains sep s = false ∧ py_split1 sep s = [s])
  ∨ (∃ a b, s = a ++ sep :: b ∧ Forall (λ c, c ≠ sep) a
            ∧ py_contains sep s = true ∧ py_split1 sep s = [a; b]).
Proof.
  induction s as [|c s IH]; [by left|].
  simpl. destruct (N.eqb_spec c sep) as [->|Hne].
  - right. exists [], s. repeat split. constructor.
  - destruct IH as [[Hno ->]|(a & b & -> & Ha & Hyes & ->)].
    + left. by rewrite Hno.
    + right. exists (c :: a), b. rewrite Hyes. repeat split. by constructor.
Qed.

Lemma Forall_neq_eqb (sep : N) (s : pystr) :
  Forall (λ c, c ≠ sep) s ↔ Forall (λ c, (c =? sep)%N = false) s.
Proof. apply Forall_iff. intros c. by rewrite N.eqb_neq. Qed.

Lemma py_contains_false_iff (sep : N) (s : pystr) :
  py_contains sep s = false ↔ Forall (λ c, c ≠ sep) s.
Proof.
  unfold py_contains. induction s as [|c s IH]; simpl.
  - split; [constructor|done].
  - rewrite orb_false_iff, IH, Forall_cons, N.eqb_neq. done.
Qed.

(** X11. [parse_range] reads two decimal literals around a hyphen, each of
    at most 4300 digits, the most that [int()] converts, as the pair of
    their values; it does not compare them, so a range that ends before it
    starts is returned as written. *)
Theorem parse_range_reads_both_ends (lo_s hi_s : pystr) :
  is_decimal_literal lo_s = true → is_decimal_literal hi_s = true →
  parse_range (lo_s ++ lit "-" ++ hi_s)
  = Ok (decimal_value lo_s, decimal_value hi_s).
Proof.
  intros Hlo Hhi. unfold parse_range.
  pose proof Hlo as [_ Hlods]%is_decimal_literal_spec.
  change (lo_s ++ lit "-" ++ hi_s) with (lo_s ++ ch "-" :: hi_s).
  rewrite py_split1_app by by apply (digits_no_char "-").
  cbn [unpack2 mbind result_bind].
  rewrite (py_int_decimal lo_s Hlo). cbn [mbind result_bind].
  by rewrite (py_int_decimal hi_s Hhi).
Qed.

(** X12. An address range that [parse_range] accepts contains a hyphen, and
    its start is not negative: the text is split at its first hyphen, so a
    leading minus sign leaves an empty start. *)
Theorem parse_range_needs_hyphen_and_start (rng : pystr) (lo hi : Z) :
  parse_range rng = Ok (lo, hi) →
  py_contains (ch "-") rng = true ∧ 0 ≤ lo.
Proof.
  unfold parse_range.
  destruct (py_split1_spec (ch "-") rng) as [[_ ->]|(a & b & -> & Ha & Hyes & ->)];
    [done|].
  cbn [unpack2 mbind result_bind].
  destruct (py_int a) as [l|] eqn:Hl; [|done]. cbn [mbind result_bind].
  destruct (py_int b) as [h|]; [|done]. cbn [mbind result_bind].
  intros [= <- <-]. split; [done|]. by apply (py_int_nonneg a).
Qed.

Lemma py_for_inv {X S : Type} (P : S → Prop) (body : X → S → result S)
    (xs : list X) :
  (∀ x s s', P s → body x s = Ok s' → P s') →
  ∀ s s', P s → py_for xs body s = Ok s' → P s'.
Proof.
  intros Hbody. induction xs as [|x xs IH]; intros s s' Hs; simpl.
  - by intros [= <-].
  - destruct (body x s) as [s1|] eqn:Hx; [|done]. cbn [mbind result_bind].
    apply IH. by eapply Hbody.
Qed.

Lemma py_strip_no_hyphen (s : pystr) :
  Forall (λ c, c ≠ ch "-") s → Forall (λ c, c ≠ ch "-") (py_strip s).
Proof.
  intros Hs. unfold py_strip, strip_with.
  by apply Forall_reverse, drop_while_Forall, Forall_reverse, drop_while_Forall.
Qed.

(** X13. Whatever the text, a list that [parse_units] returns is strictly
    ascending, without duplicates, and holds no negative unit. *)
Theorem parse_units_ascending_nonnegative (units_str : pystr) (units : list Z) :
  parse_units units_str = Ok units →
  StronglySorted Z.lt units ∧ NoDup units ∧ Forall (λ u, 0 ≤ u) units.
Proof.
  unfold parse_units.
  destruct (py_for _ _ _) as [l|e] eqn:Hloop; [|done].
  cbn [mbind result_bind]. intros [= <-].
  destruct (sorted_set_spec l) as (Hsorted & Hnd & Hin).
  split; [done|]. split; [done|].
  assert (Hl : Forall (λ u, 0 ≤ u) l).
  { revert Hloop. apply py_for_inv; [|constructor].
    intros part acc acc' Hacc. cbv zeta.
    destruct (py_split1_spec (ch "-") (py_strip part))
      as [[Hno Hsplit]|(a & b & Heq & Ha & Hyes & Hsplit)].
    - rewrite Hno. destruct (py_int (py_strip part)) as [n|] eqn:Hn; [|done].
      cbn [mbind result_bind]. intros [= <-].
      apply Forall_app. split; [done|]. repeat constructor.
      apply (py_int_nonneg (py_strip part)); [|done].
      by apply py_contains_false_iff.
    - rewrite Hyes, Hsplit. cbn [unpack2 mbind result_bind].
      destruct (py_int a) as [lo|] eqn:Hlo; [|done]. cbn [mbind result_bind].
      destruct (py_int b) as [hi|]; [|done]. cbn [mbind result_bind].
      intros [= <-]. apply Forall_app. split; [done|].
      rewrite py_range_seqZ. apply Forall_forall. intros u Hu%elem_of_seqZ.
      pose proof (py_int_nonneg a lo Ha Hlo). lia. }
  apply Forall_forall. intros u Hu%Hin. rewrite Forall_forall in Hl. by apply Hl.
Qed.

Lemma py_strip_blank (s : pystr) :
  Forall (λ c, is_space c = true) s → py_strip s = [].
Proof. intros Hs. unfold py_strip, strip_with. by rewrite (drop_while_all is_space s Hs). Qed.

Lemma py_for_app {X S : Type} (body : X → S → result S) (xs ys : list X) (s : S) :
  py_for (xs ++ ys) body s = py_for xs body s ≫= py_for ys body.
Proof.
  revert s. induction xs as [|x xs IH]; intros s; [done|].
  simpl. destruct (body x s); [apply IH|done].
Qed.

Lemma py_for_raises {X S : Type} (body : X → S → result S) (xs : list X) (e0 : exn) :
  (∀ x s e, body x s = Raise e → e = e0) →
  ∀ s e, py_for xs body s = Raise e → e = e0.
Proof.
  intros Hbody. induction xs as [|x xs IH]; intros s e; [done|].
  simpl. destruct (body x s) as [s1|e1] eqn:Hx; cbn [mbind result_bind].
  - apply IH.
  - intros [= <-]. by eapply Hbody.
Qed.

Lemma space_not_char (a : ascii) (s : pystr) :
  is_space (ch a) = false →
  Forall (λ c, is_space c = true) s → Forall (λ c, (c =? ch a)%N = false) s.
Proof.
  intros Ha Hs. eapply Forall_impl; [exact Hs|].
  intros c Hc. apply N.eqb_neq. intros ->. congruence.
Qed.

(** X14. [parse_units] raises [ValueError] on a unit text with an item that is
    empty or blank, such as the empty text, a trailing comma or two commas
    in a row, whatever the other items are. *)
Theorem parse_units_blank_item_raises (before after : list pystr) (blank : pystr) :
  Forall (Forall (λ c, c ≠ ch ",")) (before ++ after) →
  Forall (λ c, is_space c = true) blank →
  parse_units (py_join (lit ",") (before ++ blank :: after)) = Raise ValueError.
Proof.
  intros Hparts Hblank. unfold parse_units.
  change (lit ",") with [ch ","].
  rewrite py_split_join.
  2: by destruct before.
  2: { apply Forall_app in Hparts as [Hb Ha]. apply Forall_app. split.
       - eapply Forall_impl; [exact Hb|]. intros p. apply Forall_neq_eqb.
       - constructor; [by apply (space_not_char ",")|].
         eapply Forall_impl; [exact Ha|]. intros p. apply Forall_neq_eqb. }
  rewrite py_for_app.
  match goal with
  | |- context [py_for before ?b []] => set (body := b)
  end.
  assert (Hraise : ∀ x s e, body x s = Raise e → e = ValueError).
  { intros part acc e. unfold body. cbv zeta.
    destruct (py_split1_spec (ch "-") (py_strip part))
      as [[Hno Hsplit]|(a & b & Heq & Ha & Hyes & Hsplit)].
    - rewrite Hno. destruct (py_int (py_strip part)) as [n|] eqn:Hn; [done|].
      cbn [mbind result_bind]. intros [= <-]. by eapply py_int_raises.
    - rewrite Hyes, Hsplit. cbn [unpack2 mbind result_bind].
      destruct (py_int a) as [lo|] eqn:Hlo; cbn [mbind result_bind];
        [|intros [= <-]; by eapply py_int_raises].
      destruct (py_int b) as [hi|] eqn:Hhi; cbn [mbind result_bind]; [done|].
      intros [= <-]. by eapply py_int_raises. }
  destruct (py_for before body []) as [acc|e] eqn:Hbefore; cbn [mbind result_bind].
  - assert (Hb : body blank acc = Raise ValueError).
    { unfold body. cbv zeta. by rewrite (py_strip_blank blank Hblank). }
    cbn [py_for]. by rewrite Hb.
  - by rewrite (py_for_raises body before ValueError Hraise [] e Hbefore).
Qed.

(** X15. On a text whose items are decimal literals of at most 4300
    digits, the most that [int()] converts, or empty or blank,
    [parse_counts] skips the items that are empty or blank and returns the
    values of the literals in the order written, duplicates kept. *)
Theorem parse_counts_skips_blank_items (items : list pystr) :
  items ≠ [] →
  Forall (λ it, is_decimal_literal it = true ∨ Forall (λ c, is_space c = true) it)
         items →
  parse_counts (py_join (lit ",") items)
  = Ok (items ≫= λ it, if is_decimal_literal it then [decimal_value it] else []).
Proof.
  intros Hne Hitems. unfold parse_counts.
  change (lit ",") with [ch ","].
  rewrite py_split_join; [|done|].
  2: { eapply Forall_impl; [exact Hitems|].
       intros it [[_ Hds]%is_decimal_literal_spec|Hblank].
       - by apply (digits_no_char ",").
       - by apply (space_not_char ","). }
  rewrite <- (list_fmap_id items) at 1.
  rewrite (py_for_append id
             (λ it, if is_decimal_literal it then [decimal_value it] else [])).
  - done.
  - eapply Forall_impl; [exact Hitems|]. intros it Hit acc. unfold id.
    destruct (is_decimal_literal it) eqn:Hlit.
    + pose proof Hlit as [Hn Hds]%is_decimal_literal_spec.
      assert (Hstrip : py_strip it = it).
      { apply strip_with_none. eapply Forall_impl; [exact Hds|].
        intros c. apply digit_not_space. }
      rewrite Hstrip. destruct it; [done|]. cbn [py_list_bool].
      by rewrite py_int_decimal.
    + destruct Hit as [?|Hblank]; [congruence|].
      rewrite (py_strip_blank it Hblank). cbn [py_list_bool].
      by rewrite app_nil_r.
Qed.
End CommandLine.

Section CommandLineExamples.
Local Existing Instance ascii_only.

Lemma parse_range_reads_both_ends_witness :
  parse_range (lit "20-0") = Ok (20, 0).
Proof.
  apply (parse_range_reads_both_ends (lit "20") (lit "0")); reflexivity.
Defined.

Lemma parse_range_needs_hyphen_and_start_witness :
  parse_range (lit " 7 --3") = Ok (7, -3)
  ∧ py_contains (ch "-") (lit " 7 --3") = true ∧ 0 ≤ 7.
Proof.
  split; [reflexivity|].
  apply (parse_range_needs_hyphen_and_start (lit " 7 --3") 7 (-3)). reflexivity.
Defined.

Lemma parse_units_ascending_nonnegative_witness :
  parse_units (lit "3 , 2-4,1,5--1,+3") = Ok [1; 2; 3; 4]
  ∧ StronglySorted Z.lt [1; 2; 3; 4] ∧ NoDup [1; 2; 3; 4]
  ∧ Forall (λ u, 0 ≤ u) [1; 2; 3; 4].
Proof.
  split; [reflexivity|].
  apply (parse_units_ascending_nonnegative (lit "3 , 2-4,1,5--1,+3")). reflexivity.
Defined.

Lemma parse_units_blank_item_raises_witness :
  parse_units (lit "1,2, ,3") = Raise ValueError.
Proof.
  apply (parse_units_blank_item_raises [lit "1"; lit "2"] [lit "3"] (lit " ")).
  - repeat constructor; discriminate.
  - repeat constructor.
Defined.

Lemma parse_counts_skips_blank_items_witness :
  parse_counts (lit "4,, ,1,4,") = Ok [4; 1; 4].
Proof.
  apply (parse_counts_skips_blank_items
           [lit "4"; []; lit " "; lit "1"; lit "4"; []]).
  - discriminate.
  - repeat constructor; first [by left|right; repeat constructor].
Defined.
End CommandLineExamples.

(** ** More on the Modbus polling loop *)

Section ModbusLoopMore.
Context `{!UnicodeData}.
Context {Client : Type}.
Context (read_holding_registers read_input_registers :
           Z → Z → Z → Client → result response * Client).

Lemma read_weight_pass_returns (env : environ) (w : world Client ()) :
  ∃ (w' : world Client ()) (evs : list event),
    read_weight_pass read_holding_registers read_input_registers env w
    = (Ok tt, w')
    ∧ trace w' = trace w ++ evs
    ∧ pass_events evs.
Proof.
  unfold read_weight_pass, try_except, mbind, io_bind, lift, mret, io_ret, emit.
  destruct (py_int (py_strip (getenv env "WEIGHBRIDGE_ADDRESS" (lit "0"))))
    as [address|e]; cbn [trace];
    [|eexists _, _; split; [reflexivity|]; cbn [trace];
      rewrite <- app_assoc; split; [reflexivity|constructor]].
  destruct (py_int (py_strip (getenv env "WEIGHBRIDGE_COUNT" (lit "2"))))
    as [count|e]; cbn [trace];
    [|eexists _, _; split; [reflexivity|]; cbn [trace];
      rewrite <- app_assoc; split; [reflexivity|constructor]].
  destruct (py_int (py_strip (getenv env "WEIGHBRIDGE_SLAVE_ID" (lit "1"))))
    as [unit|e]; cbn [trace];
    [|eexists _, _; split; [reflexivity|]; cbn [trace];
      rewrite <- app_assoc; split; [reflexivity|constructor]].
  unfold read_registers, call, isError, registers_of.
  destruct (bool_decide _);
    [destruct (read_input_registers address count unit (device w))
       as [[[[[|]|] [registers|]]|e] d]
    |destruct (read_holding_registers address count unit (device w))
       as [[[[[|]|] [registers|]]|e] d]];
    cbn [resp_isError resp_registers trace device locals];
    try (destruct (0 <? Z.of_nat (length registers));
         [destruct (py_getitem registers 0) as [raw|]|];
         try destruct (py_float _) as [divisor|];
         try destruct (float_of_int _) as [x|];
         try destruct (float_truediv _ _) as [weight|];
         cbn [trace device locals]);
    eexists _, _; (split; [reflexivity|]); cbn [trace];
    rewrite <- !app_assoc; (split; [reflexivity|constructor]).
Qed.

(** X16. [read_weight_loop] never raises, whatever the settings hold and the
    device does. Each pass makes at most one read and ends with exactly one
    sleep: it hands over one sample and sleeps half a second, or prints one
    message and sleeps one second. After the last pass the status is set to
    "Status: Disconnected", once. *)
Theorem read_weight_loop_returns (cycles : nat) (env : environ)
    (w : world Client ()) :
  ∃ (w' : world Client ()) (passes : list (list event)),
    read_weight_loop read_holding_registers read_input_registers cycles env w
    = (Ok tt, w')
    ∧ length passes = cycles
    ∧ Forall pass_events passes
    ∧ trace w' = trace w ++ concat passes ++ [disconnected].
Proof.
  revert w. induction cycles as [|cycles IH]; intros w.
  - exists (World (device w) (locals w) (trace w ++ [disconnected])), [].
    repeat split. constructor.
  - destruct (read_weight_pass_returns env w) as (w1 & evs & Hpass & Htr1 & Hev).
    destruct (IH w1) as (w2 & passes & Hloop & Hlen & Hall & Htr2).
    exists w2, (evs :: passes). split; [|split; [|split]].
    + cbn [read_weight_loop]. unfold mbind, io_bind. by rewrite Hpass.
    + cbn [length]. by rewrite Hlen.
    + by constructor.
    + cbn [concat]. by rewrite Htr2, Htr1, <- !app_assoc.
Qed.

(** X17. When the read returns an error response, the pass prints it, sleeps
    one second and hands over no sample; the registers and the scale
    divisor are not looked at, so the pass goes the same way with a divisor
    that does not parse. *)
Theorem poll_error_response_prints_and_waits (env : environ)
    (client client' : Client) (kind : register_kind) (address count unit : Z)
    (resp : response) :
  configured_read env = Ok (kind, address, count, unit) →
  read_with read_holding_registers read_input_registers kind
    address count unit client = (Ok resp, client') →
  resp_isError resp = Some true →
  read_weight_pass read_holding_registers read_input_registers env
    (World client tt [])
  = (Ok tt,
     World client' tt
       [EvRead kind address count unit; EvPrint (ModbusErrorLine resp);
        EvSleep float_one]).
Proof.
  intros Hcfg Hread Herr. unfold configured_read in Hcfg.
  unfold read_weight_pass, try_except, mbind, io_bind, lift, mret, io_ret.
  destruct (py_int (py_strip (getenv env "WEIGHBRIDGE_ADDRESS" (lit "0"))))
    as [address'|]; [|done].
  destruct (py_int (py_strip (getenv env "WEIGHBRIDGE_COUNT" (lit "2"))))
    as [count'|]; [|done].
  destruct (py_int (py_strip (getenv env "WEIGHBRIDGE_SLAVE_ID" (lit "1"))))
    as [unit'|]; [|done].
  cbn [mbind result_bind] in Hcfg. injection Hcfg as <- <- <- <-.
  unfold read_registers, call, isError.
  destruct (bool_decide _); cbn [device locals trace] in *;
    simpl in Hread; rewrite Hread, Herr; reflexivity.
Qed.

(** X18. When the address, the count or the unit id does not parse, the pass
    reads nothing from the device: it prints the error and sleeps one
    second. *)
Theorem poll_bad_request_setting_reads_nothing (env : environ) (e : exn)
    (w : world Client ()) :
  configured_read env = Raise e →
  read_weight_pass read_holding_registers read_input_registers env w
  = (Ok tt,
     World (device w) (locals w)
       (trace w ++ [EvPrint (WeightReadingErrorLine e); EvSleep float_one])).
Proof.
  intros Hcfg. unfold configured_read in Hcfg.
  unfold read_weight_pass, try_except, mbind, io_bind, lift, mret, io_ret, emit.
  destruct (py_int (py_strip (getenv env "WEIGHBRIDGE_ADDRESS" (lit "0"))))
    as [address|e1]; cbn [mbind result_bind] in Hcfg.
  2: { injection Hcfg as ->. cbn [device locals trace]. by rewrite <- app_assoc. }
  destruct (py_int (py_strip (getenv env "WEIGHBRIDGE_COUNT" (lit "2"))))
    as [count|e1]; cbn [mbind result_bind] in Hcfg.
  2: { injection Hcfg as ->. cbn [device locals trace]. by rewrite <- app_assoc. }
  destruct (py_int (py_strip (getenv env "WEIGHBRIDGE_SLAVE_ID" (lit "1"))))
    as [unit|e1]; cbn [mbind result_bind] in Hcfg.
  2: { injection Hcfg as ->. cbn [device locals trace]. by rewrite <- app_assoc. }
  done.
Qed.

(** X19. The scale divisor is parsed after the read: when it does not parse,
    a pass whose read succeeded has read the device all the same, and then
    prints the error, sleeps one second and hands over no sample. *)
Theorem poll_bad_divisor_reads_then_reports (env : environ)
    (client client' : Client) (kind : register_kind) (address count unit : Z)
    (resp : response) (registers : list Z) (e : exn) :
  configured_read env = Ok (kind, address, count, unit) →
  read_with read_holding_registers read_input_registers kind
    address count unit client = (Ok resp, client') →
  resp_isError resp = Some false →
  resp_registers resp = Some registers →
  configured_divisor env = Raise e →
  read_weight_pass read_holding_registers read_input_registers env
    (World client tt [])
  = (Ok tt,
     World client' tt
       [EvRead kind address count unit; EvPrint (WeightReadingErrorLine e);
        EvSleep float_one]).
Proof.
  intros Hcfg Hread Herr Hregs Hdiv.
  unfold configured_read in Hcfg. unfold configured_divisor in Hdiv.
  unfold read_weight_pass, try_except, mbind, io_bind, lift, mret, io_ret.
  destruct (py_int (py_strip (getenv env "WEIGHBRIDGE_ADDRESS" (lit "0"))))
    as [address'|]; [|done].
  destruct (py_int (py_strip (getenv env "WEIGHBRIDGE_COUNT" (lit "2"))))
    as [count'|]; [|done].
  destruct (py_int (py_strip (getenv env "WEIGHBRIDGE_SLAVE_ID" (lit "1"))))
    as [unit'|]; [|done].
  cbn [mbind result_bind] in Hcfg. injection Hcfg as <- <- <- <-.
  unfold read_registers, call, isError, registers_of.
  assert (Hraw : ∃ raw, (if 0 <? Z.of_nat (length registers)
                         then py_getitem registers 0 else Ok 0) = Ok raw).
  { destruct registers as [|r rs]; [by exists 0|]. exists r.
    unfold py_getitem. cbn [length]. rewrite Nat2Z.inj_succ.
    destruct (Z.ltb_spec 0 (Z.succ (Z.of_nat (length rs)))); [|lia].
    cbn. destruct (Z.ltb_spec 0 (Z.succ (Z.of_nat (length rs)))); [done|lia]. }
  destruct Hraw as [raw Hraw].
  destruct (bool_decide _); cbn [device locals trace] in *;
    simpl in Hread; rewrite Hread, Herr, Hregs;
    (destruct (0 <? Z.of_nat (length registers));
     [rewrite Hraw|]; rewrite Hdiv; reflexivity).
Qed.
End ModbusLoopMore.

Section ModbusLoopMoreExamples.
Local Existing Instance ascii_only.

Lemma poll_error_response_prints_and_waits_witness :
  read_weight_pass (fixed_response (Response (Some true) None))
    (fixed_response (Response (Some true) None))
    (env_divisor (lit "none")) (World tt tt [])
  = (Ok tt,
     World tt tt
       [EvRead Holding 0 2 1; EvPrint (ModbusErrorLine (Response (Some true) None));
        EvSleep float_one]).
Proof.
  exact (poll_error_response_prints_and_waits
           (fixed_response (Response (Some true) None))
           (fixed_response (Response (Some true) None))
           (env_divisor (lit "none")) tt tt Holding 0 2 1
           (Response (Some true) None) eq_refl eq_refl eq_refl).
Defined.

Lemma poll_bad_request_setting_reads_nothing_witness :
  read_weight_pass (fixed_frame [1234]) (fixed_frame [1234])
    {[ "WEIGHBRIDGE_COUNT"%string := lit "two" ]} (World tt tt [])
  = (Ok tt,
     World tt tt [EvPrint (WeightReadingErrorLine ValueError); EvSleep float_one]).
Proof.
  exact (poll_bad_request_setting_reads_nothing
           (fixed_frame [1234]) (fixed_frame [1234])
           {[ "WEIGHBRIDGE_COUNT"%string := lit "two" ]} ValueError
           (World tt tt []) eq_refl).
Defined.

Lemma poll_bad_divisor_reads_then_reports_witness :
  read_weight_pass (fixed_frame [1234]) (fixed_frame [1234])
    (env_divisor (lit "1,5")) (World tt tt [])
  = (Ok tt,
     World tt tt
       [EvRead Holding 0 2 1; EvPrint (WeightReadingErrorLine ValueError);
        EvSleep float_one]).
Proof.
  exact (poll_bad_divisor_reads_then_reports
           (fixed_frame [1234]) (fixed_frame [1234]) (env_divisor (lit "1,5"))
           tt tt Holding 0 2 1 (Response (Some false) (Some [1234])) [1234]
           ValueError eq_refl eq_refl eq_refl eq_refl eq_refl).
Defined.
End ModbusLoopMoreExamples.


(** ** More on the ASCII line loop *)

Section AsciiLoopMore.
Context `{!UnicodeData}.
Context {Serial : Type}.
Context (readline : Serial → result bytes * Serial).
Context (re_compile_custom : pystr → result pattern).

Lemma read_weight_ascii_pass_returns (cfg : ascii_config)
    (w : world Serial ()) :
  ∃ (w' : world Serial ()) (evs : list event),
    read_weight_ascii_pass readline cfg w = (Ok tt, w')
    ∧ device w' = (readline (device w)).2
    ∧ trace w' = trace w ++ evs
    ∧ ascii_pass_events (cfg_unit cfg) evs.
Proof.
  unfold read_weight_ascii_pass, try_except, mbind, io_bind, call, lift, mret,
    io_ret, emit, raise.
  destruct (readline (device w)) as [[data|e] serial']; cbn [snd device locals trace].
  2: { eexists _, _. split; [reflexivity|]. cbn [device trace].
       rewrite <- !app_assoc. repeat split. constructor. }
  destruct (negb (py_list_bool data)).
  { eexists _, _. split; [reflexivity|]. cbn [device trace]. repeat split.
    constructor. }
  destruct (cfg_pattern cfg _) as [|[[value_str|]|e]]; cbn [device locals trace].
  1, 4: eexists _, _; (split; [reflexivity|]); cbn [device trace];
        rewrite <- ?app_assoc; repeat split; constructor.
  - cbn [float_of_group].
    destruct (py_float value_str) as [value|[]]; cbn [device locals trace];
      try (destruct (float_bool (cfg_divisor cfg)
                     && negb (float_eqb (cfg_divisor cfg) float_one));
           [destruct (float_truediv value (cfg_divisor cfg))|];
           cbn [device locals trace]);
      eexists _, _; (split; [reflexivity|]); cbn [device trace];
      rewrite <- ?app_assoc; repeat split; constructor.
  - cbn [float_of_group device locals trace].
    eexists _, _; (split; [reflexivity|]); cbn [device trace];
      rewrite <- ?app_assoc; repeat split; constructor.
Qed.


(** X20. Once its settings are read, [read_weight_ascii_loop] never raises,
    whatever the port does. Each pass asks the port for one line and then
    does nothing more, or hands over one text with the configured unit, or
    sleeps 0.2 seconds; it prints nothing. After the last pass the status
    is set to "Status: Disconnected", once. *)
Theorem read_weight_ascii_loop_returns (cycles : nat) (env : environ)
    (weight_unit : pystr) (cfg : ascii_config) (w : world Serial ()) :
  read_weight_ascii_setup re_compile_custom env weight_unit = Ok cfg →
  ∃ (w' : world Serial ()) (passes : list (list event)),
    read_weight_ascii_loop readline re_compile_custom cycles env weight_unit w
    = (Ok tt, w')
    ∧ length passes = cycles
    ∧ Forall (ascii_pass_events (cfg_unit cfg)) passes
    ∧ trace w' = trace w ++ concat passes ++ [disconnected].
Proof.
  intros Hsetup. unfold read_weight_ascii_loop, mbind at 1, io_bind at 1, lift.
  rewrite Hsetup. clear Hsetup. revert w.
  induction cycles as [|cycles IH]; intros w.
  - exists (World (device w) (locals w) (trace w ++ [disconnected])), [].
    repeat split. constructor.
  - destruct (read_weight_ascii_pass_returns cfg w)
      as (w1 & evs & Hpass & _ & Htr1 & Hev).
    destruct (IH w1) as (w2 & passes & Hloop & Hlen & Hall & Htr2).
    exists w2, (evs :: passes). split; [|split; [|split]].
    + cbn [read_weight_ascii_passes]. unfold mbind, io_bind. by rewrite Hpass.
    + cbn [length]. by rewrite Hlen.
    + by constructor.
    + cbn [concat]. by rewrite Htr2, Htr1, <- !app_assoc.
Qed.

(** X21. The ASCII loop parses the scale divisor before its first pass and
    outside any [try]: when the divisor does not parse, the loop raises at
    once, before the pattern is compiled, without reading the port and
    without setting the status. *)
Theorem ascii_loop_bad_divisor_never_starts (cycles : nat) (env : environ)
    (weight_unit : pystr) (e : exn) (w : world Serial ()) :
  configured_divisor env = Raise e →
  read_weight_ascii_loop readline re_compile_custom cycles env weight_unit w
  = (Raise e, w).
Proof.
  intros Hdiv. unfold configured_divisor in Hdiv.
  unfold read_weight_ascii_loop, read_weight_ascii_setup, mbind at 1,
    io_bind at 1, lift.
  by rewrite Hdiv.
Qed.

(** X22. When the pattern matches but [m.group(1)] raises or is [None], as
    for a pattern without a group, the pass hands over nothing and sleeps
    0.2 seconds. *)
Theorem ascii_pattern_without_group_sleeps (cfg : ascii_config)
    (serial serial' : Serial) (data : bytes) (group1 : result (option pystr)) :
  readline serial = (Ok data, serial') →
  data ≠ [] →
  cfg_pattern cfg (py_strip (utf8_decode_ignore data)) = Match group1 →
  (∀ value_str, group1 ≠ Ok (Some value_str)) →
  read_weight_ascii_pass readline cfg (World serial tt [])
  = (Ok tt, World serial' tt [EvReadline; EvSleep float_fifth]).
Proof.
  intros Hline Hdata Hmatch Hgroup.
  unfold read_weight_ascii_pass, try_except, mbind, io_bind, call, lift,
    mret, io_ret.
  cbn [device locals trace]. rewrite Hline.
  destruct data as [|b data]; [done|]. cbn [py_list_bool negb].
  rewrite Hmatch. destruct group1 as [[value_str|]|e1]; [by destruct (Hgroup value_str)|..];
    reflexivity.
Qed.

(** X23. With a scale divisor other than 0 and 1, the text handed over is
    that of the parsed value divided by the divisor. *)
Theorem ascii_divisor_divides_value (cfg : ascii_config)
    (serial serial' : Serial) (data : bytes) (value_str : pystr)
    (value : float) :
  float_eqb (cfg_divisor cfg) float_zero = false →
  float_eqb (cfg_divisor cfg) float_one = false →
  readline serial = (Ok data, serial') →
  data ≠ [] →
  cfg_pattern cfg (py_strip (utf8_decode_ignore data))
  = Match (Ok (Some value_str)) →
  py_float value_str = Ok value →
  read_weight_ascii_pass readline cfg (World serial tt [])
  = (Ok tt,
     World serial' tt
       [EvReadline;
        EvAfter (ConfigWeightDisplay
                   (display_of (cfg_decimals_env cfg)
                      (SFdiv prec emax value (cfg_divisor cfg)))
                   (cfg_unit cfg))]).
Proof.
  intros Hzero Hone Hline Hdata Hmatch Hvalue.
  unfold read_weight_ascii_pass, try_except, mbind, io_bind, call, lift,
    mret, io_ret.
  cbn [device locals trace]. rewrite Hline.
  destruct data as [|b data]; [done|]. cbn [py_list_bool negb].
  rewrite Hmatch. cbn [float_of_group]. rewrite Hvalue.
  unfold float_bool, float_truediv. rewrite Hzero, Hone. reflexivity.
Qed.
End AsciiLoopMore.

Section AsciiLoopMoreExamples.
Local Existing Instance ascii_only.

Lemma read_weight_ascii_loop_returns_witness :
  ∃ (w' : world (list bytes) ()) (passes : list (list event)),
    read_weight_ascii_loop queued_lines no_custom_pattern 3 ∅ (lit "kg")
      (World [example_line; lit "ready"] tt [])
    = (Ok tt, w')
    ∧ length passes = 3%nat
    ∧ Forall (ascii_pass_events (lit "kg")) passes
    ∧ trace w' = [] ++ concat passes ++ [disconnected].
Proof.
  apply (read_weight_ascii_loop_returns queued_lines no_custom_pattern 3 ∅
           (lit "kg") (AsciiConfig default_pattern (lit "kg") (lit "auto") float_one)
           (World [example_line; lit "ready"] tt [])).
  reflexivity.
Defined.

Lemma ascii_loop_bad_divisor_never_starts_witness :
  read_weight_ascii_loop queued_lines no_custom_pattern 3
    (env_divisor (lit "1/10")) (lit "kg") (World [example_line] tt [])
  = (Raise ValueError, World [example_line] tt []).
Proof.
  apply (ascii_loop_bad_divisor_never_starts queued_lines no_custom_pattern 3
           (env_divisor (lit "1/10")) (lit "kg") ValueError
           (World [example_line] tt [])).
  reflexivity.
Defined.

Lemma ascii_pattern_without_group_sleeps_witness :
  read_weight_ascii_pass queued_lines
    (AsciiConfig no_group_pattern (lit "kg") (lit "auto") float_one)
    (World [example_line] tt [])
  = (Ok tt, World [] tt [EvReadline; EvSleep float_fifth]).
Proof.
  apply (ascii_pattern_without_group_sleeps queued_lines
           (AsciiConfig no_group_pattern (lit "kg") (lit "auto") float_one)
           [example_line] [] example_line (Raise IndexError)).
  - reflexivity.
  - discriminate.
  - reflexivity.
  - discriminate.
Defined.

Lemma ascii_divisor_divides_value_witness :
  read_weight_ascii_pass queued_lines
    (AsciiConfig default_pattern (lit "kg") (lit "3") float_hundred)
    (World [example_line] tt [])
  = (Ok tt,
     World [] tt [EvReadline; EvAfter (ConfigWeightDisplay (lit "0.123") (lit "kg"))]).
Proof.
  apply (ascii_divisor_divides_value queued_lines
           (AsciiConfig default_pattern (lit "kg") (lit "3") float_hundred)
           [example_line] [] example_line (lit "+00012.34")
           (S754_finite false 6946802425218990 (-49))).
  - reflexivity.
  - reflexivity.
  - reflexivity.
  - discriminate.
  - vm_compute. reflexivity.
  - vm_compute. reflexivity.
Defined.
End AsciiLoopMoreExamples.

(** *** The default pattern *)

Lemma utf8_decode_ignore_ascii (data : bytes) :
  forallb is_ascii data = true → utf8_decode_ignore data = data.
Proof.
  induction data as [|b data IH]; [done|].
  cbn [forallb]. intros [Hb Hdata]%andb_true_iff.
  cbn [utf8_decode_ignore]. unfold is_ascii in Hb.
  change (b <? 0x80)%N with (b <? 128)%N. rewrite Hb. by rewrite IH.
Qed.

Lemma take_while_ext {A} (p q : A → bool) (l : list A) :
  Forall (λ x, p x = q x) l → take_while p l = take_while q l.
Proof.
  induction 1 as [|x l Hx _ IH]; [done|]. simpl. by rewrite Hx, IH.
Qed.

Lemma drop_while_ext {A} (p q : A → bool) (l : list A) :
  Forall (λ x, p x = q x) l → drop_while p l = drop_while q l.
Proof.
  induction 1 as [|x l Hx _ IH]; [done|]. simpl. by rewrite Hx, IH.
Qed.

Lemma take_while_app_stop {A} (p : A → bool) (l rest : list A) :
  Forall (λ x, p x = true) l →
  match rest with [] => True | x :: _ => p x = false end →
  take_while p (l ++ rest) = l ∧ drop_while p (l ++ rest) = rest.
Proof.
  intros Hl Hrest. induction Hl as [|x l Hx _ IH]; simpl.
  - destruct rest as [|x rest]; [done|]. simpl. by rewrite Hrest.
  - rewrite Hx. destruct IH as [-> ->]. done.
Qed.

Lemma take_drop_while {A} (p : A → bool) (l : list A) :
  l = take_while p l ++ drop_while p l
  ∧ match drop_while p l with [] => True | x :: _ => p x = false end.
Proof.
  induction l as [|x l [IH1 IH2]]; [done|]. simpl.
  destruct (p x) eqn:Hx; simpl; [|done]. by rewrite <- IH1.
Qed.

Section DefaultPattern.
Context `{!UnicodeData}.

Lemma is_digit_ascii (c : N) : is_ascii c = true → is_digit c = is_ascii_digit c.
Proof.
  intros Hc. unfold is_digit, to_decimal. rewrite Hc.
  by destruct (is_ascii_digit c).
Qed.

(** A sign, digits, and perhaps a point and more digits: [float()] reads
    it. *)
Lemma py_float_number (sign ds frac : pystr) :
  sign = [] ∨ sign = [ch "-"] ∨ sign = [ch "+"] →
  ds ≠ [] →
  Forall (λ c, is_ascii_digit c = true) ds →
  (frac = [] ∨ ∃ fs, fs ≠ [] ∧ Forall (λ c, is_ascii_digit c = true) fs
                     ∧ frac = ch "." :: fs) →
  ∃ value : float, py_float (sign ++ ds ++ frac) = Ok value.
Proof.
  intros Hsign Hne Hds Hfrac.
  assert (Hfrac_chars : Forall (λ c, is_ascii_digit c = true ∨ c = ch ".") frac).
  { destruct Hfrac as [->|(fs & _ & Hfs & ->)]; [constructor|].
    constructor; [by right|]. eapply Forall_impl; [exact Hfs|]. auto. }
  assert (Hchars : Forall (λ c, is_ascii_digit c = true ∨ c = ch "."
                                ∨ c = ch "-" ∨ c = ch "+")
                     (sign ++ ds ++ frac)).
  { apply Forall_app. split.
    - destruct Hsign as [->|[->| ->]]; [constructor|..]; (constructor; [auto|constructor]).
    - apply Forall_app. split.
      + eapply Forall_impl; [exact Hds|]. auto.
      + eapply Forall_impl; [exact Hfrac_chars|]. intros c [?| ->]; auto. }
  assert (Hascii : forallb is_ascii (sign ++ ds ++ frac) = true).
  { apply forallb_forall. intros c Hc%list_elem_of_In.
    rewrite Forall_forall in Hchars.
    destruct (Hchars c Hc) as [Hd|[->|[->| ->]]]; [by apply digit_is_ascii|done..]. }
  assert (Hnospace : Forall (λ c, is_c_space c = false) (sign ++ ds ++ frac)).
  { eapply Forall_impl; [exact Hchars|].
    intros c [Hd|[->|[->| ->]]]; [by apply digit_not_c_space|done..]. }
  assert (Hnous : existsb is_underscore (sign ++ ds ++ frac) = false).
  { apply not_true_is_false. intros (c & Hc%list_elem_of_In & Hu)%existsb_exists.
    rewrite Forall_forall in Hchars.
    destruct (Hchars c Hc) as [Hd|[->|[->| ->]]]; [|done..].
    by rewrite (digit_not_underscore c Hd) in Hu. }
  unfold py_float, ascii_transform. rewrite Hascii.
  rewrite (strip_with_none _ _ Hnospace), Hnous.
  assert (Hparse : ∃ value, parse_decimal (sign ++ ds ++ frac) = Some (value, [])).
  { unfold parse_decimal.
    assert (Htake : take_sign (sign ++ ds ++ frac)
                    = (bool_decide (sign = [ch "-"]), ds ++ frac)).
    { destruct ds as [|d ds']; [done|].
      assert (Hd : is_ascii_digit d = true) by by inversion Hds.
      destruct Hsign as [->|[->| ->]]; [|done..].
      cbn [app take_sign].
      by rewrite (digit_not_char d "+" Hd eq_refl), (digit_not_char d "-" Hd eq_refl). }
    rewrite Htake.
    destruct (take_while_app_stop is_ascii_digit ds frac Hds) as [Htw Hdw].
    { destruct Hfrac as [->|(fs & _ & _ & ->)]; done. }
    rewrite Htw, Hdw.
    destruct Hfrac as [->|(fs & Hfsne & Hfs & ->)].
    - rewrite app_nil_r. destruct ds as [|d ds']; [done|].
      cbn [parse_exponent]. by eexists.
    - rewrite N.eqb_refl.
      rewrite (take_while_all _ _ Hfs), (drop_while_all _ _ Hfs).
      destruct (ds ++ fs) as [|x xs] eqn:Hcat.
      + by destruct ds.
      + cbn [parse_exponent]. by eexists. }
  destruct Hparse as [value ->]. by exists value.
Qed.

(** At the head of an ASCII text the default pattern matches a text that
    [float()] reads. *)
Lemma match_number_parses (s m : pystr) :
  forallb is_ascii s = true → match_number s = Some m →
  ∃ value : float, py_float m = Ok value.
Proof.
  intros Hs. unfold match_number.
  set (st := match s with
             | c :: t' => if (c =? ch "-")%N || (c =? ch "+")%N
                          then ([c], t') else ([], s)
             | [] => ([], s)
             end).
  assert (Hst : (st.1 = [] ∨ st.1 = [ch "-"] ∨ st.1 = [ch "+"])
                ∧ forallb is_ascii st.2 = true).
  { unfold st. destruct s as [|c t]; [by auto|].
    cbn [forallb] in Hs. apply andb_true_iff in Hs as [Hc Ht].
    destruct (N.eqb_spec c (ch "-")) as [->|_]; [by auto|].
    destruct (N.eqb_spec c (ch "+")) as [->|_]; [by auto|].
    cbn [orb fst snd forallb]. rewrite Hc, Ht. by auto. }
  destruct st as [sign t]. cbn [fst snd] in Hst. destruct Hst as [Hsign Ht].
  assert (Hall : Forall (λ c, is_digit c = is_ascii_digit c) t).
  { apply Forall_forall. intros c Hc%list_elem_of_In. apply is_digit_ascii.
    by apply (proj1 (forallb_forall _ _) Ht). }
  rewrite (take_while_ext _ _ _ Hall), (drop_while_ext _ _ _ Hall).
  destruct (take_drop_while is_ascii_digit t) as [Ht_eq Hstop].
  assert (Hds : Forall (λ c, is_ascii_digit c = true) (take_while is_ascii_digit t)).
  { clear. induction t as [|x t IH]; simpl; [constructor|].
    destruct (is_ascii_digit x) eqn:E; by constructor. }
  destruct (take_while is_ascii_digit t) as [|d ds] eqn:Htw; [done|].
  intros Hm. injection Hm as Hm. rewrite <- Hm. clear Hm.
  apply (py_float_number sign (d :: ds)); [done|done|done|].
  destruct (drop_while is_ascii_digit t) as [|c t'] eqn:Hdw; [by left|].
  repeat match goal with
         | |- context [(c =? ?x)%N] => progress change x with (ch ".")
         end.
  destruct (c =? ch ".")%N eqn:Hc; [|by left].
  apply N.eqb_eq in Hc as ->.
  assert (Ht' : forallb is_ascii t' = true).
  { rewrite Ht_eq in Ht. rewrite forallb_app in Ht.
    apply andb_true_iff in Ht as [_ Ht]. cbn [forallb] in Ht.
    by apply andb_true_iff in Ht as [_ Ht]. }
  assert (Hall' : Forall (λ c, is_digit c = is_ascii_digit c) t').
  { apply Forall_forall. intros c Hc%list_elem_of_In. apply is_digit_ascii.
    by apply (proj1 (forallb_forall _ _) Ht'). }
  rewrite (take_while_ext _ _ _ Hall').
  assert (Hfs : Forall (λ c, is_ascii_digit c = true) (take_while is_ascii_digit t')).
  { clear. induction t' as [|x t IH]; simpl; [constructor|].
    destruct (is_ascii_digit x) eqn:E; by constructor. }
  destruct (take_while is_ascii_digit t') as [|f fs]; [by left|].
  right. exists (f :: fs). done.
Qed.

Lemma match_number_none (s : pystr) :
  Forall (λ c, is_digit c = false) s → match_number s = None.
Proof.
  intros Hs. unfold match_number. destruct s as [|c t]; [done|].
  apply Forall_cons in Hs as [Hc Ht].
  destruct ((c =? ch "-")%N || (c =? ch "+")%N).
  - destruct t as [|c' t]; [done|]. apply Forall_cons in Ht as [Hc' _].
    simpl. by rewrite Hc'.
  - simpl. by rewrite Hc.
Qed.

Lemma match_number_digit (c : N) (s : pystr) :
  is_digit c = true → match_number (c :: s) ≠ None.
Proof.
  intros Hc. unfold match_number.
  assert (Hsign : (c =? ch "-")%N || (c =? ch "+")%N = false).
  { destruct (N.eqb_spec c (ch "-")) as [->|_].
    - unfold is_digit, to_decimal in Hc. done.
    - destruct (N.eqb_spec c (ch "+")) as [->|_]; [|done].
      unfold is_digit, to_decimal in Hc. done. }
  rewrite Hsign. simpl. rewrite Hc. done.
Qed.

Lemma search_number_none_iff (text : pystr) :
  search_number text = None ↔ Forall (λ c, is_digit c = false) text.
Proof.
  induction text as [|c text IH].
  - split; [constructor|done].
  - cbn [search_number]. split.
    + destruct (match_number (c :: text)) eqn:Hm; [done|].
      intros Hrest%IH. constructor; [|done].
      destruct (is_digit c) eqn:Hc; [|done].
      by destruct (match_number_digit c text Hc).
    + intros Hall. rewrite (match_number_none _ Hall).
      apply IH. by inversion Hall.
Qed.

(** X24. The default pattern finds no token in a text exactly when the text
    holds no decimal digit. *)
Theorem default_pattern_matches_iff_digit (text : pystr) :
  default_pattern text = NoMatch ↔ Forall (λ c, is_digit c = false) text.
Proof.
  rewrite <- search_number_none_iff. unfold default_pattern.
  by destruct (search_number text).
Qed.

Lemma search_number_parses (text m : pystr) :
  forallb is_ascii text = true → search_number text = Some m →
  ∃ value : float, py_float m = Ok value.
Proof.
  induction text as [|c text IH]; intros Hascii.
  - cbn [search_number]. destruct (match_number []) eqn:Hm; [|done].
    intros [= <-]. by eapply match_number_parses.
  - cbn [search_number]. destruct (match_number (c :: text)) eqn:Hm.
    + intros [= <-]. by eapply match_number_parses.
    + apply IH. cbn [forallb] in Hascii. by apply andb_true_iff in Hascii as [_ ?].
Qed.
End DefaultPattern.

Lemma py_strip_Forall (P : N → Prop) (s : pystr) :
  Forall P s → Forall P (py_strip s).
Proof.
  intros Hs. unfold py_strip, strip_with.
  by apply Forall_reverse, drop_while_Forall, Forall_reverse, drop_while_Forall.
Qed.

Lemma drop_while_keeps {A} (p : A → bool) (x : A) (l : list A) :
  p x = false → x ∈ l → x ∈ drop_while p l.
Proof.
  intros Hx. induction l as [|y l IH]; [done|].
  intros Hin. simpl. destruct (p y) eqn:Hy; [|done].
  apply elem_of_cons in Hin as [->|Hin]; [congruence|by apply IH].
Qed.

Lemma py_strip_keeps (c : N) (s : pystr) :
  is_space c = false → c ∈ s → c ∈ py_strip s.
Proof.
  intros Hc Hin. unfold py_strip, strip_with.
  by apply elem_of_reverse, drop_while_keeps, elem_of_reverse, drop_while_keeps.
Qed.

Section DefaultPatternPass.
Context `{!UnicodeData}.
Context {Serial : Type}.
Context (readline : Serial → result bytes * Serial).

(** X25. With the default pattern and a line of ASCII bytes, a pass hands
    over a text exactly when the line holds a digit: the token the pattern
    finds is always one that [float()] reads, so the [ValueError] branch is
    not taken, and a line without a digit, the empty read included, is
    skipped without a sleep. *)
Theorem ascii_default_pattern_displays_iff_digit (cfg : ascii_config)
    (serial serial' : Serial) (data : bytes) :
  cfg_pattern cfg = default_pattern →
  readline serial = (Ok data, serial') →
  forallb is_ascii data = true →
  (existsb is_ascii_digit data = false →
   read_weight_ascii_pass readline cfg (World serial tt [])
   = (Ok tt, World serial' tt [EvReadline]))
  ∧ (existsb is_ascii_digit data = true →
     ∃ (token : pystr) (value : float) (display : pystr),
       default_pattern (py_strip (utf8_decode_ignore data))
       = Match (Ok (Some token))
       ∧ py_float token = Ok value
       ∧ read_weight_ascii_pass readline cfg (World serial tt [])
         = (Ok tt,
            World serial' tt
              [EvReadline; EvAfter (ConfigWeightDisplay display (cfg_unit cfg))])).
Proof.
  intros Hpattern Hline Hascii.
  assert (Hall : Forall (λ c, is_ascii c = true) data).
  { apply Forall_forall. intros c Hc%list_elem_of_In.
    by apply (proj1 (forallb_forall _ _) Hascii). }
  unfold read_weight_ascii_pass, try_except, mbind, io_bind, call, lift,
    mret, io_ret.
  cbn [device locals trace]. rewrite Hline, Hpattern.
  rewrite (utf8_decode_ignore_ascii data Hascii).
  split.
  - intros Hnone. destruct (negb (py_list_bool data)); [done|].
    assert (Hno : search_number (py_strip data) = None).
    { apply search_number_none_iff, py_strip_Forall.
      apply Forall_forall. intros c Hc.
      rewrite is_digit_ascii by (rewrite Forall_forall in Hall; by apply Hall).
      apply not_true_is_false. intros Hd.
      assert (Hex : existsb is_ascii_digit data = true)
        by (apply existsb_exists; exists c; by rewrite <- list_elem_of_In).
      congruence. }
    unfold default_pattern. by rewrite Hno.
  - intros (c & Hc%list_elem_of_In & Hd)%existsb_exists.
    destruct data as [|b data']; [by apply elem_of_nil in Hc|].
    cbn [py_list_bool negb]. set (data := b :: data') in *.
    unfold default_pattern at 1 2.
    destruct (search_number (py_strip data)) as [token|] eqn:Hsearch.
    + destruct (search_number_parses (py_strip data) token) as [value Hvalue].
      { apply forallb_forall. intros x Hx%list_elem_of_In.
        revert x Hx. apply Forall_forall. by apply py_strip_Forall. }
      { done. }
      cbn [float_of_group]. rewrite Hvalue.
      unfold float_bool, float_truediv.
      destruct (float_eqb (cfg_divisor cfg) float_zero); cbn [negb andb];
        [|destruct (negb (float_eqb (cfg_divisor cfg) float_one))];
        eexists token, value, _; (split; [reflexivity|]);
        (split; [exact Hvalue|]); reflexivity.
    + exfalso. pose proof Hsearch as Hno.
      apply search_number_none_iff in Hno.
      rewrite Forall_forall in Hno.
      assert (Hin : c ∈ py_strip data)
        by (apply py_strip_keeps; [by apply digit_not_space|done]).
      specialize (Hno c Hin).
      rewrite is_digit_ascii in Hno by by apply digit_is_ascii. congruence.
Qed.
End DefaultPatternPass.

Section DefaultPatternExamples.
Local Existing Instance ascii_only.

Lemma ascii_default_pattern_displays_iff_digit_witness :
  (existsb is_ascii_digit example_line = false →
   read_weight_ascii_pass queued_lines
     (AsciiConfig default_pattern (lit "kg") (lit "auto") float_one)
     (World [example_line] tt [])
   = (Ok tt, World [] tt [EvReadline]))
  ∧ (existsb is_ascii_digit example_line = true →
     ∃ (token : pystr) (value : float) (display : pystr),
       default_pattern (py_strip (utf8_decode_ignore example_line))
       = Match (Ok (Some token))
       ∧ py_float token = Ok value
       ∧ read_weight_ascii_pass queued_lines
           (AsciiConfig default_pattern (lit "kg") (lit "auto") float_one)
           (World [example_line] tt [])
         = (Ok tt,
            World [] tt
              [EvReadline; EvAfter (ConfigWeightDisplay display (lit "kg"))])).
Proof.
  apply (ascii_default_pattern_displays_iff_digit queued_lines
           (AsciiConfig default_pattern (lit "kg") (lit "auto") float_one)
           [example_line] [] example_line); reflexivity.
Defined.
End DefaultPatternExamples.

(** ** The size of the video panes *)

(** X26. For every window size, [get_display_size] gives a pane at least
    280 wide and 360 high, these being the sizes for a window of at most
    640 by 540; two panes and 40 pixels fit in the available width, and the
    pane is 40 pixels lower than the available height. *)
Theorem get_display_size_bounds (window_width window_height : Z) :
  let '(camera_width, camera_height) :=
    get_display_size window_width window_height in
  280 ≤ camera_width ∧ 360 ≤ camera_height
  ∧ 2 * camera_width + 40 ≤ Z.max 600 (window_width - 40)
  ∧ camera_height + 40 = Z.max 400 (window_height - 140)
  ∧ (window_width ≤ 640 → camera_width = 280)
  ∧ (window_height ≤ 540 → camera_height = 360).
Proof.
  unfold get_display_size. cbv zeta.
  pose proof (Z.div_mod (Z.max 600 (window_width - 40)) 2 ltac:(lia)) as Hdiv.
  pose proof (Z.mod_pos_bound (Z.max 600 (window_width - 40)) 2 ltac:(lia)) as Hmod.
  repeat split; lia.
Qed.

(** ** Connecting and disconnecting the weighbridge *)

Section LifecycleProofs.
Context `{!UnicodeData}.
Context {Client Serial : Type}.
Context (client_bool : Client → bool) (serial_bool : Serial → bool).
Context (client_close : Client → option exn) (serial_close : Serial → option exn).
Context (serial_Serial : serial_settings → result Serial).
Context (ModbusSerialClient : modbus_settings → result Client).
Context (client_connect : Client → result bool).
Context (upper_non_ascii : pystr → pystr).
Hypothesis client_true : ∀ c, client_bool c = true.
Hypothesis serial_true : ∀ s, serial_bool s = true.

(** What the two closing statements do: with no error, nothing is left
    open; when closing the client raises, nothing else has happened. *)
Lemma close_connections_spec (a : viewer Client Serial) :
  match close_connections client_bool serial_bool client_close serial_close a with
  | (Ok _, a') =>
      a' = Viewer None None (weighbridge_protocol a) (is_weight_connected a)
             (ui a ++ close_of ModbusHandle (modbus_client a)
                   ++ close_of SerialHandle (serial_conn a))
      ∧ (∀ c, modbus_client a = Some c → client_close c = None)
  | (Raise e, a') =>
      a' = Viewer (modbus_client a) (serial_conn a) (weighbridge_protocol a)
             (is_weight_connected a) (ui a ++ [UiClose ModbusHandle])
      ∧ ∃ c, modbus_client a = Some c ∧ client_close c = Some e
  end.
Proof.
  destruct a as [[c|] [s|] protocol flag tr];
    unfold close_connections, close_call, mbind, io_bind, get_viewer, try_except,
      ui_emit, set_modbus_client, set_serial_conn, raise, mret, io_ret;
    cbn [modbus_client serial_conn weighbridge_protocol is_weight_connected ui];
    rewrite ?client_true, ?serial_true;
    try destruct (client_close c) as [e|] eqn:Hc;
    try destruct (serial_close s) as [e'|];
    cbn [modbus_client serial_conn weighbridge_protocol is_weight_connected ui
         close_of];
    rewrite <- ?app_assoc, ?app_nil_r;
    try (split; [reflexivity|]); try (intros ? [= <-]; done); try done;
    try (by exists c).
Qed.

(** X27. [disconnect_weighbridge] clears [is_weight_connected] first. When it
    returns, both connection fields are [None], each object that was held
    has been closed once, an error of the port's [close()] being ignored,
    and the status and the weight label are reset. When the client's
    [close()] raises, the error escapes: both fields and both labels are
    left as they were. Clients and ports are objects that are true. *)
Theorem disconnect_weighbridge_outcome (a : viewer Client Serial) :
  match disconnect_weighbridge client_bool serial_bool client_close serial_close a
  with
  | (Ok _, a') =>
      a' = Viewer None None (weighbridge_protocol a) false
             (ui a ++ close_of ModbusHandle (modbus_client a)
                   ++ close_of SerialHandle (serial_conn a)
                   ++ [UiStatus (lit "Status: Disconnected") (lit "red");
                       UiDisplay (lit "Weight: 0.00 kg")])
  | (Raise e, a') =>
      a' = Viewer (modbus_client a) (serial_conn a) (weighbridge_protocol a) false
             (ui a ++ [UiClose ModbusHandle])
      ∧ ∃ c, modbus_client a = Some c ∧ client_close c = Some e
  end.
Proof.
  unfold disconnect_weighbridge, mbind at 1, io_bind at 1, set_is_weight_connected.
  unfold mbind at 1, io_bind at 1.
  pose proof (close_connections_spec
                (Viewer (modbus_client a) (serial_conn a) (weighbridge_protocol a)
                     false (ui a))) as Hclose.
  destruct (close_connections _ _ _ _ _) as [[[]|e] a1];
    cbn [modbus_client serial_conn weighbridge_protocol is_weight_connected ui]
      in Hclose.
  - destruct Hclose as [-> _]. unfold mbind, io_bind, ui_emit.
    cbn [modbus_client serial_conn weighbridge_protocol is_weight_connected ui].
    by rewrite <- !app_assoc.
  - done.
Qed.

Lemma opens_app (evs1 evs2 : list ui_event) :
  opens (evs1 ++ evs2) = opens evs1 ++ opens evs2.
Proof. apply bind_app. Qed.

Lemma thread_starts_app (evs1 evs2 : list ui_event) :
  thread_starts (evs1 ++ evs2) = thread_starts evs1 ++ thread_starts evs2.
Proof. apply bind_app. Qed.

Lemma opens_close_of {A : Type} (h : handle) (field : option A) :
  opens (close_of h field) = [].
Proof. by destruct field. Qed.

Lemma thread_starts_close_of {A : Type} (h : handle) (field : option A) :
  thread_starts (close_of h field) = [].
Proof. by destruct field. Qed.

Ltac connect_leaf :=
  eexists _, _; (split; [reflexivity|]);
  cbn [modbus_client serial_conn weighbridge_protocol is_weight_connected ui];
  rewrite <- ?app_assoc; (split; [reflexivity|]);
  (split; [reflexivity|]);
  (split; [intros _; auto|]);
  rewrite ?opens_app, ?thread_starts_app, ?opens_close_of, ?thread_starts_close_of;
  cbn; (split; [lia|]); eauto.

(** X28. [connect_weighbridge] never raises. It calls at most one
    constructor; it does not end with both a client and a port held when it
    did not start so; it starts a reader thread only with
    [is_weight_connected] set and the matching connection held, the client
    being one whose [connect()] succeeded; and without a thread started it
    leaves [is_weight_connected] as it was. Clients and ports are objects
    that are true. *)
Theorem connect_weighbridge_returns (env : environ)
    (weight_port weight_baudrate : pystr) (a : viewer Client Serial) :
  ∃ (a' : viewer Client Serial) (evs : list ui_event),
    connect_weighbridge client_bool serial_bool client_close serial_close
      serial_Serial ModbusSerialClient client_connect upper_non_ascii
      env weight_port weight_baudrate a = (Ok tt, a')
    ∧ ui a' = ui a ++ evs
    ∧ weighbridge_protocol a' = weighbridge_protocol a
    ∧ (modbus_client a = None ∨ serial_conn a = None →
       modbus_client a' = None ∨ serial_conn a' = None)
    ∧ (length (opens evs) ≤ 1)%nat
    ∧ match thread_starts evs with
      | [] => is_weight_connected a' = is_weight_connected a
      | [ReadWeightLoop] =>
          is_weight_connected a' = true ∧ serial_conn a' = None
          ∧ ∃ c, modbus_client a' = Some c ∧ client_connect c = Ok true
      | [ReadWeightAsciiLoop] =>
          is_weight_connected a' = true ∧ modbus_client a' = None
          ∧ ∃ s, serial_conn a' = Some s
      | _ => False
      end.
Proof.
  unfold connect_weighbridge, try_except, mbind at 1, io_bind at 1.
  pose proof (close_connections_spec a) as Hclose.
  destruct (close_connections _ _ _ _ a) as [[[]|e] a1].
  - destruct Hclose as [-> _].
    unfold mbind, io_bind, lift, ui_emit, get_viewer, set_modbus_client,
      set_serial_conn, set_is_weight_connected, mret, io_ret.
    cbn [modbus_client serial_conn weighbridge_protocol is_weight_connected ui].
    destruct (py_int (py_strip weight_baudrate)) as [baudrate|e];
      [|connect_leaf].
    destruct (negb (py_list_bool (py_strip weight_port))); [connect_leaf|].
    cbn [modbus_client serial_conn weighbridge_protocol is_weight_connected ui].
    destruct (bool_decide (weighbridge_protocol a = lit "ascii")).
    + destruct (py_int _) as [bytesize|e]; [|connect_leaf].
      destruct (py_float _) as [stopbits|e]; [|connect_leaf].
      destruct (py_float _) as [timeout|e]; [|connect_leaf].
      destruct (serial_Serial _) as [conn|e]; connect_leaf.
    + destruct (py_int _) as [bytesize|e]; [|connect_leaf].
      destruct (py_float _) as [x|e]; cbn [mbind result_bind]; [|connect_leaf].
      destruct (int_of_float x) as [stopbits|e]; [|connect_leaf].
      destruct (py_float _) as [timeout|e]; [|connect_leaf].
      destruct (ModbusSerialClient _) as [client|e]; [|connect_leaf].
      cbn [modbus_client serial_conn weighbridge_protocol is_weight_connected ui].
      destruct (client_connect client) as [[|]|e] eqn:Hconnect; connect_leaf.
  - destruct Hclose as [-> (c & Hc & _)].
    unfold mbind, io_bind, ui_emit.
    cbn [modbus_client serial_conn weighbridge_protocol is_weight_connected ui].
    eexists _, _. split; [reflexivity|].
    cbn [modbus_client serial_conn weighbridge_protocol is_weight_connected ui].
    rewrite <- ?app_assoc. split; [reflexivity|]. split; [reflexivity|].
    split; [done|]. cbn. split; [lia|done].
Qed.
End LifecycleProofs.

Section LifecycleFirstConnect.
Context `{!UnicodeData}.
Context {Client Serial : Type}.
Context (client_bool : Client → bool) (serial_bool : Serial → bool).
Context (client_close : Client → option exn) (serial_close : Serial → option exn).
Context (serial_Serial : serial_settings → result Serial).
Context (ModbusSerialClient : modbus_settings → result Client).
Context (client_connect : Client → result bool).
Context (upper_non_ascii : pystr → pystr).

(** X29. With nothing connected and a blank port field, [connect_weighbridge]
    opens nothing and leaves the status as it is; the dialog asks for the
    port when the baud rate parses, and when it does not the error of the
    baud rate is reported instead, with the status set to "Status:
    Error". *)
Theorem connect_blank_port_opens_nothing (env : environ)
    (weight_port weight_baudrate : pystr) (a : viewer Client Serial) :
  modbus_client a = None → serial_conn a = None →
  py_strip weight_port = [] →
  connect_weighbridge client_bool serial_bool client_close serial_close
    serial_Serial ModbusSerialClient client_connect upper_non_ascii
    env weight_port weight_baudrate a
  = (Ok tt,
     Viewer None None (weighbridge_protocol a) (is_weight_connected a)
       (ui a ++ match py_int (py_strip weight_baudrate) with
                | Ok _ =>
                    [UiShowError (lit "Error") (lit "Please enter weighbridge port")]
                | Raise e =>
                    [UiStatus (lit "Status: Error") (lit "red");
                     UiShowErrorOf (lit "Error")
                       (lit "Failed to connect to weighbridge: ") e]
                end)).
Proof.
  destruct a as [mc sc protocol flag tr]. cbn. intros -> -> Hport.
  unfold connect_weighbridge, close_connections, try_except, mbind, io_bind,
    get_viewer, lift, ui_emit, mret, io_ret.
  cbn [modbus_client serial_conn weighbridge_protocol is_weight_connected ui].
  rewrite Hport.
  destruct (py_int (py_strip weight_baudrate)) as [baudrate|e];
    cbn [py_list_bool negb modbus_client serial_conn weighbridge_protocol
         is_weight_connected ui]; [done|].
  by rewrite <- app_assoc.
Qed.

(** X30. When the Modbus client is created but its [connect()] is refused,
    [connect_weighbridge] reports "Status: Connection Failed", starts no
    thread, keeps the new client in [modbus_client] and leaves
    [is_weight_connected] as it was. *)
Theorem connect_refused_keeps_client_and_flag (env : environ)
    (weight_port weight_baudrate : pystr) (a : viewer Client Serial)
    (settings : modbus_settings) (client : Client) :
  modbus_client a = None → serial_conn a = None →
  weighbridge_protocol a ≠ lit "ascii" →
  py_strip weight_port ≠ [] →
  modbus_configured upper_non_ascii env weight_port weight_baudrate = Ok settings →
  ModbusSerialClient settings = Ok client →
  client_connect client = Ok false →
  connect_weighbridge client_bool serial_bool client_close serial_close
    serial_Serial ModbusSerialClient client_connect upper_non_ascii
    env weight_port weight_baudrate a
  = (Ok tt,
     Viewer (Some client) None (weighbridge_protocol a) (is_weight_connected a)
       (ui a ++ [UiStatus (lit "Status: Connecting...") (lit "orange");
                 UiRootUpdate;
                 UiModbusSerialClient settings;
                 UiConnect;
                 UiStatus (lit "Status: Connection Failed") (lit "red");
                 UiShowError (lit "Error")
                   (lit "Failed to connect to weighbridge on " ++ py_strip weight_port)])).
Proof.
  destruct a as [mc sc protocol flag tr]. cbn. intros -> -> Hprotocol Hport.
  unfold modbus_configured. intros Hcfg Hnew Hconnect.
  unfold connect_weighbridge, close_connections, try_except, mbind, io_bind,
    get_viewer, lift, ui_emit, set_modbus_client, mret, io_ret.
  cbn [modbus_client serial_conn weighbridge_protocol is_weight_connected ui].
  destruct (py_int (py_strip weight_baudrate)) as [baudrate|]; [|done].
  destruct (py_strip weight_port) as [|p port] eqn:Hp; [done|].
  cbn [py_list_bool negb modbus_client serial_conn weighbridge_protocol
       is_weight_connected ui].
  rewrite bool_decide_eq_false_2 by done.
  cbn [mbind result_bind] in Hcfg.
  destruct (py_int (py_strip (getenv env "WEIGHBRIDGE_BYTESIZE" (lit "8"))))
    as [bytesize|]; [|done].
  cbn [mbind result_bind] in Hcfg.
  destruct (py_float (py_strip (getenv env "WEIGHBRIDGE_STOPBITS" (lit "1"))))
    as [x|]; [|done].
  cbn [mbind result_bind] in Hcfg |- *.
  destruct (int_of_float x) as [stopbits|]; [|done].
  cbn [mbind result_bind] in Hcfg.
  destruct (py_float (py_strip (getenv env "WEIGHBRIDGE_TIMEOUT" (lit "1"))))
    as [timeout|]; [|done].
  cbn [mbind result_bind] in Hcfg. injection Hcfg as <-.
  rewrite Hnew.
  cbn [modbus_client serial_conn weighbridge_protocol is_weight_connected ui].
  rewrite Hconnect.
  cbn [modbus_client serial_conn weighbridge_protocol is_weight_connected ui].
  by rewrite <- !app_assoc.
Qed.
End LifecycleFirstConnect.


Section LifecycleExamples.
Local Existing Instance ascii_only.

Lemma disconnect_weighbridge_outcome_witness :
  match
    disconnect_weighbridge always_true always_true closes_quietly close_fails
      (Viewer (Some tt) (Some tt) (lit "modbus") true [])
  with
  | (Ok _, a') =>
      a' = Viewer None None (lit "modbus") false
             ([] ++ [UiClose ModbusHandle] ++ [UiClose SerialHandle]
              ++ [UiStatus (lit "Status: Disconnected") (lit "red");
                  UiDisplay (lit "Weight: 0.00 kg")])
  | (Raise e, a') =>
      a' = Viewer (Some tt) (Some tt) (lit "modbus") false ([] ++ [UiClose ModbusHandle])
      ∧ ∃ c, Some tt = Some c ∧ closes_quietly c = Some e
  end.
Proof.
  exact (disconnect_weighbridge_outcome always_true always_true closes_quietly
           close_fails (λ _, eq_refl) (λ _, eq_refl)
           (Viewer (Some tt) (Some tt) (lit "modbus") true [])).
Defined.

Lemma connect_weighbridge_returns_witness :
  ∃ (a' : viewer () ()) (evs : list ui_event),
    connect_weighbridge always_true always_true closes_quietly closes_quietly
      open_port new_client connect_refused upper_unchanged
      {[ "WEIGHBRIDGE_PROTOCOL"%string := lit "ASCII" ]}
      (lit "/dev/ttyUSB0") (lit "9600")
      (Viewer (Some tt) None (lit "ascii") true []) = (Ok tt, a')
    ∧ ui a' = [] ++ evs
    ∧ weighbridge_protocol a' = lit "ascii"
    ∧ (Some tt = None ∨ @None () = None →
       modbus_client a' = None ∨ serial_conn a' = None)
    ∧ (length (opens evs) ≤ 1)%nat
    ∧ match thread_starts evs with
      | [] => is_weight_connected a' = true
      | [ReadWeightLoop] =>
          is_weight_connected a' = true ∧ serial_conn a' = None
          ∧ ∃ c, modbus_client a' = Some c ∧ connect_refused c = Ok true
      | [ReadWeightAsciiLoop] =>
          is_weight_connected a' = true ∧ modbus_client a' = None
          ∧ ∃ s, serial_conn a' = Some s
      | _ => False
      end.
Proof.
  apply (connect_weighbridge_returns always_true always_true closes_quietly
           closes_quietly open_port new_client connect_refused upper_unchanged
           (λ _, eq_refl) (λ _, eq_refl)
           {[ "WEIGHBRIDGE_PROTOCOL"%string := lit "ASCII" ]}
           (lit "/dev/ttyUSB0") (lit "9600")
           (Viewer (Some tt) None (lit "ascii") true [])).
Defined.

Lemma connect_blank_port_opens_nothing_witness :
  connect_weighbridge always_true always_true closes_quietly closes_quietly
    open_port new_client connect_refused upper_unchanged ∅
    (lit "  ") (lit "96oo") (init_weighbridge ∅)
  = (Ok tt,
     Viewer None None (lit "modbus") false
       [UiStatus (lit "Status: Error") (lit "red");
        UiShowErrorOf (lit "Error") (lit "Failed to connect to weighbridge: ")
          ValueError]).
Proof.
  exact (connect_blank_port_opens_nothing always_true always_true closes_quietly
           closes_quietly open_port new_client connect_refused upper_unchanged ∅
           (lit "  ") (lit "96oo") (init_weighbridge ∅) eq_refl eq_refl eq_refl).
Defined.

Lemma connect_refused_keeps_client_and_flag_witness :
  connect_weighbridge always_true always_true closes_quietly closes_quietly
    open_port new_client connect_refused upper_unchanged ∅
    (lit " /dev/ttyUSB0 ") (lit "9600") (Viewer None None (lit "modbus") true [])
  = (Ok tt,
     Viewer (Some tt) None (lit "modbus") true
       [UiStatus (lit "Status: Connecting...") (lit "orange");
        UiRootUpdate;
        UiModbusSerialClient
          (ModbusSettings (lit "/dev/ttyUSB0") 9600 float_one (lit "N") 1 8);
        UiConnect;
        UiStatus (lit "Status: Connection Failed") (lit "red");
        UiShowError (lit "Error")
          (lit "Failed to connect to weighbridge on /dev/ttyUSB0")]).
Proof.
  apply (connect_refused_keeps_client_and_flag always_true always_true
           closes_quietly closes_quietly open_port new_client connect_refused
           upper_unchanged ∅ (lit " /dev/ttyUSB0 ") (lit "9600")
           (Viewer None None (lit "modbus") true [])
           (ModbusSettings (lit "/dev/ttyUSB0") 9600 float_one (lit "N") 1 8) tt).
  - reflexivity.
  - reflexivity.
  - discriminate.
  - discriminate.
  - reflexivity.
  - reflexivity.
  - reflexivity.
Defined.
End LifecycleExamples.
